(** * Stock consistency and sequential identifiers of the sofra back office

    A shallow embedding of the stock and invoice flows of
    [src/models/productModel.js], [src/models/movementModel.js],
    the invoice model and [src/controllers/invoiceCon.js], and of the
    product, stock movement and client controllers that call them,
    followed by the properties proved about them.

    Conventions of the embedding.
    - The document store is a record of finite maps, one per collection.
      Every function takes the store it reads and returns the store it
      leaves behind together with what the JavaScript function returns or
      throws.
    - A write batch ([db.batch()]) is the list of writes staged on it; the
      writes reach the store only through [commit], all of them or none.
    - Numbers are exact integers ([Z]): quantities are whole units and
      amounts are counted in the smallest currency unit.  JavaScript numbers
      agree with this below 2^53; the properties that depend on it carry
      the bound as a hypothesis.
    - An absent ([undefined]) numeric field is [None]; an absent string is
      the empty string, which JavaScript treats as falsy like [undefined].
      Where the code hands the name of a stored product to the store,
      which refuses [undefined], or renders it in a message, the empty
      string is taken as absent.
    - Bookkeeping dates ([createdAt], [updatedAt], [confirmedAt], the
      formatted [date]) are left out, except the two a movement is aged by. *)

From Stdlib Require Import ZArith Lia Ascii.
From stdpp Require Import base option list strings pretty gmap.

Local Open Scope Z_scope.

(** ** JavaScript primitives used by the code *)
Module JS.

(** [a || b] for a numeric field [a]: [a] when it is defined and not 0. *)
Definition orNum (a : option Z) (b : Z) : Z :=
  match a with
  | Some x => if x =? 0 then b else x
  | None => b
  end.

(** [a ?? b]. *)
Definition nullish (a : option Z) (b : Z) : Z := default b a.

(** Truthiness of a string value. *)
Definition truthy (s : string) : bool := negb (String.eqb s "").

(** Template rendering of a number. *)
Definition num (z : Z) : string := pretty z.

(** Template rendering of a string that may be absent. *)
Definition str (s : string) : string := if truthy s then s else "undefined".

(** [Number.MAX_SAFE_INTEGER]. *)
Definition maxSafeInteger : Z := 2 ^ 53 - 1.

(** [Number.isSafeInteger(n)] for a whole number. *)
Definition isSafeInteger (n : Z) : bool := Z.abs n <=? maxSafeInteger.

(** The digit a decimal expansion starts with. *)
Definition leadingDigit (n : Z) : Z :=
  match pretty (Z.abs n) with
  | String c _ => Z.of_nat (nat_of_ascii c - 48)
  | EmptyString => 0
  end.

(** [parseInt(n)] for a whole number [n]: the number is turned into a
    string and the digits the string starts with are read back.  Below
    10^21 the string is the decimal expansion and the number comes back;
    from 10^21 on the string has an exponent (as in 1.5e+21) and what
    comes back is the digit before the point, the first digit of [n]
    unless the string is rounded up to the next power of ten.  The
    properties use it on safe integers only. *)
Definition parseIntNum (n : Z) : Z :=
  if Z.abs n <? 10 ^ 21 then n else Z.sgn n * leadingDigit n.

(** [Array.prototype.join]. *)
Fixpoint join (sep : string) (l : list string) : string :=
  match l with
  | [] => ""
  | [x] => x
  | x :: rest => x +:+ sep +:+ join sep rest
  end.

Fixpoint repeat0 (n : nat) : string :=
  match n with
  | O => ""
  | S k => String "0"%char (repeat0 k)
  end.

(** [s.padStart(width, '0')]. *)
Definition padStart (width : nat) (s : string) : string :=
  repeat0 (width - String.length s) +:+ s.

Definition is_ws (c : ascii) : bool :=
  let n := nat_of_ascii c in
  ((9 <=? n) && (n <=? 13))%nat || (n =? 32)%nat.

Fixpoint trimStart (s : string) : string :=
  match s with
  | String c rest => if is_ws c then trimStart rest else s
  | EmptyString => EmptyString
  end.

(** [s.trim()], on the white space of the ASCII range. *)
Definition trim (s : string) : string :=
  String.rev (trimStart (String.rev (trimStart s))).

Definition upper (c : ascii) : ascii :=
  let n := nat_of_ascii c in
  if ((97 <=? n) && (n <=? 122))%nat then ascii_of_nat (n - 32) else c.

(** [s.toUpperCase()], on the letters of the ASCII range. *)
Fixpoint toUpperCase (s : string) : string :=
  match s with
  | String c rest => String (upper c) (toUpperCase rest)
  | EmptyString => EmptyString
  end.

Fixpoint startsWith (needle hay : string) : bool :=
  match needle, hay with
  | EmptyString, _ => true
  | String a needle', String b hay' => Ascii.eqb a b && startsWith needle' hay'
  | String _ _, EmptyString => false
  end.

(** [hay.includes(needle)]. *)
Fixpoint includes (needle hay : string) : bool :=
  match hay with
  | EmptyString => startsWith needle EmptyString
  | String _ rest => startsWith needle hay || includes needle rest
  end.

(** [hay.includes(needle)] as a proposition. *)
Definition mentions (needle hay : string) : Prop :=
  ∃ before after, hay = before +:+ needle +:+ after.

End JS.

(** ** The document store *)

(** A document of the [products] collection.  The code reads the on-hand
    count from [q], [quantity] or [currentStock], depending on the place. *)
Record Product := mkProduct {
  p_name : string;
  p_q : option Z;
  p_quantity : option Z;
  p_currentStock : option Z;
  p_price : option Z;
  p_unitPrice : option Z;
  p_expiryDate : option Z
}.

(** A line of an invoice document. *)
Record InvoiceLine := mkInvoiceLine {
  il_productId : string;
  il_name : string;
  il_quantity : Z;
  il_unitPrice : Z;
  il_total : Z
}.

(** A document of the [invoices] collection. *)
Record Invoice := mkInvoice {
  i_clientId : string;
  i_clientName : string;
  i_products : list InvoiceLine;
  i_remise : Z;
  i_advance : Z;
  i_total : Z;
  i_totalAfterDiscount : Z;
  i_rest : Z;
  i_status : string;
  i_paid : option bool
}.

(** A line of a stock movement document. *)
Record MovementLine := mkMovementLine {
  ml_productId : string;
  ml_productName : string;
  ml_quantity : Z;
  ml_unitPrice : Z;
  ml_total : Z;
  ml_previousStock : Z;
  ml_newStock : Z
}.

(** A document of the [stockMovements] collection; times are in
    milliseconds. *)
Record Movement := mkMovement {
  m_type : string;
  m_department : option string;
  m_supplier : option string;
  m_stockManager : string;
  m_products : list MovementLine;
  m_totalValue : Z;
  m_totalItems : Z;
  m_notes : string;
  m_timestamp : option Z;
  m_createdAt : option Z
}.

Record Db := mkDb {
  products : gmap string Product;
  invoices : gmap string Invoice;
  stockMovements : gmap string Movement;
  clients : gset string;
  counters : gmap string Z
}.

(** What a JavaScript call ends with. *)
Inductive Outcome (A : Type) : Type :=
| Returned (a : A)
| Thrown (message : string).
Arguments Returned {A} a.
Arguments Thrown {A} message.

(** The fields of a product that [batch.update] sets in this code base. *)
Record ProductPatch := mkProductPatch {
  pp_q : option Z;
  pp_quantity : option Z
}.

(** The fields of an invoice that [batch.update] sets in this code base. *)
Record InvoicePatch := mkInvoicePatch {
  ip_products : option (list InvoiceLine);
  ip_total : option Z;
  ip_totalAfterDiscount : option Z;
  ip_rest : option Z;
  ip_status : option string;
  ip_paid : option bool;
  ip_remise : option Z;
  ip_advance : option Z
}.

(** A write staged on a batch. *)
Inductive Write : Type :=
| UpdateProduct (id : string) (patch : ProductPatch)
| UpdateInvoice (id : string) (patch : InvoicePatch)
| SetInvoice (id : string) (doc : Invoice).

Module Firestore.

Definition patchProduct (patch : ProductPatch) (p : Product) : Product :=
  mkProduct (p_name p)
    (from_option Some (p_q p) (pp_q patch))
    (from_option Some (p_quantity p) (pp_quantity patch))
    (p_currentStock p) (p_price p) (p_unitPrice p) (p_expiryDate p).

Definition patchInvoice (patch : InvoicePatch) (i : Invoice) : Invoice :=
  mkInvoice (i_clientId i) (i_clientName i)
    (default (i_products i) (ip_products patch))
    (default (i_remise i) (ip_remise patch))
    (default (i_advance i) (ip_advance patch))
    (default (i_total i) (ip_total patch))
    (default (i_totalAfterDiscount i) (ip_totalAfterDiscount patch))
    (default (i_rest i) (ip_rest patch))
    (default (i_status i) (ip_status patch))
    (from_option Some (i_paid i) (ip_paid patch)).

Definition setProducts (db : Db) (ps : gmap string Product) : Db :=
  mkDb ps (invoices db) (stockMovements db) (clients db) (counters db).

Definition setInvoices (db : Db) (ivs : gmap string Invoice) : Db :=
  mkDb (products db) ivs (stockMovements db) (clients db) (counters db).

Definition setStockMovements (db : Db) (ms : gmap string Movement) : Db :=
  mkDb (products db) (invoices db) ms (clients db) (counters db).

Definition setCounters (db : Db) (cs : gmap string Z) : Db :=
  mkDb (products db) (invoices db) (stockMovements db) (clients db) cs.

(** An update needs its document to exist; a set does not. *)
Definition writable (db : Db) (w : Write) : bool :=
  match w with
  | UpdateProduct id _ => bool_decide (is_Some (products db !! id))
  | UpdateInvoice id _ => bool_decide (is_Some (invoices db !! id))
  | SetInvoice _ _ => true
  end.

Definition applyWrite (db : Db) (w : Write) : Db :=
  match w with
  | UpdateProduct id patch =>
      setProducts db (alter (patchProduct patch) id (products db))
  | UpdateInvoice id patch =>
      setInvoices db (alter (patchInvoice patch) id (invoices db))
  | SetInvoice id doc => setInvoices db (<[id := doc]> (invoices db))
  end.

(** [batch.commit()]: every staged write lands, in the order staged, or
    (an update of a document that does not exist) none does. *)
Definition commit (db : Db) (batch : list Write) : option Db :=
  if forallb (writable db) batch then Some (foldl applyWrite db batch)
  else None.

Definition commitFailed : string := "batch commit failed".

Definition quote : string := String (ascii_of_nat 34) EmptyString.

(** [collection.doc(path)] throws on an empty path, with this message of
    the client library. *)
Definition invalidPath : string :=
  "Value for argument " +:+ quote +:+ "documentPath" +:+ quote +:+
  " is not a valid resource path. Path must be a non-empty string.".

(** [set] throws on a document with a field that is [undefined], with
    this message of the client library. *)
Definition undefinedValue (field : string) : string :=
  "Value for argument " +:+ quote +:+ "data" +:+ quote +:+
  " is not a valid Firestore document. Cannot use " +:+ quote +:+ "undefined" +:+ quote +:+
  " as a Firestore value (found in field " +:+ quote +:+ field +:+ quote +:+
  "). If you want to ignore undefined values, enable `ignoreUndefinedProperties`.".

End Firestore.

(** ** The stock ledger: [src/models/productModel.js] *)
Module ProductModel.

Record Result := mkResult {
  r_productId : string;
  r_success : bool;
  r_error : option string;
  r_oldQuantity : option Z;
  r_delta : option Z;
  r_newQuantity : option Z
}.

Definition failure (id msg : string) : Result :=
  mkResult id false (Some msg) None None None.

Definition done (id : string) (old delta new : Z) : Result :=
  mkResult id true None (Some old) (Some delta) (Some new).

(** One turn of the loop of [addQuantitiesToProducts]: the entry pushed on
    [results] and the write staged on the batch, if any. *)
Definition addOne (db : Db) (item : string * Z) : Result * option Write :=
  let '(productId, quantityToAdd) := item in
  if negb (JS.truthy productId) then (failure productId Firestore.invalidPath, None)
  else
  match products db !! productId with
  | None => (failure productId "Product not found", None)
  | Some doc =>
      let currentQuantity := JS.orNum (p_q doc) 0 in
      let newQuantity := currentQuantity + quantityToAdd in
      (done productId currentQuantity quantityToAdd newQuantity,
       Some (UpdateProduct productId (mkProductPatch (Some newQuantity) None)))
  end.

Definition insufficient (currentQuantity quantityToRemove : Z) : string :=
  "Insufficient stock. Available: " +:+ JS.num currentQuantity +:+
  ", Requested to remove: " +:+ JS.num quantityToRemove.

(** One turn of the loop of [removeQuantitiesFromProducts]. *)
Definition removeOne (db : Db) (item : string * Z) : Result * option Write :=
  let '(productId, quantityToRemove) := item in
  if negb (JS.truthy productId) then (failure productId Firestore.invalidPath, None)
  else
  match products db !! productId with
  | None => (failure productId "Product not found", None)
  | Some doc =>
      let currentQuantity := JS.orNum (p_q doc) (JS.orNum (p_quantity doc) 0) in
      if currentQuantity <? quantityToRemove then
        (failure productId (insufficient currentQuantity quantityToRemove), None)
      else
        let newQuantity := currentQuantity - quantityToRemove in
        (done productId currentQuantity quantityToRemove newQuantity,
         Some (UpdateProduct productId
                 (mkProductPatch (Some newQuantity) (Some newQuantity))))
  end.

(** The loop reads the store only, so its turns are independent; the
    batch is committed after the last one. *)
Definition bulk (one : Db → string * Z → Result * option Write)
    (db : Db) (items : list (string * Z)) : Db * Outcome (list Result) :=
  let turns := one db <$> items in
  match Firestore.commit db (omap snd turns) with
  | Some db' => (db', Returned (fst <$> turns))
  | None => (db, Thrown Firestore.commitFailed)
  end.

Definition addQuantitiesToProducts := bulk addOne.
Definition removeQuantitiesFromProducts := bulk removeOne.

End ProductModel.

(** What the code takes from its surroundings: the clock ([Date.now()], in
    milliseconds) and whether the counter transaction goes through. *)
Record Env := mkEnv {
  now : Z;
  transactionFails : bool
}.

(** ** Stock movements: [src/models/movementModel.js] *)
Module MovementModel.

Definition digit36 (d : N) : ascii :=
  if (d <? 10)%N then ascii_of_N (48 + d) else ascii_of_N (87 + d).

Fixpoint toString36_go (fuel : nat) (n : N) (acc : string) : string :=
  match fuel with
  | O => acc
  | S k =>
      let acc' := String (digit36 (n mod 36)) acc in
      if (n <? 36)%N then acc' else toString36_go k (n / 36) acc'
  end.

(** [n.toString(36)] for a time stamp. *)
Definition toString36 (n : Z) : string :=
  toString36_go (S (N.to_nat (N.log2 (Z.to_N n)))) (Z.to_N n) "".

(** [getNextMovementId]: the counter document is read, incremented and
    written in one transaction; when the transaction fails the identifier
    is built from the clock and the counter is left as it was. *)
Definition getNextMovementId (env : Env) (db : Db) : Db * string :=
  if transactionFails env then (db, "MOV" +:+ toString36 (now env))
  else
    let currentCount :=
      match counters db !! "stockMovements" with
      | Some count => count + 1
      | None => 1
      end in
    (Firestore.setCounters db (<["stockMovements" := currentCount]> (counters db)),
     "MOV" +:+ JS.padStart 6 (JS.num currentCount)).

(** A line of a movement request. *)
Record LineRequest := mkLineRequest {
  lr_productId : string;
  lr_quantity : Z;
  lr_price : option Z
}.

Record Request := mkRequest {
  rq_type : string;
  rq_products : list LineRequest;
  rq_stockManager : string;
  rq_department : string;
  rq_supplier : string;
  rq_notes : string
}.

Definition dq : string := String (ascii_of_nat 34) EmptyString.

(** [JSON.stringify] of a request line, on the fields of the model. *)
Definition stringify (p : LineRequest) : string :=
  "{" +:+ dq +:+ "productId" +:+ dq +:+ ":" +:+ dq +:+ lr_productId p +:+ dq +:+
  "," +:+ dq +:+ "quantity" +:+ dq +:+ ":" +:+ JS.num (lr_quantity p) +:+
  match lr_price p with
  | Some x => "," +:+ dq +:+ "price" +:+ dq +:+ ":" +:+ JS.num x +:+ "}"
  | None => "}"
  end.

(** A line that passed validation, as pushed on [validProducts]. *)
Record ValidLine := mkValidLine {
  vl_productId : string;
  vl_quantity : Z;
  vl_name : string;
  vl_previousStock : Z;
  vl_newStock : Z;
  vl_unitPrice : Z
}.

Definition insufficient (name : string) (currentStock quantity : Z) : string :=
  "Insufficient stock for " +:+ name +:+ ". Available: " +:+
  JS.num currentStock +:+ ", Requested: " +:+ JS.num quantity.

(** One turn of the validation loop of [createStockMovement]: the message
    pushed on [validationErrors], or the line pushed on [validProducts].
    The stock is computed on [parseInt] of the count read and of the
    quantity, while the line keeps the quantity as it came; [parseFloat]
    gives a whole number back as it is. *)
Definition validateLine (type : string) (db : Db) (p : LineRequest)
    : string + ValidLine :=
  if negb (JS.truthy (lr_productId p)) || (lr_quantity p <=? 0) then
    inl ("Invalid product or quantity: " +:+ stringify p)
  else
    match products db !! lr_productId p with
    | None => inl ("Product not found: " +:+ lr_productId p)
    | Some productData =>
        let currentStock := JS.parseIntNum (JS.orNum (p_quantity productData) 0) in
        let unitPrice := JS.orNum (lr_price p) (JS.orNum (p_price productData) 0) in
        if String.eqb type "stock_in" then
          inr (mkValidLine (lr_productId p) (lr_quantity p) (p_name productData)
                 currentStock (currentStock + JS.parseIntNum (lr_quantity p)) unitPrice)
        else
          let newStock := currentStock - JS.parseIntNum (lr_quantity p) in
          if newStock <? 0 then
            inl (insufficient (JS.str (p_name productData)) currentStock (lr_quantity p))
          else
            inr (mkValidLine (lr_productId p) (lr_quantity p) (p_name productData)
                   currentStock newStock unitPrice)
    end.

Definition lefts {A B} (l : list (A + B)) : list A :=
  omap (λ x, match x with inl a => Some a | inr _ => None end) l.

Definition rights {A B} (l : list (A + B)) : list B :=
  omap (λ x, match x with inl _ => None | inr b => Some b end) l.

Definition sumZ (l : list Z) : Z := foldr Z.add 0 l.

Definition toDocLine (p : ValidLine) : MovementLine :=
  mkMovementLine (vl_productId p) (vl_name p) (vl_quantity p) (vl_unitPrice p)
    (vl_unitPrice p * vl_quantity p) (vl_previousStock p) (vl_newStock p).

Definition orNull (s : string) : option string :=
  if JS.truthy s then Some s else None.

(** The first line of the movement document whose [productName] is
    [undefined]: the product read for it has no name. *)
Definition nameless (validProducts : list ValidLine) : option nat :=
  fst <$> list_find (λ p, vl_name p = "") validProducts.

(** What [createStockMovement] resolves to. *)
Inductive Created : Type :=
| Success (id : string) (data : Movement) (message : string)
| Failure (message : string).

(** The body of the [try] block of [createStockMovement]. *)
Definition createBody (env : Env) (db : Db) (data : Request)
    : Db * Outcome (string * Movement * string) :=
  if negb (String.eqb (rq_type data) "stock_in" || String.eqb (rq_type data) "distribution") then
    (db, Thrown "Valid movement type is required (stock_in or distribution)")
  else if bool_decide (rq_products data = []) then
    (db, Thrown "At least one product is required")
  else if negb (JS.truthy (JS.trim (rq_stockManager data))) then
    (db, Thrown "Stock manager is required")
  else if String.eqb (rq_type data) "distribution" && negb (JS.truthy (rq_department data)) then
    (db, Thrown "Department is required for distributions")
  else if String.eqb (rq_type data) "stock_in" && negb (JS.truthy (rq_supplier data)) then
    (db, Thrown "Supplier is required for stock in")
  else
    let turns := validateLine (rq_type data) db <$> rq_products data in
    let validationErrors := lefts turns in
    let validProducts := rights turns in
    let totalValue :=
      if String.eqb (rq_type data) "stock_in"
      then sumZ ((λ p, vl_unitPrice p * vl_quantity p) <$> validProducts)
      else 0 in
    if negb (bool_decide (validationErrors = [])) then
      (db, Thrown ("Validation errors: " +:+ JS.join ", " validationErrors))
    else
      let '(db1, movementId) := getNextMovementId env db in
      let items := (λ p, (vl_productId p, vl_quantity p)) <$> validProducts in
      let '(db2, applied) :=
        if String.eqb (rq_type data) "stock_in"
        then ProductModel.addQuantitiesToProducts db1 items
        else ProductModel.removeQuantitiesFromProducts db1 items in
      match applied with
      | Thrown e => (db2, Thrown e)
      | Returned _ =>
          let movementData :=
            mkMovement (rq_type data) (orNull (rq_department data))
              (orNull (rq_supplier data)) (JS.trim (rq_stockManager data))
              (toDocLine <$> validProducts) totalValue
              (sumZ ((λ p, JS.parseIntNum (vl_quantity p)) <$> validProducts))
              (rq_notes data) (Some (now env)) (Some (now env)) in
          (* the document is saved last: [set] throws on a line without
             product name, after the counter and the ledger were written *)
          match nameless validProducts with
          | Some index =>
              (db2, Thrown (Firestore.undefinedValue
                              ("products.`" +:+ pretty index +:+ "`.productName")))
          | None =>
              (Firestore.setStockMovements db2
                 (<[movementId := movementData]> (stockMovements db2)),
               Returned (movementId, movementData,
                         if String.eqb (rq_type data) "stock_in"
                         then "Stock added successfully"
                         else "Stock distributed successfully"))
          end
      end.

(** [createStockMovement]: the [catch] turns whatever was thrown into a
    failure reply. *)
Definition createStockMovement (env : Env) (db : Db) (data : Request)
    : Db * Created :=
  match createBody env db data with
  | (db', Returned (id, movement, message)) => (db', Success id movement message)
  | (db', Thrown e) => (db', Failure e)
  end.

(** What [deleteMovement] resolves to: the reply of a deletion that went
    through, or a failure reply with its [code]. *)
Inductive Deletion : Type :=
| Deleted (message : string) (results : list ProductModel.Result)
| Refused (code message : string) (errors : list string).

Definition msPerHour : Z := 1000 * 60 * 60.

(** The double nearest to [p / q], for [p] and [q] positive, as the pair
    of its 53-bit mantissa [m] and its exponent [e]: the double is
    [m * 2^e]. *)
Definition nearestDouble (p q : Z) : Z * Z :=
  let k := Z.log2 p - Z.log2 q in
  let l := if (if 0 <=? k then q * 2 ^ k <=? p else q <=? p * 2 ^ (- k)) then k else k - 1 in
  let e := l - 52 in
  let a := if e <=? 0 then p * 2 ^ (- e) else p in
  let b := if e <=? 0 then q else q * 2 ^ e in
  let m := a / b in
  let r := a mod b in
  (if (b <? 2 * r) || ((2 * r =? b) && Z.odd m) then m + 1 else m, e).

(** [x.toFixed(2)] in hundredths, for the double [x = m * 2^e]: the whole
    number nearest to [100 * x], the larger one of two. *)
Definition hundredths (x : Z * Z) : Z :=
  let '(m, e) := x in
  if 0 <=? e then 100 * m * 2 ^ e
  else (200 * m + 2 ^ (- e)) / 2 ^ (1 - e).

(** [hoursDiff.toFixed(2)] for [hoursDiff = timeDiff / msPerHour], the
    quotient being the double nearest to it. *)
Definition hoursFixed2 (timeDiff : option Z) : string :=
  match timeDiff with
  | None => "NaN"
  | Some d =>
      let n := if d =? 0 then 0 else hundredths (nearestDouble (Z.abs d) msPerHour) in
      (if d <? 0 then "-" else "") +:+
      JS.num (n / 100) +:+ "." +:+ JS.padStart 2 (JS.num (n mod 100))
  end.

(** The time a movement is aged by.  The code takes [timestamp], and
    without it [new Date(createdAt)]; [createdAt] is a time stamp of the
    store, which [new Date] does not read, so that without [timestamp]
    the date is invalid, which is [None] here, and every comparison with
    it is false. *)
Definition movementTimestamp (m : Movement) : option Z := m_timestamp m.

(** [now - movementTimestamp], a whole number of milliseconds. *)
Definition timeDiff (env : Env) (m : Movement) : option Z :=
  (λ t, now env - t) <$> movementTimestamp m.

(** [hoursDiff > 24], with [hoursDiff = timeDiff / msPerHour]. *)
Definition tooOld (env : Env) (m : Movement) : bool :=
  match timeDiff env m with
  | Some d => 24 * msPerHour <? d
  | None => false
  end.

Definition describeFailure (op : ProductModel.Result) : string :=
  "Product " +:+ ProductModel.r_productId op +:+ ": " +:+
  default "undefined" (ProductModel.r_error op).

Definition deleteMovement (env : Env) (db : Db) (id : string) : Db * Deletion :=
  if negb (JS.truthy id) then
    (db, Refused "INTERNAL_ERROR" Firestore.invalidPath [Firestore.invalidPath])
  else
  match stockMovements db !! id with
  | None =>
      (db, Refused "MOVEMENT_NOT_FOUND" "Movement not found"
             ["Movement with ID " +:+ id +:+ " does not exist"])
  | Some movement =>
      if tooOld env movement then
        (db, Refused "MOVEMENT_TOO_OLD" "Cannot delete movement older than 24 hours"
               ["Movement was created " +:+
                  hoursFixed2 (timeDiff env movement) +:+
                  " hours ago";
                "Only movements from the last 24 hours can be deleted"])
      else
        let items := (λ p, (ml_productId p, ml_quantity p)) <$> m_products movement in
        let restoration :=
          if String.eqb (m_type movement) "stock_in"
          then Some (ProductModel.removeQuantitiesFromProducts db items)
          else if String.eqb (m_type movement) "distribution"
          then Some (ProductModel.addQuantitiesToProducts db items)
          else None in
        match restoration with
        | None =>
            let e := "Cannot read properties of undefined (reading 'filter')" in
            (db, Refused "INTERNAL_ERROR" e [e])
        | Some (db1, Thrown e) => (db1, Refused "INTERNAL_ERROR" e [e])
        | Some (db1, Returned stockRestorationResults) =>
            let failedOperations :=
              filter (λ r, ProductModel.r_success r = false) stockRestorationResults in
            if negb (bool_decide (failedOperations = [])) then
              (db1, Refused "STOCK_RESTORATION_FAILED"
                      "Failed to restore stock levels for some products"
                      (describeFailure <$> failedOperations))
            else
              (Firestore.setStockMovements db1 (delete id (stockMovements db1)),
               Deleted "Movement deleted successfully and stock levels restored"
                 stockRestorationResults)
        end
  end.

End MovementModel.

(** ** The invoice model (models/invoiceModel.js) *)
Module InvoiceModel.

Definition createInvoice (db : Db) (invoiceId : string) (data : Invoice)
    : Db * Outcome (string * Invoice) :=
  if negb (JS.truthy invoiceId) then (db, Thrown Firestore.invalidPath)
  else (Firestore.setInvoices db (<[invoiceId := data]> (invoices db)),
        Returned (invoiceId, data)).

(** [getAllInvoices], as the identifiers of the documents read. *)
Definition getAllInvoices (db : Db) : list string :=
  (map_to_list (invoices db)).*1.

Definition getInvoiceById (db : Db) (id : string) : Outcome Invoice :=
  if negb (JS.truthy id) then Thrown Firestore.invalidPath
  else match invoices db !! id with
       | Some doc => Returned doc
       | None => Thrown "Invoice not found"
       end.

Definition deleteInvoice (db : Db) (id : string) : Db * Outcome unit :=
  if negb (JS.truthy id) then (db, Thrown Firestore.invalidPath)
  else (Firestore.setInvoices db (delete id (invoices db)), Returned ()).

End InvoiceModel.

(** ** The invoice controller: [src/controllers/invoiceCon.js] *)
Module InvoiceCon.

(** *** generateInvoiceId *)

Definition isDigit (c : ascii) : bool :=
  let n := nat_of_ascii c in ((48 <=? n) && (n <=? 57))%nat.

(** The longest run of digits a string starts with ([\d+], greedy). *)
Fixpoint digitsOf (s : string) : string :=
  match s with
  | String c rest => if isDigit c then String c (digitsOf rest) else EmptyString
  | EmptyString => EmptyString
  end.

Definition sameLetter (c : ascii) (upper : ascii) : bool :=
  Ascii.eqb (JS.upper c) upper.

(** The pattern [(?:INV-|inv-)(\d+)] with the flag [i], tried at the
    start of [s]: the digits captured. *)
Definition matchHere (s : string) : option string :=
  match s with
  | String a (String b (String c (String d rest))) =>
      if sameLetter a "I" && sameLetter b "N" && sameLetter c "V" &&
         Ascii.eqb d "-"
      then match digitsOf rest with
           | EmptyString => None
           | ds => Some ds
           end
      else None
  | _ => None
  end.

(** [id.match(/(?:INV-|inv-)(\d+)/i)]: the capture of the leftmost match. *)
Fixpoint matchInvoiceNumber (s : string) : option string :=
  match matchHere s with
  | Some ds => Some ds
  | None =>
      match s with
      | String _ rest => matchInvoiceNumber rest
      | EmptyString => None
      end
  end.

(** [parseInt(digits, 10)] on a string of digits. *)
Fixpoint parseInt_go (acc : Z) (digits : string) : Z :=
  match digits with
  | String c rest => parseInt_go (10 * acc + Z.of_nat (nat_of_ascii c - 48)) rest
  | EmptyString => acc
  end.

Definition parseInt (digits : string) : Z := parseInt_go 0 digits.

(** One turn of the [forEach] that looks for the highest number. *)
Definition scan (highestNumber : Z) (id : string) : Z :=
  match matchInvoiceNumber id with
  | Some ds =>
      let currentNumber := parseInt ds in
      if highestNumber <? currentNumber then currentNumber else highestNumber
  | None => highestNumber
  end.

(** The number of the next invoice: [highestNumber + 1], or the number
    of invoices plus one when no identifier carries a number.  The code
    computes it on doubles, which agree with these sums while the
    numbers stay safe integers. *)
Definition nextCount (ids : list string) : Z :=
  match ids with
  | [] => 1
  | _ =>
      let highestNumber := foldl scan 0 ids in
      if 0 <? highestNumber then highestNumber + 1
      else Z.of_nat (length ids) + 1
  end.

(** [generateInvoiceId], given what [getAllInvoices] ended with: the
    identifiers read, or the error that sends it to the time stamp. *)
Definition generateInvoiceId (env : Env) (read : Outcome (list string)) : string :=
  match read with
  | Returned ids => "INV-" +:+ JS.padStart 3 (JS.num (nextCount ids))
  | Thrown _ => "INV-" +:+ MovementModel.toString36 (now env)
  end.

(** *** Requests *)

Record LineRequest := mkLineRequest {
  lr_productId : string;
  lr_name : string;
  lr_quantity : Z;
  lr_unitPrice : option Z;
  lr_price : option Z
}.

Record CreateRequest := mkCreateRequest {
  cr_clientId : string;
  cr_clientName : string;
  cr_products : list LineRequest;
  cr_remise : option Z;
  cr_advance : option Z
}.

Record UpdateRequest := mkUpdateRequest {
  ur_products : option (list LineRequest);
  ur_remise : option Z;
  ur_advance : option Z
}.

Definition sumZ (l : list Z) : Z := foldr Z.add 0 l.

Definition dq : string := MovementModel.dq.

(** The [catch] of the controller functions: rethrow under a prefix. *)
Definition rethrow {A} (prefix : string) (r : Db * Outcome A) : Db * Outcome A :=
  match r with
  | (db, Thrown e) => (db, Thrown (prefix +:+ e))
  | _ => r
  end.

(** The on-hand count as the invoice flows read it: [q || quantity || 0]. *)
Definition stockOf (product : Product) : Z :=
  JS.orNum (p_q product) (JS.orNum (p_quantity product) 0).

(** *** createInvoice *)

Definition validateLine (index : nat) (product : LineRequest) : list string :=
  let n := "Product " +:+ pretty (index + 1)%nat in
  (if JS.truthy (lr_productId product) then [] else [n +:+ ": productId is required"]) ++
  (if JS.truthy (lr_name product) then [] else [n +:+ ": name is required"]) ++
  (if lr_quantity product <=? 0 then [n +:+ ": valid quantity is required"] else []) ++
  (match lr_unitPrice product with
   | Some x => if x <? 0 then [n +:+ ": valid unitPrice is required"] else []
   | None => [n +:+ ": valid unitPrice is required"]
   end).

(** [validateInvoiceData]: the messages collected; it throws when there
    is one. *)
Definition validateInvoiceData (data : CreateRequest) : list string :=
  (if JS.truthy (cr_clientId data) then [] else ["Client ID is required"]) ++
  (if JS.truthy (cr_clientName data) then [] else ["Client name is required"]) ++
  (match cr_products data with
   | [] => ["Products array is required"]
   | ps => concat (imap validateLine ps)
   end).

Definition createInvoice (env : Env) (db : Db) (data : CreateRequest)
    : Db * Outcome (string * Invoice) :=
  rethrow "Failed to create invoice: "
    match validateInvoiceData data with
    | _ :: _ as errors => (db, Thrown ("Validation failed: " +:+ JS.join ", " errors))
    | [] =>
        if negb (bool_decide (cr_clientId data ∈ clients db)) then
          (db, Thrown ("Client " +:+ cr_clientId data +:+ " not found"))
        else
          let productsWithTotals :=
            (λ product,
               let unitPrice := default 0 (lr_unitPrice product) in
               mkInvoiceLine (lr_productId product) (lr_name product)
                 (lr_quantity product) unitPrice (unitPrice * lr_quantity product))
            <$> cr_products data in
          let total := sumZ (il_total <$> productsWithTotals) in
          let remise := JS.orNum (cr_remise data) 0 in
          let advance := JS.orNum (cr_advance data) 0 in
          let totalAfterDiscount := total - remise in
          let rest := totalAfterDiscount - advance in
          let invoiceId :=
            generateInvoiceId env (Returned (InvoiceModel.getAllInvoices db)) in
          let invoiceData :=
            mkInvoice (cr_clientId data) (cr_clientName data) productsWithTotals
              remise advance total totalAfterDiscount rest "pending" None in
          InvoiceModel.createInvoice db invoiceId invoiceData
    end.

(** *** createConfirmedInvoice *)

(** What is sent with [res.status(..).json(..)]. *)
Record Response := mkResponse {
  rs_status : Z;
  rs_success : bool;
  rs_message : string;
  rs_errors : list string;
  rs_data : list (string * Invoice)
}.

Definition expired (env : Env) (product : Product) : bool :=
  match p_expiryDate product with
  | Some e => negb (e =? 0) && (e <? now env)
  | None => false
  end.

(** One turn of the validation loop of [createConfirmedInvoice]: the
    product pushed on [productsWithDetails], if found, and the messages
    pushed on [validationErrors]. *)
Definition checkItem (env : Env) (db : Db) (item : LineRequest)
    : option Product * list string :=
  match products db !! lr_productId item with
  | None =>
      (None,
       ["Product " +:+ dq +:+
        (if JS.truthy (lr_name item) then lr_name item else lr_productId item) +:+
        dq +:+ " not found"])
  | Some product =>
      let currentStock := stockOf product in
      let productPrice := JS.orNum (p_price product) (JS.orNum (p_unitPrice product) 0) in
      (Some product,
       (if currentStock <? lr_quantity item then
          ["Insufficient stock for " +:+ lr_name item +:+ ". Available: " +:+
           JS.num currentStock +:+ ", Requested: " +:+ JS.num (lr_quantity item)]
        else []) ++
       (if expired env product then
          ["Product " +:+ dq +:+ lr_name item +:+ dq +:+ " has expired (Expiry: " +:+
           JS.num (default 0 (p_expiryDate product)) +:+ ")"]
        else []) ++
       (if productPrice <=? 0 then
          ["Product " +:+ dq +:+ lr_name item +:+ dq +:+ " has invalid price: $" +:+
           JS.num productPrice]
        else []))
  end.

(** A line of the new invoice with the price of the product read for it. *)
Definition pricedLine (turn : LineRequest * Product) : InvoiceLine :=
  let '(product, productDetail) := turn in
  let productPrice :=
    JS.orNum (p_price productDetail)
      (JS.orNum (p_unitPrice productDetail) (JS.orNum (lr_unitPrice product) 0)) in
  mkInvoiceLine (lr_productId product) (lr_name product) (lr_quantity product)
    productPrice (productPrice * lr_quantity product).

(** The stock write staged for a line. *)
Definition debit (turn : LineRequest * Product) : Write :=
  let '(item, productDetail) := turn in
  UpdateProduct (lr_productId item)
    (mkProductPatch (Some (stockOf productDetail - lr_quantity item)) None).

Definition payStatus (rest : Z) : string :=
  if rest =? 0 then "paid" else "not paid".

Definition createConfirmedInvoice (env : Env) (db : Db) (invoiceData : CreateRequest)
    : Db * Response :=
  if negb (JS.truthy (cr_clientId invoiceData)) || bool_decide (cr_products invoiceData = []) then
    (db, mkResponse 400 false "Client ID and products are required" [] [])
  else if negb (bool_decide (cr_clientId invoiceData ∈ clients db)) then
    (db, mkResponse 400 false ("Client " +:+ cr_clientId invoiceData +:+ " not found") [] [])
  else if existsb (λ item, negb (JS.truthy (lr_productId item))) (cr_products invoiceData) then
    (db, mkResponse 500 false Firestore.invalidPath [] [])
  else
    let turns := checkItem env db <$> cr_products invoiceData in
    let validationErrors := concat (snd <$> turns) in
    let productsWithDetails := omap fst turns in
    if negb (bool_decide (validationErrors = [])) then
      (db, mkResponse 400 false "Product validation failed" validationErrors [])
    else if negb (JS.truthy (cr_clientName invoiceData)) then
      (* [batch.set] throws on the [clientName] that is [undefined] *)
      (db, mkResponse 500 false (Firestore.undefinedValue "clientName") [] [])
    else if existsb (λ item, negb (JS.truthy (lr_name item))) (cr_products invoiceData) then
      (* and on the [name] of a line that is [undefined] *)
      (db, mkResponse 500 false
             (Firestore.undefinedValue
                ("products.`" +:+
                 pretty (default 0%nat
                           (fst <$> list_find (λ item, lr_name item = "")
                                      (cr_products invoiceData))) +:+
                 "`.name")) [] [])
    else
      let invoiceId :=
        generateInvoiceId env (Returned (InvoiceModel.getAllInvoices db)) in
      (* every product was found, so the two arrays have the same length *)
      let paired := zip (cr_products invoiceData) productsWithDetails in
      let productsWithTotals := pricedLine <$> paired in
      let total := sumZ (il_total <$> productsWithTotals) in
      let remise := JS.orNum (cr_remise invoiceData) 0 in
      let advance := JS.orNum (cr_advance invoiceData) 0 in
      let totalAfterDiscount := total - remise in
      let rest := totalAfterDiscount - advance in
      let status := payStatus rest in
      let confirmedInvoice :=
        mkInvoice (cr_clientId invoiceData) (cr_clientName invoiceData)
          productsWithTotals remise advance total totalAfterDiscount rest
          status (Some (rest =? 0)) in
      let batch := (debit <$> paired) ++ [SetInvoice invoiceId confirmedInvoice] in
      match Firestore.commit db batch with
      | Some db' =>
          (db', mkResponse 201 true
                  ("Invoice created successfully with status: " +:+ status) []
                  [(invoiceId, confirmedInvoice)])
      | None => (db, mkResponse 500 false Firestore.commitFailed [] [])
      end.

(** *** updateInvoice *)

(** The document a query returns first: the store orders the documents
    by identifier, so it is the one with the smallest identifier. *)
Definition firstDoc (docs : list (string * Product)) : option (string * Product) :=
  foldr (λ doc best,
           match best with
           | Some doc' => if String.ltb doc.1 doc'.1 then Some doc else Some doc'
           | None => Some doc
           end) None docs.

(** [where('name', '==', name).limit(1)]: the first product of that
    name, if there is one. *)
Definition findByName (db : Db) (name : string) : option (string * Product) :=
  firstDoc (filter (λ kv, p_name kv.2 = name) (map_to_list (products db))).

(** The entry pushed on [stockUpdates]. *)
Record StockUpdate := mkStockUpdate {
  su_productId : string;
  su_productName : string;
  su_currentStock : Z;
  su_quantityDifference : Z;
  su_newStock : Z
}.

(** What one turn of the product loop of [updateInvoice] pushes on
    [validationErrors], [productsWithTotals] and [stockUpdates]. *)
Record Turn := mkTurn {
  t_errors : list string;
  t_line : option InvoiceLine;
  t_stock : option StockUpdate
}.

Definition rejected (message : string) : Turn := mkTurn [message] None None.

(** The product a new line names: by identifier when it has one, by
    name otherwise. *)
Definition resolve (db : Db) (newProduct : LineRequest)
    : string + (string * Product) :=
  if JS.truthy (lr_productId newProduct) then
    match products db !! lr_productId newProduct with
    | Some productData => inr (lr_productId newProduct, productData)
    | None => inl ("Product " +:+ dq +:+ lr_name newProduct +:+ dq +:+ " not found")
    end
  else
    match findByName db (lr_name newProduct) with
    | Some found => inr found
    | None =>
        inl ("Product " +:+ dq +:+ lr_name newProduct +:+ dq +:+ " not found in database")
    end.

(** [q || quantity || currentStock || 0]. *)
Definition stockForUpdate (productData : Product) : Z :=
  JS.orNum (p_q productData)
    (JS.orNum (p_quantity productData) (JS.orNum (p_currentStock productData) 0)).

(** The line of the stored invoice a new line is compared with. *)
Definition originalProduct (currentInvoice : Invoice) (productId name : string)
    : option InvoiceLine :=
  List.find (λ p, String.eqb (il_productId p) productId || String.eqb (il_name p) name)
    (i_products currentInvoice).

Definition originalQuantity (currentInvoice : Invoice) (productId name : string) : Z :=
  match originalProduct currentInvoice productId name with
  | Some p => il_quantity p
  | None => 0
  end.

Definition updateLine (db : Db) (currentInvoice : Invoice) (newProduct : LineRequest)
    : Turn :=
  if negb (JS.truthy (lr_name newProduct)) then rejected "Product name is required"
  else
    match resolve db newProduct with
    | inl message => rejected message
    | inr (productId, productData) =>
        let currentStock := stockForUpdate productData in
        let quantityDifference :=
          lr_quantity newProduct -
          originalQuantity currentInvoice productId (lr_name newProduct) in
        if (0 <? quantityDifference) && (currentStock <? quantityDifference) then
          rejected ("Insufficient stock for " +:+ lr_name newProduct +:+
                    ". Available: " +:+ JS.num currentStock +:+
                    ", Needed additional: " +:+ JS.num quantityDifference)
        else
          let productPrice :=
            JS.orNum (lr_unitPrice newProduct)
              (JS.orNum (lr_price newProduct) (JS.orNum (p_price productData) 0)) in
          mkTurn
            (if productPrice <=? 0 then
               ["Product " +:+ dq +:+ lr_name newProduct +:+ dq +:+
                " has invalid price: $" +:+ JS.num productPrice]
             else [])
            (Some (mkInvoiceLine productId (lr_name newProduct) (lr_quantity newProduct)
                     productPrice (productPrice * lr_quantity newProduct)))
            (if quantityDifference =? 0 then None
             else Some (mkStockUpdate productId (lr_name newProduct) currentStock
                          quantityDifference (currentStock - quantityDifference)))
    end.

(** The part of [updateInvoice] run when the request carries products:
    the new total, the new lines and the stock updates, unless it throws. *)
Definition updateProducts (db : Db) (currentInvoice : Invoice)
    (requested : option (list LineRequest))
    : Outcome (Z * list InvoiceLine * list StockUpdate) :=
  match requested with
  | None => Returned (i_total currentInvoice, i_products currentInvoice, [])
  | Some newProducts =>
      if bool_decide (newProducts = []) then Thrown "Products array cannot be empty"
      else
        let turns := updateLine db currentInvoice <$> newProducts in
        let validationErrors := concat (t_errors <$> turns) in
        let productsWithTotals := omap t_line turns in
        if negb (bool_decide (validationErrors = [])) then
          Thrown ("Product validation failed: " +:+ JS.join "; " validationErrors)
        else
          Returned (sumZ (il_total <$> productsWithTotals), productsWithTotals,
                    omap t_stock turns)
  end.

(** The write staged for an entry of [stockUpdates]: the field [q] is set
    to the stock computed for it. *)
Definition stockWrite (update : StockUpdate) : Write :=
  UpdateProduct (su_productId update) (mkProductPatch (Some (su_newStock update)) None).

Definition invoicePatch (data : UpdateRequest) (currentInvoice : Invoice)
    (total : Z) (productsWithTotals : list InvoiceLine) : InvoicePatch :=
  let remise := JS.nullish (ur_remise data) (i_remise currentInvoice) in
  let advance := JS.nullish (ur_advance data) (i_advance currentInvoice) in
  let totalAfterDiscount := total - remise in
  let rest := Z.max 0 (totalAfterDiscount - advance) in
  mkInvoicePatch (Some productsWithTotals) (Some total) (Some totalAfterDiscount)
    (Some rest) (Some (payStatus rest)) (Some (rest =? 0))
    (if ur_remise data is Some _ then Some remise else None)
    (if ur_advance data is Some _ then Some advance else None).

(** The batch [updateInvoice] commits: the stock writes, then the update
    of the invoice. *)
Definition updateBatch (invoiceId : string) (data : UpdateRequest)
    (currentInvoice : Invoice) (total : Z) (productsWithTotals : list InvoiceLine)
    (stockUpdates : list StockUpdate) : list Write :=
  (stockWrite <$> stockUpdates) ++
  [UpdateInvoice invoiceId (invoicePatch data currentInvoice total productsWithTotals)].

(** What [updateInvoice] returns: the identifier and the number of stock
    updates. *)
Definition updateInvoice (db : Db) (id : string) (data : UpdateRequest)
    : Db * Outcome (string * nat) :=
  rethrow "Failed to update invoice: "
    (if negb (JS.truthy id) then (db, Thrown "Invoice ID is required")
     else
       let invoiceId := JS.trim (JS.toUpperCase id) in
       if negb (JS.truthy invoiceId) then (db, Thrown Firestore.invalidPath)
       else
         match invoices db !! invoiceId with
         | None => (db, Thrown ("Invoice " +:+ invoiceId +:+ " not found"))
         | Some currentInvoice =>
             match updateProducts db currentInvoice (ur_products data) with
             | Thrown e => (db, Thrown e)
             | Returned (total, productsWithTotals, stockUpdates) =>
                 let batch :=
                   updateBatch invoiceId data currentInvoice total productsWithTotals
                     stockUpdates in
                 match Firestore.commit db batch with
                 | Some db' => (db', Returned (invoiceId, length stockUpdates))
                 | None => (db, Thrown Firestore.commitFailed)
                 end
             end
         end).

(** *** confirmInvoice *)

(** The first loop of [confirmInvoice]: the error thrown at the first
    line whose product is missing or short, if any. *)
Fixpoint checkStock (db : Db) (items : list InvoiceLine) : option string :=
  match items with
  | [] => None
  | item :: rest =>
      if negb (JS.truthy (il_productId item)) then Some Firestore.invalidPath
      else
        match products db !! il_productId item with
        | None => Some ("Product " +:+ il_productId item +:+ " not found")
        | Some product =>
            let currentStock := stockOf product in
            if currentStock <? il_quantity item then
              Some ("Insufficient stock for " +:+ il_name item +:+ ". Available: " +:+
                    JS.num currentStock +:+ ", Needed: " +:+ JS.num (il_quantity item))
            else checkStock db rest
        end
  end.

(** One turn of the second loop: the product is read again and the write
    of [q] staged. *)
Definition stageDebit (db : Db) (item : InvoiceLine) : option Write :=
  product ← products db !! il_productId item;
  Some (UpdateProduct (il_productId item)
          (mkProductPatch (Some (stockOf product - il_quantity item)) None)).

Definition confirmedPatch : InvoicePatch :=
  mkInvoicePatch None None None None (Some "confirmed") None None None.

Definition confirmInvoice (db : Db) (id : string) : Db * Outcome string :=
  rethrow "Failed to confirm invoice: "
    (if negb (JS.truthy id) then (db, Thrown "Invoice ID is required")
     else
       match InvoiceModel.getInvoiceById db id with
       | Thrown e => (db, Thrown e)
       | Returned invoice =>
           if String.eqb (i_status invoice) "confirmed" then
             (db, Thrown "Invoice already confirmed")
           else
             match checkStock db (i_products invoice) with
             | Some e => (db, Thrown e)
             | None =>
                 match mapM (stageDebit db) (i_products invoice) with
                 | None =>
                     (db, Thrown "Cannot read properties of undefined (reading 'q')")
                 | Some debits =>
                     match Firestore.commit db (debits ++ [UpdateInvoice id confirmedPatch]) with
                     | Some db' => (db', Returned id)
                     | None => (db, Thrown Firestore.commitFailed)
                     end
                 end
             end
       end).

(** *** deleteInvoice *)

(** The condition under which [deleteInvoice] stages stock writes. *)
Definition restoresStock (invoice : Invoice) : bool :=
  String.eqb (i_status invoice) "confirmed".

(** The loop that stages the restoration: a write of [q] for every line
    whose product exists. *)
Fixpoint stageRestoration (db : Db) (items : list InvoiceLine) : Outcome (list Write) :=
  match items with
  | [] => Returned []
  | item :: rest =>
      if negb (JS.truthy (il_productId item)) then Thrown Firestore.invalidPath
      else
        match stageRestoration db rest with
        | Thrown e => Thrown e
        | Returned writes =>
            match products db !! il_productId item with
            | Some product =>
                Returned (UpdateProduct (il_productId item)
                            (mkProductPatch (Some (stockOf product + il_quantity item)) None)
                          :: writes)
            | None => Returned writes
            end
        end
  end.

(** The batch as it stands when [deleteInvoice] reaches the deletion. *)
Definition restorationBatch (db : Db) (invoice : Invoice) : Outcome (list Write) :=
  if restoresStock invoice then stageRestoration db (i_products invoice)
  else Returned [].

(** [deleteInvoice]: the batch is filled but [batch.commit()] is never
    called on it; the invoice is deleted through the model. *)
Definition deleteInvoice (db : Db) (id : string) : Db * Outcome string :=
  rethrow "Failed to delete invoice: "
    (if negb (JS.truthy id) then (db, Thrown "Invoice ID is required")
     else
       match InvoiceModel.getInvoiceById db id with
       | Thrown e => (db, Thrown e)
       | Returned invoice =>
           match restorationBatch db invoice with
           | Thrown e => (db, Thrown e)
           | Returned _ =>
               match InvoiceModel.deleteInvoice db id with
               | (db', Returned _) => (db', Returned id)
               | (db', Thrown e) => (db', Thrown e)
               end
           end
       end).

End InvoiceCon.

(** ** The product documents: [src/models/productModel.js] *)
Module ProductDocs.



Definition dq : string := MovementModel.dq.


Definition getProductById (db : Db) (id : string) : Outcome Product :=
  if negb (JS.truthy id) then Thrown Firestore.invalidPath
  else match products db !! id with
       | Some doc => Returned doc
       | None => Thrown "Product not found"
       end.

(** What [updateProduct] reads of [updateData], on the fields the store
    keeps: [None] is [undefined]. *)
Record ProductUpdate := mkProductUpdate {
  pu_name : option string;
  pu_categories : option (list string)
}.

(** [updates.name]: the trimmed name when it is truthy, the value given
    otherwise. *)
Definition newName (updateData : ProductUpdate) : option string :=
  (λ name, if JS.truthy name then JS.trim name else name) <$> pu_name updateData.

Definition rename (name : option string) (p : Product) : Product :=
  mkProduct (default (p_name p) name) (p_q p) (p_quantity p) (p_currentStock p)
    (p_price p) (p_unitPrice p) (p_expiryDate p).

(** The product of the same name found by the duplicate check, which is
    run only for a truthy name. *)
Definition duplicate (db : Db) (productId : string) (updateData : ProductUpdate)
    : option (string * Product) :=
  let name := default "" (pu_name updateData) in
  if JS.truthy name then
    head (filter (λ kv, p_name kv.2 = JS.trim name ∧ kv.1 ≠ productId)
            (map_to_list (products db)))
  else None.

Definition updateProduct (db : Db) (productId : string) (updateData : ProductUpdate)
    : Db * Outcome unit :=
  if negb (JS.truthy productId) then (db, Thrown Firestore.invalidPath)
  else
    match products db !! productId with
    | None => (db, Thrown "Product not found")
    | Some _ =>
        if bool_decide (pu_categories updateData = Some []) then
          (db, Thrown "Categories must be a non-empty array")
        else
          match duplicate db productId updateData with
          | Some _ =>
              (db, Thrown ("Product name " +:+ dq +:+ default "" (pu_name updateData) +:+
                           dq +:+ " is already in use"))
          | None =>
              (Firestore.setProducts db
                 (alter (rename (newName updateData)) productId (products db)),
               Returned ())
          end
    end.

Definition deleteProduct (db : Db) (id : string) : Db * Outcome unit :=
  if negb (JS.truthy id) then (db, Thrown Firestore.invalidPath)
  else (Firestore.setProducts db (delete id (products db)), Returned ()).

End ProductDocs.

(** ** The product controller (controllers/productCon.js) *)
Module ProductCon.

(** What is sent: the status, and the results when the ledger was run. *)
Record Reply := mkReply {
  rp_status : Z;
  rp_message : string;
  rp_results : option (list ProductModel.Result)
}.

(** The first item the validation loop of [addProductQuantities] turns
    down, with the message sent for it. *)
Fixpoint firstInvalid (products : list (string * option Z)) : option string :=
  match products with
  | [] => None
  | (productId, quantityToAdd) :: rest =>
      match quantityToAdd with
      | None => Some "Each product must have productId and quantityToAdd"
      | Some quantity =>
          if negb (JS.truthy productId) then
            Some "Each product must have productId and quantityToAdd"
          else if quantity <? 0 then Some "quantityToAdd cannot be negative"
          else firstInvalid rest
      end
  end.

Definition addProductQuantities (db : Db) (products : list (string * option Z))
    : Db * Reply :=
  if bool_decide (products = []) then
    (db, mkReply 400 "Products array is required and cannot be empty" None)
  else
    match firstInvalid products with
    | Some message => (db, mkReply 400 message None)
    | None =>
        match ProductModel.addQuantitiesToProducts db
                ((λ p, (p.1, default 0 p.2)) <$> products) with
        | (db', Returned results) =>
            (db', mkReply 200
                    ("Successfully updated quantities for " +:+
                     pretty (length results) +:+ " products")
                    (Some results))
        | (db', Thrown e) => (db', mkReply 500 e None)
        end
    end.

(** [removeProductQuantities]: the array must not be empty; its items
    are not looked at. *)
Definition removeProductQuantities (db : Db) (products : list (string * Z))
    : Db * Reply :=
  if bool_decide (products = []) then
    (db, mkReply 400 "Products array is required and cannot be empty" None)
  else
    match ProductModel.removeQuantitiesFromProducts db products with
    | (db', Returned results) =>
        (db', mkReply 200 ("Processed " +:+ pretty (length results) +:+ " products")
                (Some results))
    | (db', Thrown e) => (db', mkReply 500 "Failed to remove quantities" None)
    end.

End ProductCon.

(** ** Whether a movement can be deleted: [src/models/movementModel.js] *)
Module MovementCheck.

(** What [checkMovementDeletable] resolves to: the flags [canDelete] and
    [isExpired] of [data], or the failure reply.  The formatted times of
    [data] are left out. *)
Inductive Deletable : Type :=
| Checked (canDelete isExpired : bool)
| Unchecked (message : string) (errors : list string).

(** [movementTimestamp.toISOString()] throws on an invalid date. *)
Definition invalidTime : string := "Invalid time value".

Definition checkMovementDeletable (env : Env) (db : Db) (id : string) : Deletable :=
  if negb (JS.truthy id) then Unchecked Firestore.invalidPath [Firestore.invalidPath]
  else
    match stockMovements db !! id with
    | None =>
        Unchecked "Movement not found" ["Movement with ID " +:+ id +:+ " does not exist"]
    | Some movement =>
        match MovementModel.timeDiff env movement with
        | None => Unchecked invalidTime [invalidTime]
        | Some timeDiff =>
            let canDelete := timeDiff <=? 24 * MovementModel.msPerHour in
            Checked canDelete (negb canDelete)
        end
    end.

End MovementCheck.

(** ** The stock movement controller (controllers/stockMovementController.js) *)
Module MovementCon.

(** A line of the request body; [None] is a quantity that is [null] or
    [undefined]. *)
Record LineRequest := mkLineRequest {
  lr_productId : string;
  lr_productName : string;
  lr_quantity : option Z;
  lr_unit : string;
  lr_price : option Z
}.

(** The request body; [None] is a body without [products]. *)
Record Request := mkRequest {
  rq_type : string;
  rq_stockManager : string;
  rq_products : option (list LineRequest);
  rq_department : string;
  rq_supplier : string;
  rq_notes : string
}.

Definition validMovementTypes : list string := ["stock_in"; "distribution"].

(** One turn of the [forEach] of [validateMovementData]: the message it
    throws, if it does. *)
Definition validateLine (index : nat) (product : LineRequest) : option string :=
  let n := "Product " +:+ pretty (index + 1)%nat in
  match lr_quantity product with
  | Some quantity =>
      if negb (JS.truthy (lr_productId product)) ||
         negb (JS.truthy (lr_productName product)) ||
         negb (JS.truthy (lr_unit product)) then
        Some (n +:+ " is missing required fields: productId, productName, quantity, or unit")
      else if quantity <=? 0 then Some (n +:+ " quantity must be a positive number")
      else None
  | None =>
      Some (n +:+ " is missing required fields: productId, productName, quantity, or unit")
  end.

(** [validateMovementData]: the message of the error thrown, if any. *)
Definition validateMovementData (data : Request) : option string :=
  let missingFields :=
    (if JS.truthy (rq_type data) then [] else ["type"]) ++
    (if JS.truthy (rq_stockManager data) then [] else ["stockManager"]) ++
    (if rq_products data is Some _ then [] else ["products"]) in
  let products := default [] (rq_products data) in
  if negb (bool_decide (missingFields = [])) then
    Some ("Missing required fields: " +:+ JS.join ", " missingFields)
  else if bool_decide (products = []) then Some "Products must be a non-empty array"
  else if String.eqb (JS.trim (rq_stockManager data)) "" then
    Some "Stock manager name is required"
  else if negb (bool_decide (rq_type data ∈ validMovementTypes)) then
    Some ("Invalid movement type. Must be one of: " +:+ JS.join ", " validMovementTypes)
  else if String.eqb (rq_type data) "distribution" && negb (JS.truthy (rq_department data)) then
    Some "Department is required for distribution movements"
  else head (omap id (imap validateLine products)).

(** The body as [movementModel.createStockMovement] reads it. *)
Definition toModel (data : Request) : MovementModel.Request :=
  MovementModel.mkRequest (rq_type data)
    ((λ p, MovementModel.mkLineRequest (lr_productId p) (default 0 (lr_quantity p))
             (lr_price p)) <$> default [] (rq_products data))
    (rq_stockManager data) (rq_department data) (rq_supplier data) (rq_notes data).

(** What is sent with [res.status(..).json(..)]; a field that is
    [undefined] is [None]. *)
Record Response := mkResponse {
  rs_status : Z;
  rs_success : bool;
  rs_message : string;
  rs_data : option Movement;
  rs_movementId : option string
}.

Definition statusCode (message : string) : Z :=
  if JS.includes "validation" message || JS.includes "Missing" message ||
     JS.includes "Invalid" message
  then 400 else 500.

Definition createStockMovement (env : Env) (db : Db) (movementData : Request)
    : Db * Response :=
  match validateMovementData movementData with
  | Some message => (db, mkResponse (statusCode message) false message None None)
  | None =>
      match MovementModel.createStockMovement env db (toModel movementData) with
      | (db', MovementModel.Success id data message) =>
          (db', mkResponse 201 true message (Some data) (Some id))
      | (db', MovementModel.Failure message) =>
          (db', mkResponse 201 true message None None)
      end
  end.

(** What [deleteMovementController] sends. *)
Record DeleteResponse := mkDeleteResponse {
  dr_status : Z;
  dr_success : bool;
  dr_message : string;
  dr_code : option string;
  dr_errors : list string;
  dr_data : option (list ProductModel.Result)
}.

Definition deleteMovementController (env : Env) (db : Db) (id : string)
    : Db * DeleteResponse :=
  if negb (JS.truthy id) then
    (db, mkDeleteResponse 400 false "Valid movement ID is required" None
           ["Movement ID is missing or invalid"] None)
  else
    match MovementModel.deleteMovement env db id with
    | (db', MovementModel.Deleted message results) =>
        (db', mkDeleteResponse 200 true message None [] (Some results))
    | (db', MovementModel.Refused code message errors) =>
        (db',
         mkDeleteResponse
           (if String.eqb code "MOVEMENT_TOO_OLD" then 400
            else if String.eqb code "MOVEMENT_NOT_FOUND" then 404
            else if String.eqb code "STOCK_RESTORATION_FAILED" then 409
            else 500)
           false message (Some code) errors None)
    end.

End MovementCon.

(** ** Payment status and statistics: [src/controllers/invoiceCon.js] *)
Module InvoiceAdmin.

Definition validStatuses : list string := ["not paid"; "paid"].

(** [updateData]: the fields [updateInvoiceStatus] writes. *)
Definition statusPatch (status : string) (invoiceData : Invoice) : InvoicePatch :=
  if String.eqb status "paid" then
    mkInvoicePatch None None None (Some 0) (Some status) (Some true) None None
  else
    let total := JS.orNum (Some (i_total invoiceData)) 0 in
    let advance := JS.orNum (Some (i_advance invoiceData)) 0 in
    let remise := JS.orNum (Some (i_remise invoiceData)) 0 in
    let totalAfterDiscount := total - remise in
    let calculatedRest := totalAfterDiscount - advance in
    mkInvoicePatch None None None (Some (Z.max 0 calculatedRest)) (Some status)
      (Some false) None None.

(** The [data] of the reply. *)
Record StatusData := mkStatusData {
  sd_invoiceId : string;
  sd_status : string;
  sd_rest : Z;
  sd_paid : bool
}.

Record StatusResponse := mkStatusResponse {
  sr_status : Z;
  sr_success : bool;
  sr_message : string;
  sr_data : option StatusData
}.

Definition updateInvoiceStatus (db : Db) (id status : string) : Db * StatusResponse :=
  if negb (bool_decide (status ∈ validStatuses)) then
    (db, mkStatusResponse 400 false
           ("Invalid status. Must be: " +:+ JS.join ", " validStatuses) None)
  else if negb (JS.truthy id) then
    (db, mkStatusResponse 500 false Firestore.invalidPath None)
  else
    match invoices db !! id with
    | None => (db, mkStatusResponse 404 false ("Invoice " +:+ id +:+ " not found") None)
    | Some invoiceData =>
        let updateData := statusPatch status invoiceData in
        (Firestore.applyWrite db (UpdateInvoice id updateData),
         mkStatusResponse 200 true
           ("Invoice status updated to " +:+ status +:+
            (if String.eqb status "paid" then " and amount due set to $0" else ""))
           (Some (mkStatusData id status (default 0 (ip_rest updateData))
                    (default false (ip_paid updateData)))))
    end.

Record Stats := mkStats {
  st_total : Z;
  st_pending : Z;
  st_confirmed : Z;
  st_totalRevenue : Z
}.

(** The statistics of a list of invoices, as [getInvoiceStats] computes
    them from what [getAllInvoices] resolved to. *)
Definition statsOf (invoices : list Invoice) : Stats :=
  let pendingInvoices := filter (λ inv, i_status inv = "pending") invoices in
  let confirmedInvoices := filter (λ inv, i_status inv = "confirmed") invoices in
  let totalRevenue :=
    foldl (λ sum invoice,
             if String.eqb (i_status invoice) "confirmed"
             then sum + JS.orNum (Some (i_total invoice)) 0
             else sum) 0 invoices in
  mkStats (Z.of_nat (length invoices)) (Z.of_nat (length pendingInvoices))
    (Z.of_nat (length confirmedInvoices)) totalRevenue.

Definition getInvoiceStats (db : Db) : Stats :=
  statsOf (map_to_list (invoices db)).*2.

End InvoiceAdmin.

(** ** The route of the stock movements: [src/routes/movementRoutes.js] *)
Module MovementRoutes.

(** One turn of the loop of [validateMovementCreation]: the message sent
    with status 400, if the line is turned down. *)
Definition checkLine (product : MovementCon.LineRequest) : option string :=
  match MovementCon.lr_quantity product with
  | Some quantity =>
      if negb (JS.truthy (MovementCon.lr_productId product)) ||
         negb (JS.truthy (MovementCon.lr_productName product)) ||
         (quantity =? 0) ||
         negb (JS.truthy (MovementCon.lr_unit product)) then
        Some "Each product must have productId, productName, quantity, and unit"
      else if quantity <=? 0 then Some "Product quantity must be a positive number"
      else None
  | None => Some "Each product must have productId, productName, quantity, and unit"
  end.

(** The middleware [validateMovementCreation]: the message it sends with
    status 400, or [None] when it calls [next()]. *)
Definition validateMovementCreation (body : MovementCon.Request) : option string :=
  let products := default [] (MovementCon.rq_products body) in
  if negb (JS.truthy (MovementCon.rq_type body)) ||
     negb (JS.truthy (MovementCon.rq_stockManager body)) ||
     bool_decide (products = []) then
    Some "Missing required fields: type, stockManager, products"
  else if String.eqb (MovementCon.rq_type body) "distribution" &&
          negb (JS.truthy (MovementCon.rq_department body)) then
    Some "Department is required for distribution movements"
  else head (omap checkLine products).

(** [router.post('/', validateMovementCreation, createStockMovement)]. *)
Definition post (env : Env) (db : Db) (body : MovementCon.Request)
    : Db * MovementCon.Response :=
  match validateMovementCreation body with
  | Some message => (db, MovementCon.mkResponse 400 false message None None)
  | None => MovementCon.createStockMovement env db body
  end.

End MovementRoutes.

(** ** The client controller (controllers/clientCon.js) *)
Module ClientCon.

Definition setClients (db : Db) (cs : gset string) : Db :=
  mkDb (products db) (invoices db) (stockMovements db) cs (counters db).

(** [generateClientId], given what reading the collection ended with:
    the number of clients, or the error that sends it to the time
    stamp. *)
Definition generateClientId (env : Env) (read : Outcome nat) : string :=
  match read with
  | Returned existingCount =>
      let nextCount := Z.of_nat existingCount + 1 in
      "cli-" +:+ JS.padStart 3 (JS.num nextCount)
  | Thrown _ => "cli-" +:+ MovementModel.toString36 (now env)
  end.

(** [createClient], on the name of the client; the other fields of the
    document are not kept by the store of this development. *)
Definition createClient (env : Env) (db : Db) (name : string) : Db * Outcome string :=
  InvoiceCon.rethrow "Failed to create client: "
    (if negb (JS.truthy name) then (db, Thrown "Client name is required")
     else
       let clientId := generateClientId env (Returned (size (clients db))) in
       (setClients db ({[clientId]} ∪ clients db), Returned clientId)).

Definition deleteClient (db : Db) (id : string) : Db * Outcome unit :=
  InvoiceCon.rethrow "Failed to delete client: "
    (if negb (JS.truthy id) then (db, Thrown Firestore.invalidPath)
     else if negb (bool_decide (id ∈ clients db)) then (db, Thrown "Client not found")
     else (setClients db (clients db ∖ {[id]}), Returned ())).

End ClientCon.

(** ** Vocabulary of the properties *)

(** The patches a batch holds for the product [pid], in the order staged. *)
Definition patchesFor (pid : string) (batch : list Write) : list ProductPatch :=
  omap (λ w, match w with
             | UpdateProduct id patch => if decide (id = pid) then Some patch else None
             | _ => None
             end) batch.

(** Which fields a patch sets. *)
Definition fields (patch : ProductPatch) : bool * bool :=
  (bool_decide (is_Some (pp_q patch)), bool_decide (is_Some (pp_quantity patch))).

(** Every product write of the batch sets the same fields. *)
Definition uniform (sh : bool * bool) (batch : list Write) : Prop :=
  ∀ id patch, UpdateProduct id patch ∈ batch → fields patch = sh.

(** Every write of the batch is a product write. *)
Definition productWrites (batch : list Write) : Prop :=
  ∀ w, w ∈ batch → ∃ id patch, w = UpdateProduct id patch.

(** The ledger call by which [deleteMovement] reverses a movement: one turn
    of it. *)
Definition reversal (m : Movement)
    : option (Db → string * Z → ProductModel.Result * option Write) :=
  if String.eqb (m_type m) "stock_in" then Some ProductModel.removeOne
  else if String.eqb (m_type m) "distribution" then Some ProductModel.addOne
  else None.

Definition reversalItem (line : MovementLine) : string * Z :=
  (ml_productId line, ml_quantity line).

(** The reversal of a line item fails: the ledger reports it with
    [success: false]. *)
Definition lineFails (db : Db) (m : Movement) (line : MovementLine) : Prop :=
  ∃ one, reversal m = Some one ∧
         ProductModel.r_success (one db (reversalItem line)).1 = false.

(** The reversal of a line item succeeds, with the count the ledger
    computed for its product. *)
Definition lineSucceeds (db : Db) (m : Movement) (line : MovementLine) (new : Z) : Prop :=
  ∃ one, reversal m = Some one ∧
         ProductModel.r_success (one db (reversalItem line)).1 = true ∧
         ProductModel.r_newQuantity (one db (reversalItem line)).1 = Some new.

(** A turn of a ledger loop stages a write exactly when it reports
    success; the write names the product of the item, which exists. *)
Definition ledgerTurn (one : Db → string * Z → ProductModel.Result * option Write)
    (sh : bool * bool) : Prop :=
  ∀ db item,
    match (one db item).2 with
    | Some w =>
        ProductModel.r_success (one db item).1 = true ∧
        ∃ new, w = UpdateProduct item.1
                     (mkProductPatch (Some new) (if sh.2 then Some new else None)) ∧
               ProductModel.r_newQuantity (one db item).1 = Some new ∧
               is_Some (products db !! item.1)
    | None => ProductModel.r_success (one db item).1 = false
    end.




(** The number an invoice identifier carries, if the pattern matches it. *)
Definition suffix (id : string) : option Z :=
  InvoiceCon.parseInt <$> InvoiceCon.matchInvoiceNumber id.

(** The identifiers read count in safe integers: their number and every
    number carried by one of them are whole numbers that leave room for
    two more below 2^53, so that the code, which counts in doubles, counts
    exactly. *)
Definition safeIds (ids : list string) : Prop :=
  Z.of_nat (length ids) + 2 ≤ JS.maxSafeInteger ∧
  ∀ id n, id ∈ ids → suffix id = Some n → n + 2 ≤ JS.maxSafeInteger.

(** The count N in the words of the specification: the largest number
    carried by an identifier, or, when none carries one, how many there
    are. *)
Definition claimedCount (ids : list string) : Z :=
  match omap suffix ids with
  | [] => Z.of_nat (length ids)
  | n :: ns => foldr Z.max n ns
  end.

Definition claimedInvoiceId (ids : list string) : string :=
  "INV-" +:+ JS.padStart 3 (JS.num (claimedCount ids + 1)).

(** The difference a new line of [updateInvoice] makes: its quantity less
    the quantity of the line of the stored invoice it matches, 0 when none
    matches. *)
Definition lineDiff (currentInvoice : Invoice) (productId : string)
    (newProduct : InvoiceCon.LineRequest) : Z :=
  InvoiceCon.lr_quantity newProduct -
  match InvoiceCon.originalProduct currentInvoice productId (InvoiceCon.lr_name newProduct) with
  | Some original => il_quantity original
  | None => 0
  end.

(** The price [updateInvoice] takes for a new line. *)
Definition linePrice (newProduct : InvoiceCon.LineRequest) (productData : Product) : Z :=
  JS.orNum (InvoiceCon.lr_unitPrice newProduct)
    (JS.orNum (InvoiceCon.lr_price newProduct) (JS.orNum (p_price productData) 0)).

(** A new line asks for more than the stock allows: [diff > 0] and
    [currentStock < diff]. *)
Definition fallsShort (db : Db) (currentInvoice : Invoice)
    (newProduct : InvoiceCon.LineRequest) : Prop :=
  JS.truthy (InvoiceCon.lr_name newProduct) = true ∧
  ∃ productId productData,
    InvoiceCon.resolve db newProduct = inr (productId, productData) ∧
    0 < lineDiff currentInvoice productId newProduct ∧
    InvoiceCon.stockForUpdate productData < lineDiff currentInvoice productId newProduct.

(** A new line passes every check of the loop: it has a name, names a
    product of the store, does not fall short and has a positive price. *)
Definition linePasses (db : Db) (currentInvoice : Invoice)
    (newProduct : InvoiceCon.LineRequest) : Prop :=
  JS.truthy (InvoiceCon.lr_name newProduct) = true ∧
  ∃ productId productData,
    InvoiceCon.resolve db newProduct = inr (productId, productData) ∧
    ¬ (0 < lineDiff currentInvoice productId newProduct ∧
       InvoiceCon.stockForUpdate productData < lineDiff currentInvoice productId newProduct) ∧
    0 < linePrice newProduct productData.

(** The stock write expected of a new line: none when the quantity is
    unchanged, else [q] set to [currentStock - diff]. *)
Definition expectedStockWrite (db : Db) (currentInvoice : Invoice)
    (newProduct : InvoiceCon.LineRequest) : option Write :=
  match InvoiceCon.resolve db newProduct with
  | inr (productId, productData) =>
      let diff := lineDiff currentInvoice productId newProduct in
      if diff =? 0 then None
      else Some (UpdateProduct productId
                   (mkProductPatch (Some (InvoiceCon.stockForUpdate productData - diff)) None))
  | inl _ => None
  end.

(** The last line of an invoice that names the product [pid]. *)
Definition lastLineFor (pid : string) (lines : list InvoiceLine) : option InvoiceLine :=
  last (filter (λ line, il_productId line = pid) lines).

(** Every line has sufficient stock: its product is in the store with a
    count that covers the quantity. *)
Definition sufficientStock (db : Db) (lines : list InvoiceLine) : Prop :=
  ∀ line, line ∈ lines →
    ∃ product,
      products db !! il_productId line = Some product ∧
      il_quantity line ≤ InvoiceCon.stockOf product.

(** The count the invoice flows read for the product [pid]. *)
Definition stockAt (db : Db) (pid : string) : Z :=
  from_option InvoiceCon.stockOf 0 (products db !! pid).

(** The write of [q] to the count read less the quantity. *)
Definition debitOf (db : Db) (pid : string) (quantity : Z) : Write :=
  UpdateProduct pid (mkProductPatch (Some (stockAt db pid - quantity)) None).

Definition alreadyConfirmed : string :=
  "Failed to confirm invoice: Invoice already confirmed".

(** *** Sample stores *)

Definition flour (q quantity : option Z) : Product :=
  mkProduct "Flour" q quantity None (Some 10) None None.

Definition sugar (q quantity : option Z) : Product :=
  mkProduct "Sugar" q quantity None (Some 4) None None.

Definition noon : Env := mkEnv 1700000000000 false.

(** A stock-in of 5 flour and 5 sugar taken one hour before [noon]. *)
Definition delivery : Movement :=
  mkMovement "stock_in" None (Some "ACME") "Alice"
    [mkMovementLine "prod-001" "Flour" 5 10 50 5 10;
     mkMovementLine "prod-002" "Sugar" 5 4 20 3 8]
    70 10 "" (Some (1700000000000 - 3600000)) (Some (1700000000000 - 3600000)).

(** The store after the delivery, once 5 of the sugar have gone. *)
Definition depleted : Db :=
  mkDb {[ "prod-001" := flour (Some 10) (Some 10); "prod-002" := sugar (Some 3) (Some 3) ]}
    ∅ {[ "MOV000001" := delivery ]} ∅ {[ "stockMovements" := 1 ]}.

(** The same delivery, two days old. *)
Definition stale : Db :=
  mkDb {[ "prod-001" := flour (Some 10) (Some 10); "prod-002" := sugar (Some 8) (Some 8) ]}
    ∅ {[ "MOV000001" := delivery ]} ∅ {[ "stockMovements" := 1 ]}.

(** A product as [createProduct] writes it: the count is in [quantity]. *)
Definition pantry : Db :=
  mkDb {[ "prod-001" := mkProduct "Flour" None (Some 10) None None None None ]}
    ∅ ∅ {[ "c1" ]} ∅.

Definition restock : MovementModel.Request :=
  MovementModel.mkRequest "stock_in" [MovementModel.mkLineRequest "prod-001" 5 None]
    "Alice" "" "ACME" "".


Definition shelf : Db :=
  mkDb {[ "prod-001" := flour (Some 15) (Some 15) ]} ∅ ∅ {[ "c1" ]} ∅.

(** Two products of one name, the older one with the smaller identifier. *)
Definition twoSalts : Db :=
  mkDb {[ "prod-003" := mkProduct "Salt" (Some 4) None None (Some 2) None None;
          "prod-001" := mkProduct "Salt" (Some 9) None None (Some 2) None None ]}
    ∅ ∅ ∅ ∅.

(** A product stored without name. *)
Definition unnamed : Db :=
  mkDb {[ "prod-001" := mkProduct "" (Some 10) (Some 10) None (Some 10) None None ]}
    ∅ ∅ ∅ ∅.


Definition twoDaysLater : Env := mkEnv (1700000000000 + 2 * 86400000) false.

(** An invoice of 3 flour, confirmed, and the flour left after it. *)
Definition order (status : string) : Invoice :=
  mkInvoice "c1" "Bob" [mkInvoiceLine "prod-001" "Flour" 3 10 30] 0 0 30 30 30 status None.

Definition billed (status : string) : Db :=
  mkDb {[ "prod-001" := flour (Some 2) None ]} {[ "INV-001" := order status ]}
    ∅ {[ "c1" ]} ∅.

(** A request for 3 flour at 10 with the advance given. *)
Definition purchase (advance : option Z) : InvoiceCon.CreateRequest :=
  InvoiceCon.mkCreateRequest "c1" "Bob"
    [InvoiceCon.mkLineRequest "prod-001" "Flour" 3 (Some 10) None] None advance.

Definition stocked : Db :=
  mkDb {[ "prod-001" := flour (Some 5) None ]} ∅ ∅ {[ "c1" ]} ∅.

(** Salt, entered without a price. *)
Definition salt : Product := mkProduct "Salt" (Some 9) None None None None None.

Definition larder : Db :=
  mkDb {[ "prod-001" := flour (Some 2) None; "prod-003" := salt ]}
    {[ "INV-001" := order "not paid" ]} ∅ {[ "c1" ]} ∅.

Definition saltLine : InvoiceCon.LineRequest :=
  InvoiceCon.mkLineRequest "prod-003" "Salt" 1 None None.

(** The invoice of 3 flour, with a unit of salt added. *)
Definition addSalt : InvoiceCon.UpdateRequest :=
  InvoiceCon.mkUpdateRequest
    (Some [InvoiceCon.mkLineRequest "prod-001" "Flour" 3 None None; saltLine]) None None.

(** The invoice of 3 flour cut down to 1. *)
Definition oneFlour : InvoiceCon.UpdateRequest :=
  InvoiceCon.mkUpdateRequest
    (Some [InvoiceCon.mkLineRequest "prod-001" "Flour" 1 None None]) None None.

(** The invoice of 3 flour raised to 9, with 2 flour on hand. *)
Definition nineFlour : InvoiceCon.UpdateRequest :=
  InvoiceCon.mkUpdateRequest
    (Some [InvoiceCon.mkLineRequest "prod-001" "Flour" 9 None None]) None None.

(** An advance of 10 and nothing else. *)
Definition advanceOnly : InvoiceCon.UpdateRequest :=
  InvoiceCon.mkUpdateRequest None None (Some 10).

(** Ten flour on hand. *)
Definition wellStocked : Db :=
  mkDb {[ "prod-001" := flour (Some 10) None ]} ∅ ∅ {[ "c1" ]} ∅.

(** *** Identifiers and counters *)

(** The identifier the movement counter gives for the count [n]. *)
Definition movementIdOf (n : Z) : string := "MOV" +:+ JS.padStart 6 (JS.num n).


(** The count a counter document holds, 0 when there is none. *)
Definition counterAt (db : Db) (name : string) : Z := default 0 (counters db !! name).

(** Every movement of the store has an identifier the counter gave out:
    that of a count between 1 and the count the counter holds. *)
Definition movementIdsIssued (db : Db) : Prop :=
  0 ≤ counterAt db "stockMovements" ∧
  ∀ id, is_Some (stockMovements db !! id) →
    ∃ n, 1 ≤ n ≤ counterAt db "stockMovements" ∧ id = movementIdOf n.


(** No two products of the store have the same name. *)
Definition uniqueNames (db : Db) : Prop :=
  ∀ id1 id2 p1 p2,
    products db !! id1 = Some p1 → products db !! id2 = Some p2 →
    p_name p1 = p_name p2 → id1 = id2.

(** The stock fields of a product, which only the ledger and the invoice
    flows write. *)
Definition stockFields (p : Product) : option Z * option Z * option Z :=
  (p_q p, p_quantity p, p_currentStock p).

(** Five flour on hand and the invoice of 3 flour, confirmed. *)
Definition served : Db :=
  mkDb {[ "prod-001" := flour (Some 5) None ]} {[ "INV-001" := order "confirmed" ]}
    ∅ {[ "c1" ]} ∅.

(** The delivery, stored without its dates. *)
Definition undated : Movement :=
  mkMovement "stock_in" None (Some "ACME") "Alice"
    [mkMovementLine "prod-001" "Flour" 5 10 50 5 10] 50 5 "" None None.

Definition undatedStore : Db :=
  mkDb {[ "prod-001" := flour (Some 10) (Some 10) ]}
    ∅ {[ "MOV000001" := undated ]} ∅ {[ "stockMovements" := 1 ]}.

(** *** Requests of the stock movement controller *)

(** The first three checks of [validateMovementData] and the check of the
    type are the ones whose message has one of the words the controller
    looks for: a required field is missing, or the type is not one of
    the two. *)
Definition missingOrInvalidType (data : MovementCon.Request) : bool :=
  negb (JS.truthy (MovementCon.rq_type data)) ||
  negb (JS.truthy (MovementCon.rq_stockManager data)) ||
  (if MovementCon.rq_products data is None then true else false) ||
  (negb (bool_decide (default [] (MovementCon.rq_products data) = [])) &&
   negb (String.eqb (JS.trim (MovementCon.rq_stockManager data)) "") &&
   negb (bool_decide (MovementCon.rq_type data ∈ MovementCon.validMovementTypes))).

(** A body that asks to distribute 20 flour to the kitchen. *)
Definition overdrawBody : MovementCon.Request :=
  MovementCon.mkRequest "distribution" "Alice"
    (Some [MovementCon.mkLineRequest "prod-001" "Flour" (Some 20) "kg" None])
    "Kitchen" "" "".

(** A body whose stock manager is blank. *)
Definition blankManagerBody : MovementCon.Request :=
  MovementCon.mkRequest "stock_in" "  "
    (Some [MovementCon.mkLineRequest "prod-001" "Flour" (Some 5) "kg" None])
    "" "ACME" "".

(** *** Statistics *)

(** What one invoice counts for in the statistics. *)
Definition tally (invoice : Invoice) : InvoiceAdmin.Stats :=
  InvoiceAdmin.mkStats 1
    (if decide (i_status invoice = "pending") then 1 else 0)
    (if decide (i_status invoice = "confirmed") then 1 else 0)
    (if decide (i_status invoice = "confirmed") then i_total invoice else 0).

Definition addStats (a b : InvoiceAdmin.Stats) : InvoiceAdmin.Stats :=
  InvoiceAdmin.mkStats
    (InvoiceAdmin.st_total a + InvoiceAdmin.st_total b)
    (InvoiceAdmin.st_pending a + InvoiceAdmin.st_pending b)
    (InvoiceAdmin.st_confirmed a + InvoiceAdmin.st_confirmed b)
    (InvoiceAdmin.st_totalRevenue a + InvoiceAdmin.st_totalRevenue b).

(** Five flour on hand and the invoice of 3 flour, pending. *)
Definition pendingOrder : Db :=
  mkDb {[ "prod-001" := flour (Some 5) None ]} {[ "INV-001" := order "pending" ]}
    ∅ {[ "c1" ]} ∅.

(** *** Client identifiers *)

(** The identifier made for the client count [n]. *)
Definition clientIdOf (n : Z) : string := "cli-" +:+ JS.padStart 3 (JS.num n).

(** The identifiers of [n] clients created one after the other. *)
Definition clientsIssued (n : Z) : gset string := list_to_set (clientIdOf <$> seqZ 1 n).

(** A store with the three clients created first. *)
Definition threeClients : Db := mkDb ∅ ∅ ∅ (clientsIssued 3) ∅.

(** * Properties *)

(** ** Strings *)
Section strings.
Import JS.

Lemma string_app_cons x (a b : string) : String x a +:+ b = String x (a +:+ b).
Proof. reflexivity. Qed.

Lemma string_app_nil_l (a : string) : "" +:+ a = a.
Proof. reflexivity. Qed.

Lemma string_app_assoc (a b c : string) : (a +:+ b) +:+ c = a +:+ (b +:+ c).
Proof.
  induction a as [|x a IH]; [done|].
  rewrite !string_app_cons. by f_equal.
Qed.

Lemma string_app_nil_r (a : string) : a +:+ "" = a.
Proof.
  induction a as [|x a IH]; [done|].
  rewrite string_app_cons. by f_equal.
Qed.

Lemma startsWith_app needle after : startsWith needle (needle +:+ after) = true.
Proof.
  induction needle as [|x needle IH]; [done|].
  rewrite string_app_cons. simpl. by rewrite Ascii.eqb_refl, IH.
Qed.

Lemma mentions_includes needle hay : mentions needle hay → includes needle hay = true.
Proof.
  intros (before & after & ->).
  induction before as [|x before IH].
  - rewrite string_app_nil_l.
    pose proof (startsWith_app needle after) as Hs.
    destruct (needle +:+ after) eqn:Heq; simpl; [done|].
    by rewrite Hs.
  - rewrite string_app_cons. simpl. rewrite IH. apply orb_true_r.
Qed.

Lemma mentions_refl s : mentions s s.
Proof. exists "", "". by rewrite string_app_nil_l, string_app_nil_r. Qed.

Lemma mentions_app_l needle before hay :
  mentions needle hay → mentions needle (before +:+ hay).
Proof.
  intros (b & a & ->). exists (before +:+ b), a. by rewrite string_app_assoc.
Qed.

Lemma mentions_app_r needle hay after :
  mentions needle hay → mentions needle (hay +:+ after).
Proof.
  intros (b & a & ->). exists b, (a +:+ after). by rewrite !string_app_assoc.
Qed.

Lemma mentions_trans a b c : mentions a b → mentions b c → mentions a c.
Proof.
  intros (b1 & a1 & ->) (b2 & a2 & ->).
  exists (b2 +:+ b1), (a1 +:+ a2). by rewrite !string_app_assoc.
Qed.

(** Every element of an array shows in its [join]. *)
Lemma mentions_join sep (l : list string) e : e ∈ l → mentions e (join sep l).
Proof.
  induction l as [|x l IH]; intros Hin; [by apply not_elem_of_nil in Hin|].
  apply elem_of_cons in Hin as [->|Hin].
  - destruct l; simpl; [apply mentions_refl|].
    apply mentions_app_r, mentions_refl.
  - destruct l as [|y l]; [by apply not_elem_of_nil in Hin|].
    change (join sep (x :: y :: l)) with (x +:+ sep +:+ join sep (y :: l)).
    by apply mentions_app_l, mentions_app_l, IH.
Qed.

End strings.

(** ** Lists *)

Lemma elem_of_concat {A} (x : A) (ls : list (list A)) :
  x ∈ concat ls ↔ ∃ l, x ∈ l ∧ l ∈ ls.
Proof.
  induction ls as [|l ls IH]; simpl.
  - split; [intros H; by apply not_elem_of_nil in H|].
    intros (l & _ & H). by apply not_elem_of_nil in H.
  - rewrite elem_of_app, IH. split.
    + intros [Hl|(l' & Hx & Hl')].
      * exists l. split; [done|by left].
      * exists l'. split; [done|by right].
    + intros (l' & Hx & Hl'). apply elem_of_cons in Hl' as [->|Hl'].
      * by left.
      * right. by exists l'.
Qed.

(** ** The store *)
Section firestore.
Import Firestore.

Lemma applyWrite_products_lookup db w pid :
  products (applyWrite db w) !! pid =
  match w with
  | UpdateProduct id patch =>
      if decide (id = pid) then patchProduct patch <$> products db !! pid
      else products db !! pid
  | _ => products db !! pid
  end.
Proof.
  destruct w as [id patch| |]; simpl; try done.
  case_decide as Hid.
  - subst. apply lookup_alter_eq.
  - by apply lookup_alter_ne.
Qed.

Lemma applyWrite_stockMovements db w :
  stockMovements (applyWrite db w) = stockMovements db.
Proof. by destruct w. Qed.

Lemma applyWrite_clients db w : clients (applyWrite db w) = clients db.
Proof. by destruct w. Qed.

Lemma applyWrite_counters db w : counters (applyWrite db w) = counters db.
Proof. by destruct w. Qed.

Lemma foldl_applyWrite_stockMovements batch db :
  stockMovements (foldl applyWrite db batch) = stockMovements db.
Proof.
  revert db. induction batch as [|w batch IH]; intros db; simpl; [done|].
  by rewrite IH, applyWrite_stockMovements.
Qed.

Lemma foldl_applyWrite_counters batch db :
  counters (foldl applyWrite db batch) = counters db.
Proof.
  revert db. induction batch as [|w batch IH]; intros db; simpl; [done|].
  by rewrite IH, applyWrite_counters.
Qed.

Lemma foldl_applyWrite_clients batch db :
  clients (foldl applyWrite db batch) = clients db.
Proof.
  revert db. induction batch as [|w batch IH]; intros db; simpl; [done|].
  by rewrite IH, applyWrite_clients.
Qed.

(** Product writes leave the invoices alone. *)
Lemma foldl_applyWrite_invoices batch db :
  productWrites batch → invoices (foldl applyWrite db batch) = invoices db.
Proof.
  revert db. induction batch as [|w batch IH]; intros db Hpw; simpl; [done|].
  rewrite IH.
  - destruct (Hpw w) as (id & patch & ->); [by left | done].
  - intros w' Hw'. apply Hpw. by right.
Qed.

(** Invoice writes leave the products alone. *)
Lemma foldl_applyWrite_no_patch batch db pid :
  patchesFor pid batch = [] →
  products (foldl applyWrite db batch) !! pid = products db !! pid.
Proof.
  revert db. induction batch as [|w batch IH]; intros db Hnone; simpl; [done|].
  unfold patchesFor in Hnone. simpl in Hnone.
  rewrite IH, applyWrite_products_lookup.
  - destruct w as [id patch| |]; try done.
    by destruct (decide (id = pid)).
  - unfold patchesFor.
    destruct w as [id patch| |]; try done.
    by destruct (decide (id = pid)).
Qed.

(** A patch that sets the fields of an earlier one makes it moot. *)
Lemma patchProduct_absorb p2 p1 doc :
  fields p1 = fields p2 →
  patchProduct p2 (patchProduct p1 doc) = patchProduct p2 doc.
Proof.
  destruct p1 as [[q1|] [n1|]], p2 as [[q2|] [n2|]]; intros Hf;
    (done || (exfalso; vm_compute in Hf; congruence)).
Qed.

(** The last patch staged for a product decides what the batch leaves. *)
Lemma foldl_applyWrite_last sh batch db pid :
  uniform sh batch →
  products (foldl applyWrite db batch) !! pid =
  match last (patchesFor pid batch) with
  | Some patch => patchProduct patch <$> products db !! pid
  | None => products db !! pid
  end.
Proof.
  induction batch as [|w batch IH] using rev_ind; intros Hu; [done|].
  rewrite foldl_app. simpl. rewrite applyWrite_products_lookup.
  unfold patchesFor in *. rewrite omap_app. simpl.
  assert (uniform sh batch) as Hu'.
  { intros id patch Hin. apply (Hu id patch). apply elem_of_app. by left. }
  specialize (IH Hu').
  destruct w as [id patch| |]; simpl; rewrite ?app_nil_r; try done.
  case_decide as Hid; simpl; rewrite ?app_nil_r; [|done].
  rewrite last_snoc, IH.
  destruct (last _) as [patch'|] eqn:Hlast; [|done].
  rewrite <- option_fmap_compose.
  apply option_fmap_ext. intros doc. simpl.
  apply patchProduct_absorb.
  apply last_Some_elem_of in Hlast.
  apply list_elem_of_omap in Hlast as (w' & Hw' & Hsel).
  destruct w' as [id' patch''| |]; try done.
  case_decide; [|done]. simplify_eq.
  rewrite (Hu' _ _ Hw').
  symmetry. apply (Hu pid patch). apply elem_of_app. right. by left.
Qed.

(** A batch whose updates name documents of the store commits. *)
Lemma commit_writable db batch :
  Forall (λ w, writable db w = true) batch →
  commit db batch = Some (foldl applyWrite db batch).
Proof.
  intros Hall. unfold commit.
  replace (forallb (writable db) batch) with true; [done|].
  symmetry. apply forallb_forall. intros w Hw.
  rewrite Forall_forall in Hall. apply Hall. by apply list_elem_of_In.
Qed.

Lemma commit_inv db batch db' :
  commit db batch = Some db' →
  db' = foldl applyWrite db batch ∧ Forall (λ w, writable db w = true) batch.
Proof.
  unfold commit. destruct (forallb _ _) eqn:Hall; [|done].
  intros [= <-]. split; [done|].
  apply Forall_forall. intros w Hw.
  rewrite forallb_forall in Hall. apply Hall. by apply list_elem_of_In.
Qed.

End firestore.

(** ** The ledger *)
Section ledger.
Import Firestore ProductModel.

Lemma addOne_turn : ledgerTurn addOne (true, false).
Proof.
  intros db [pid n]. unfold addOne.
  destruct (JS.truthy pid); [|done].
  destruct (products db !! pid) as [doc|] eqn:Hdoc; [|done].
  split; [done|]. eexists. split; [done|]. split; [done|]. by exists doc.
Qed.

Lemma removeOne_turn : ledgerTurn removeOne (true, true).
Proof.
  intros db [pid n]. unfold removeOne.
  destruct (JS.truthy pid); [|done].
  destruct (products db !! pid) as [doc|] eqn:Hdoc; [|done].
  destruct (_ <? n); [done|].
  split; [done|]. eexists. split; [done|]. split; [done|]. by exists doc.
Qed.

Section bulk.
Context (one : Db → string * Z → Result * option Write) (sh : bool * bool).
Context (Hone : ledgerTurn one sh).

Lemma staged_writable db items :
  Forall (λ w, writable db w = true) (omap snd (one db <$> items)).
Proof.
  apply Forall_forall. intros w Hw.
  apply list_elem_of_omap in Hw as ([r o] & Hin & Ho). simpl in Ho. subst o.
  apply list_elem_of_fmap in Hin as (item & Heq & _).
  specialize (Hone db item). rewrite <- Heq in Hone. simpl in Hone.
  destruct Hone as (_ & new & -> & _ & Hex). simpl.
  by apply bool_decide_eq_true.
Qed.

(** The ledger call always returns: it commits the writes of the items
    that passed and reports on every item. *)
Lemma bulk_returns db items :
  bulk one db items =
  (foldl applyWrite db (omap snd (one db <$> items)),
   Returned (fst <$> (one db <$> items))).
Proof. unfold bulk. by rewrite commit_writable by apply staged_writable. Qed.

Lemma staged_uniform db items :
  uniform (true, sh.2) (omap snd (one db <$> items)).
Proof.
  intros id patch Hw.
  apply list_elem_of_omap in Hw as ([r o] & Hin & Ho). simpl in Ho. subst o.
  apply list_elem_of_fmap in Hin as (item & Heq & _).
  specialize (Hone db item). rewrite <- Heq in Hone. simpl in Hone.
  destruct Hone as (_ & new & [= -> ->] & _).
  by destruct (sh.2).
Qed.

Lemma staged_productWrites db items :
  productWrites (omap snd (one db <$> items)).
Proof.
  intros w Hw.
  apply list_elem_of_omap in Hw as ([r o] & Hin & Ho). simpl in Ho. subst o.
  apply list_elem_of_fmap in Hin as (item & Heq & _).
  specialize (Hone db item). rewrite <- Heq in Hone. simpl in Hone.
  destruct Hone as (_ & new & -> & _). eauto.
Qed.

(** A patch staged for a product comes from an item that passed. *)
Lemma staged_patch_inv db items pid patch :
  patch ∈ patchesFor pid (omap snd (one db <$> items)) →
  ∃ item new, item ∈ items ∧ item.1 = pid ∧
    r_success (one db item).1 = true ∧
    r_newQuantity (one db item).1 = Some new ∧
    pp_q patch = Some new.
Proof.
  intros Hp.
  apply list_elem_of_omap in Hp as (w & Hw & Hsel).
  apply list_elem_of_omap in Hw as ([r o] & Hin & Ho). simpl in Ho. subst o.
  apply list_elem_of_fmap in Hin as (item & Heq & Hitem).
  pose proof (Hone db item) as Ht. rewrite <- Heq in Ht. simpl in Ht.
  destruct Ht as (Hs & new & -> & Hn & _).
  case_decide as Hid; [|done]. injection Hsel as <-.
  exists item, new. by rewrite <- Heq.
Qed.

(** An item that passed has a patch staged for its product. *)
Lemma staged_patch_intro db items item :
  item ∈ items → r_success (one db item).1 = true →
  patchesFor item.1 (omap snd (one db <$> items)) ≠ [].
Proof.
  intros Hin Hs Hnil.
  pose proof (Hone db item) as Ht.
  destruct (one db item) as [r o] eqn:Heq. simpl in *.
  destruct o as [w|]; [|congruence].
  destruct Ht as (_ & new & -> & _).
  assert (mkProductPatch (Some new) (if sh.2 then Some new else None)
          ∈ patchesFor item.1 (omap snd (one db <$> items))) as Hel.
  { apply list_elem_of_omap. eexists. split.
    - apply list_elem_of_omap. exists (one db item). split.
      + apply list_elem_of_fmap. eauto.
      + by rewrite Heq.
    - simpl. by rewrite decide_True. }
  rewrite Hnil in Hel. by apply not_elem_of_nil in Hel.
Qed.

(** The product of an item that passed holds, after the commit, the
    count computed for an item that passed and names it. *)
Lemma staged_committed db items item :
  item ∈ items → r_success (one db item).1 = true →
  ∃ item' new',
    item' ∈ items ∧ item'.1 = item.1 ∧
    r_success (one db item').1 = true ∧
    r_newQuantity (one db item').1 = Some new' ∧
    is_Some (products db !! item.1) ∧
    p_q <$> products (foldl applyWrite db (omap snd (one db <$> items))) !! item.1
    = Some (Some new').
Proof.
  intros Hitem Hs.
  pose proof (staged_patch_intro db items _ Hitem Hs) as Hnonempty.
  rewrite (foldl_applyWrite_last (true, sh.2)) by apply staged_uniform.
  destruct (last (patchesFor item.1 (omap snd (one db <$> items)))) as [patch|] eqn:Hlast.
  2: { by apply last_None in Hlast. }
  apply last_Some_elem_of, staged_patch_inv in Hlast
    as (item' & new' & Hitem' & Hid & Hs' & Hn' & Hq).
  exists item', new'. do 4 (split; [done|]).
  pose proof (Hone db item) as Ht.
  destruct ((one db item).2); [|congruence].
  destruct Ht as (_ & _ & _ & _ & [doc Hdoc]).
  split; [by exists doc|].
  rewrite Hdoc. simpl. by rewrite Hq.
Qed.

(** A product that no item that passed names is left as it was. *)
Lemma staged_untouched db items pid :
  (∀ item, item ∈ items → item.1 = pid → r_success (one db item).1 = false) →
  products (foldl applyWrite db (omap snd (one db <$> items))) !! pid
  = products db !! pid.
Proof.
  intros Hall. apply foldl_applyWrite_no_patch.
  destruct (patchesFor pid _) as [|patch rest] eqn:Hp; [done|exfalso].
  assert (patch ∈ patchesFor pid (omap snd (one db <$> items))) as Hel
    by (rewrite Hp; by left).
  apply staged_patch_inv in Hel as (item & new & Hitem & Hid & Hs & _).
  specialize (Hall _ Hitem Hid). congruence.
Qed.

End bulk.

End ledger.

(** ** Deleting a stock movement *)
Section deleteMovement.
Import Firestore ProductModel MovementModel.

Lemma reversal_turn m one :
  reversal m = Some one → ∃ sh, ledgerTurn one sh.
Proof.
  unfold reversal. repeat case_match; intros [= <-].
  - eexists. apply removeOne_turn.
  - eexists. apply addOne_turn.
Qed.

(** Within the 24 hours, the deletion is the ledger call followed by the
    test of its report. *)
Lemma deleteMovement_recent env db id m one :
  JS.truthy id = true →
  stockMovements db !! id = Some m →
  tooOld env m = false →
  reversal m = Some one →
  deleteMovement env db id =
  let turns := one db <$> (reversalItem <$> m_products m) in
  let db1 := foldl applyWrite db (omap snd turns) in
  let failedOperations := filter (λ r, r_success r = false) (fst <$> turns) in
  if negb (bool_decide (failedOperations = [])) then
    (db1, Refused "STOCK_RESTORATION_FAILED"
            "Failed to restore stock levels for some products"
            (describeFailure <$> failedOperations))
  else
    (setStockMovements db1 (delete id (stockMovements db1)),
     Deleted "Movement deleted successfully and stock levels restored" (fst <$> turns)).
Proof.
  intros Hid Hm Hold Hrev. unfold deleteMovement. rewrite Hid, Hm, Hold. cbn [negb].
  unfold reversal in Hrev.
  destruct (String.eqb (m_type m) "stock_in").
  - injection Hrev as <-.
    unfold removeQuantitiesFromProducts.
    by rewrite (bulk_returns _ _ removeOne_turn).
  - destruct (String.eqb (m_type m) "distribution"); [|done].
    injection Hrev as <-.
    unfold addQuantitiesToProducts.
    by rewrite (bulk_returns _ _ addOne_turn).
Qed.

(** The product of a line whose reversal succeeded holds the count
    computed for a line that names it and succeeded. *)
Lemma reversal_committed db m one sh l new :
  reversal m = Some one →
  ledgerTurn one sh →
  l ∈ m_products m →
  lineSucceeds db m l new →
  ∃ l' new',
    l' ∈ m_products m ∧ ml_productId l' = ml_productId l ∧
    lineSucceeds db m l' new' ∧
    is_Some (products db !! ml_productId l) ∧
    p_q <$> products (foldl applyWrite db
                        (omap snd (one db <$> (reversalItem <$> m_products m))))
            !! ml_productId l
    = Some (Some new').
Proof.
  intros Hrev Hturn Hl (one' & Hrev' & Hs & Hn).
  rewrite Hrev in Hrev'. injection Hrev' as <-.
  assert (reversalItem l ∈ reversalItem <$> m_products m) as Hitem.
  { apply list_elem_of_fmap. eauto. }
  destruct (staged_committed one sh Hturn db _ _ Hitem Hs)
    as (item' & new' & Hitem' & Hid & Hs' & Hn' & Hex & Hq).
  apply list_elem_of_fmap in Hitem' as (l' & -> & Hl').
  exists l', new'. split; [done|]. split; [done|].
  split; [by exists one|]. by split.
Qed.

(** The age in the message is the double [timeDiff / 3600000] rounded to
    two places: 24.005 hours are held as a double just below and print as
    24.00. *)
Example hoursFixed2_rounds_double : hoursFixed2 (Some 86418000) = "24.00".
Proof. by vm_compute. Qed.

(** C9: a movement (a document of the store, under its identifier, which
    is never empty) whose timestamp lies more than 24 hours before the
    current time is not deleted: the reply carries the code
    MOVEMENT_TOO_OLD, no product changes and the movement document stays. *)
Theorem deleteMovement_too_old env db id movement t :
  JS.truthy id = true →
  stockMovements db !! id = Some movement →
  m_timestamp movement = Some t →
  24 * msPerHour < now env - t →
  ∃ db' message errors,
    deleteMovement env db id = (db', Refused "MOVEMENT_TOO_OLD" message errors) ∧
    products db' = products db ∧
    stockMovements db' !! id = Some movement ∧
    db' = db.
Proof.
  intros Hid Hm Ht Hage. unfold deleteMovement. rewrite Hid, Hm. cbn [negb].
  unfold tooOld, timeDiff, movementTimestamp. rewrite Ht. simpl.
  replace (24 * msPerHour <? now env - t) with true by (symmetry; by apply Z.ltb_lt).
  by eexists _, _, _.
Qed.

Lemma deleteMovement_too_old_witness :
  ∃ db' message errors,
    deleteMovement twoDaysLater stale "MOV000001"
    = (db', Refused "MOVEMENT_TOO_OLD" message errors) ∧
    products db' = products stale ∧
    stockMovements db' !! "MOV000001" = Some delivery ∧
    db' = stale.
Proof.
  apply (deleteMovement_too_old twoDaysLater stale "MOV000001" delivery
           (1700000000000 - 3600000)).
  - reflexivity.
  - reflexivity.
  - reflexivity.
  - vm_compute. reflexivity.
Defined.

(** C2, as the code has it: when the reversal of a line item fails, the
    deletion is refused with the code STOCK_RESTORATION_FAILED and the
    movement document stays, but the batch of the ledger was committed
    before the report was read: a product keeps its quantity only if no
    line item naming it succeeded, and the product of a line item that
    succeeded holds the count the ledger computed for it. *)
Theorem deleteMovement_restoration_failed env db id m line :
  JS.truthy id = true →
  stockMovements db !! id = Some m →
  tooOld env m = false →
  line ∈ m_products m →
  lineFails db m line →
  ∃ db' message errors,
    deleteMovement env db id
    = (db', Refused "STOCK_RESTORATION_FAILED" message errors) ∧
    stockMovements db' = stockMovements db ∧
    (∀ pid,
       (∀ l, l ∈ m_products m → ml_productId l = pid → lineFails db m l) →
       products db' !! pid = products db !! pid) ∧
    (∀ l new,
       l ∈ m_products m → lineSucceeds db m l new →
       ∃ l' new',
         l' ∈ m_products m ∧ ml_productId l' = ml_productId l ∧
         lineSucceeds db m l' new' ∧
         is_Some (products db !! ml_productId l) ∧
         p_q <$> products db' !! ml_productId l = Some (Some new')).
Proof.
  intros Htruthy Hm Hold Hline (one & Hrev & Hfail).
  destruct (reversal_turn _ _ Hrev) as [sh Hturn].
  rewrite (deleteMovement_recent _ _ _ _ _ Htruthy Hm Hold Hrev). cbv zeta.
  set (items := reversalItem <$> m_products m).
  assert (filter (λ r, r_success r = false) ((one db <$> items).*1) ≠ []) as Hne.
  { intros Hnil.
    assert ((one db (reversalItem line)).1
            ∈ filter (λ r, r_success r = false) ((one db <$> items).*1)) as Hel.
    { apply list_elem_of_filter. split; [done|].
      apply list_elem_of_fmap. eexists. split; [done|].
      apply list_elem_of_fmap. eexists. split; [done|].
      apply list_elem_of_fmap. eauto. }
    rewrite Hnil in Hel. by apply not_elem_of_nil in Hel. }
  rewrite bool_decide_eq_false_2 by done. simpl.
  eexists _, _, _. split; [done|].
  split; [apply foldl_applyWrite_stockMovements|].
  split.
  - intros pid Hall. apply (staged_untouched one sh Hturn).
    intros item Hitem Hid.
    apply list_elem_of_fmap in Hitem as (l & -> & Hl).
    destruct (Hall l Hl Hid) as (one' & Hrev' & Hf).
    rewrite Hrev in Hrev'. by injection Hrev' as <-.
  - intros l new Hl Hsucc.
    by apply (reversal_committed db m one sh l new).
Qed.

Lemma deleteMovement_restoration_failed_witness :
  ∃ db' message errors,
    deleteMovement noon depleted "MOV000001"
    = (db', Refused "STOCK_RESTORATION_FAILED" message errors) ∧
    stockMovements db' = stockMovements depleted ∧
    (∀ pid,
       (∀ l, l ∈ m_products delivery → ml_productId l = pid →
             lineFails depleted delivery l) →
       products db' !! pid = products depleted !! pid) ∧
    (∀ l new,
       l ∈ m_products delivery → lineSucceeds depleted delivery l new →
       ∃ l' new',
         l' ∈ m_products delivery ∧ ml_productId l' = ml_productId l ∧
         lineSucceeds depleted delivery l' new' ∧
         is_Some (products depleted !! ml_productId l) ∧
         p_q <$> products db' !! ml_productId l = Some (Some new')).
Proof.
  apply (deleteMovement_restoration_failed noon depleted "MOV000001" delivery
           (mkMovementLine "prod-002" "Sugar" 5 4 20 3 8)).
  - reflexivity.
  - reflexivity.
  - reflexivity.
  - right. left.
  - exists removeOne. split; reflexivity.
Defined.

(** C2 as stated fails: the reversal of the sugar line fails, the
    deletion is refused, and yet the flour, whose line succeeded, has gone
    from 10 to 5. *)
Lemma deleteMovement_partial_reversal :
  stockMovements depleted !! "MOV000001" = Some delivery ∧
  lineFails depleted delivery (mkMovementLine "prod-002" "Sugar" 5 4 20 3 8) ∧
  ∃ db' message errors,
    deleteMovement noon depleted "MOV000001"
    = (db', Refused "STOCK_RESTORATION_FAILED" message errors) ∧
    stockMovements db' !! "MOV000001" = Some delivery ∧
    products depleted !! "prod-001" = Some (flour (Some 10) (Some 10)) ∧
    products db' !! "prod-001" = Some (flour (Some 5) (Some 5)) ∧
    products db' ≠ products depleted.
Proof.
  split; [reflexivity|].
  split; [exists removeOne; split; reflexivity|].
  eexists _, _, _. split; [vm_compute; reflexivity|].
  split; [reflexivity|]. split; [reflexivity|]. split; [reflexivity|].
  intros Heq.
  assert (products (deleteMovement noon depleted "MOV000001").1 !! "prod-001"
          = products depleted !! "prod-001") as Hl.
  { by f_equal. }
  vm_compute in Hl. discriminate Hl.
Qed.

(** Once every line item passes, the last line naming a product decides
    the patch the ledger leaves on it. *)
Lemma last_patch_turns {A} (turn : A → Result * option Write) (key : A → string)
    (l : list A) pid x :
  (∀ y, y ∈ l → ∃ patch, (turn y).2 = Some (UpdateProduct (key y) patch)) →
  last (filter (λ y, key y = pid) l) = Some x →
  ∃ patch,
    (turn x).2 = Some (UpdateProduct pid patch) ∧
    last (patchesFor pid (omap snd (turn <$> l))) = Some patch.
Proof.
  induction l as [|y l IH] using rev_ind; intros Hall; [done|].
  rewrite filter_app, fmap_app, omap_app. unfold patchesFor in *. rewrite omap_app.
  destruct (Hall y) as [patch Hy]; [apply elem_of_app; right; by left|].
  rewrite filter_cons, filter_nil. simpl. rewrite Hy. simpl.
  case_decide as Hkey.
  - rewrite !last_snoc. intros [= <-].
    exists patch. by rewrite Hy, Hkey.
  - rewrite !app_nil_r.
    apply IH. intros z Hz. apply Hall. apply elem_of_app. by left.
Qed.

Lemma removeOne_done db pid n doc :
  JS.truthy pid = true →
  products db !! pid = Some doc →
  n ≤ JS.orNum (p_q doc) (JS.orNum (p_quantity doc) 0) →
  removeOne db (pid, n)
  = (done pid (JS.orNum (p_q doc) (JS.orNum (p_quantity doc) 0)) n
       (JS.orNum (p_q doc) (JS.orNum (p_quantity doc) 0) - n),
     Some (UpdateProduct pid
             (mkProductPatch (Some (JS.orNum (p_q doc) (JS.orNum (p_quantity doc) 0) - n))
                (Some (JS.orNum (p_q doc) (JS.orNum (p_quantity doc) 0) - n))))).
Proof.
  intros Hpid Hdoc Hn. unfold removeOne. rewrite Hpid, Hdoc. cbn [negb].
  by rewrite (proj2 (Z.ltb_ge _ _) Hn).
Qed.

Lemma addOne_done db pid n doc :
  JS.truthy pid = true →
  products db !! pid = Some doc →
  addOne db (pid, n)
  = (done pid (JS.orNum (p_q doc) 0) n (JS.orNum (p_q doc) 0 + n),
     Some (UpdateProduct pid (mkProductPatch (Some (JS.orNum (p_q doc) 0 + n)) None))).
Proof. intros Hpid Hdoc. unfold addOne. by rewrite Hpid, Hdoc. Qed.

(** Within the 24 hours, when every turn of the ledger passes, the
    movement document is deleted and every product the movement names
    carries the patch staged for the last line that names it. *)
Lemma deleteMovement_passes env db id m one sh :
  JS.truthy id = true →
  stockMovements db !! id = Some m →
  tooOld env m = false →
  reversal m = Some one →
  ledgerTurn one sh →
  (∀ line, line ∈ m_products m → r_success (one db (reversalItem line)).1 = true) →
  ∃ db' message results,
    deleteMovement env db id = (db', Deleted message results) ∧
    stockMovements db' = delete id (stockMovements db) ∧
    (∀ pid line,
       last (filter (λ l, ml_productId l = pid) (m_products m)) = Some line →
       ∃ patch,
         (one db (reversalItem line)).2 = Some (UpdateProduct pid patch) ∧
         products db' !! pid = patchProduct patch <$> products db !! pid) ∧
    (∀ pid,
       (∀ l, l ∈ m_products m → ml_productId l ≠ pid) →
       products db' !! pid = products db !! pid).
Proof.
  intros Htruthy Hm Hold Hrev Hturn Hall.
  rewrite (deleteMovement_recent _ _ _ _ _ Htruthy Hm Hold Hrev). cbv zeta.
  set (items := reversalItem <$> m_products m).
  assert (filter (λ r, r_success r = false) ((one db <$> items).*1) = []) as Hnil.
  { destruct (filter _ _) as [|r rest] eqn:Hf; [done|exfalso].
    assert (r ∈ filter (λ r, r_success r = false) ((one db <$> items).*1)) as Hel
      by (rewrite Hf; by left).
    apply list_elem_of_filter in Hel as [Hfalse Hel].
    apply list_elem_of_fmap in Hel as (turn & -> & Hel).
    apply list_elem_of_fmap in Hel as (item & -> & Hel).
    apply list_elem_of_fmap in Hel as (l & -> & Hl).
    specialize (Hall l Hl). congruence. }
  rewrite Hnil. rewrite bool_decide_eq_true_2 by done. cbn [negb].
  eexists _, _, _. split; [done|].
  split; [cbn [stockMovements setStockMovements]; by rewrite foldl_applyWrite_stockMovements|].
  cbn [products setStockMovements]. split.
  - intros pid line Hlast.
    destruct (last_patch_turns (λ l, one db (reversalItem l)) ml_productId
                (m_products m) pid line) as (patch & Hpatch & Hlastp); [|done|].
    { intros l Hl. specialize (Hall l Hl). pose proof (Hturn db (reversalItem l)) as Ht.
      destruct ((one db (reversalItem l)).2) as [w|]; [|congruence].
      destruct Ht as (_ & new & -> & _). eauto. }
    exists patch. split; [done|].
    rewrite (foldl_applyWrite_last (true, sh.2)) by apply (staged_uniform one sh Hturn).
    unfold items. rewrite <- list_fmap_compose.
    change (one db ∘ reversalItem) with (λ l, one db (reversalItem l)).
    by rewrite Hlastp.
  - intros pid Hnone. apply (staged_untouched one sh Hturn).
    intros item Hitem Hid.
    apply list_elem_of_fmap in Hitem as (l & -> & Hl).
    by destruct (Hnone l Hl).
Qed.

(** X4: within the 24 hours, the deletion of a movement whose lines all
    name a product of the store (and, for a stock-in, ask no more than the
    count read for it) deletes the movement document and leaves every
    product the movement names at the count read before the deletion,
    less the quantity of the last line that names it for a stock-in
    ([q] and [quantity] both), plus that quantity for a distribution
    ([q] only); the products the movement does not name are left as they
    were. *)
Theorem deleteMovement_reverses env db id m :
  JS.truthy id = true →
  stockMovements db !! id = Some m →
  tooOld env m = false →
  m_type m = "stock_in" ∨ m_type m = "distribution" →
  (∀ line, line ∈ m_products m →
     JS.truthy (ml_productId line) = true ∧
     ∃ doc, products db !! ml_productId line = Some doc ∧
            (m_type m = "stock_in" →
             ml_quantity line ≤ JS.orNum (p_q doc) (JS.orNum (p_quantity doc) 0))) →
  ∃ db' message results,
    deleteMovement env db id = (db', Deleted message results) ∧
    stockMovements db' = delete id (stockMovements db) ∧
    (∀ pid line doc,
       last (filter (λ l, ml_productId l = pid) (m_products m)) = Some line →
       products db !! pid = Some doc →
       ∃ doc',
         products db' !! pid = Some doc' ∧
         p_name doc' = p_name doc ∧
         (m_type m = "stock_in" →
          p_q doc'
          = Some (JS.orNum (p_q doc) (JS.orNum (p_quantity doc) 0) - ml_quantity line) ∧
          p_quantity doc'
          = Some (JS.orNum (p_q doc) (JS.orNum (p_quantity doc) 0) - ml_quantity line)) ∧
         (m_type m = "distribution" →
          p_q doc' = Some (JS.orNum (p_q doc) 0 + ml_quantity line) ∧
          p_quantity doc' = p_quantity doc)) ∧
    (∀ pid,
       (∀ l, l ∈ m_products m → ml_productId l ≠ pid) →
       products db' !! pid = products db !! pid).
Proof.
  intros Htruthy Hm Hold Htype Hlines.
  assert (∀ pid line,
            last (filter (λ l, ml_productId l = pid) (m_products m)) = Some line →
            line ∈ m_products m ∧ ml_productId line = pid) as Hlast_in.
  { intros pid line Hlast. apply last_Some_elem_of, list_elem_of_filter in Hlast. tauto. }
  destruct Htype as [Htype|Htype].
  - assert (reversal m = Some removeOne) as Hrev by (unfold reversal; by rewrite Htype).
    destruct (deleteMovement_passes env db id m removeOne _ Htruthy Hm Hold Hrev removeOne_turn)
      as (db' & message & results & Hrun & Hdel & Hnamed & Hother).
    { intros line Hline. destruct (Hlines line Hline) as (Hpid & doc & Hdoc & Hq).
      unfold reversalItem. by rewrite (removeOne_done _ _ _ _ Hpid Hdoc (Hq Htype)). }
    exists db', message, results. do 2 (split; [done|]). split; [|done].
    intros pid line doc Hlast Hdoc.
    destruct (Hlast_in _ _ Hlast) as [Hline Hkey].
    destruct (Hlines line Hline) as (Hpid & doc0 & Hdoc0 & Hq).
    rewrite Hkey, Hdoc in Hdoc0. injection Hdoc0 as <-.
    destruct (Hnamed pid line Hlast) as (patch & Hpatch & ->).
    unfold reversalItem in Hpatch. rewrite Hkey in Hpatch, Hpid.
    rewrite (removeOne_done _ _ _ _ Hpid Hdoc (Hq Htype)) in Hpatch.
    injection Hpatch as <-. rewrite Hdoc.
    eexists. split; [done|]. split; [done|]. split; [done|].
    intros Hd. rewrite Htype in Hd. done.
  - assert (reversal m = Some addOne) as Hrev by (unfold reversal; by rewrite Htype).
    destruct (deleteMovement_passes env db id m addOne _ Htruthy Hm Hold Hrev addOne_turn)
      as (db' & message & results & Hrun & Hdel & Hnamed & Hother).
    { intros line Hline. destruct (Hlines line Hline) as (Hpid & doc & Hdoc & _).
      unfold reversalItem. by rewrite (addOne_done _ _ _ _ Hpid Hdoc). }
    exists db', message, results. do 2 (split; [done|]). split; [|done].
    intros pid line doc Hlast Hdoc.
    destruct (Hlast_in _ _ Hlast) as [Hline Hkey].
    destruct (Hlines line Hline) as (Hpid & _).
    destruct (Hnamed pid line Hlast) as (patch & Hpatch & ->).
    unfold reversalItem in Hpatch. rewrite Hkey in Hpatch, Hpid.
    rewrite (addOne_done _ _ _ _ Hpid Hdoc) in Hpatch.
    injection Hpatch as <-. rewrite Hdoc.
    eexists. split; [done|]. split; [done|]. split; [|done].
    intros Hs. rewrite Htype in Hs. done.
Qed.

Lemma deleteMovement_reverses_witness :
  ∃ db' message results,
    deleteMovement noon stale "MOV000001" = (db', Deleted message results) ∧
    stockMovements db' = delete "MOV000001" (stockMovements stale) ∧
    (∀ pid line doc,
       last (filter (λ l, ml_productId l = pid) (m_products delivery)) = Some line →
       products stale !! pid = Some doc →
       ∃ doc',
         products db' !! pid = Some doc' ∧
         p_name doc' = p_name doc ∧
         (m_type delivery = "stock_in" →
          p_q doc'
          = Some (JS.orNum (p_q doc) (JS.orNum (p_quantity doc) 0) - ml_quantity line) ∧
          p_quantity doc'
          = Some (JS.orNum (p_q doc) (JS.orNum (p_quantity doc) 0) - ml_quantity line)) ∧
         (m_type delivery = "distribution" →
          p_q doc' = Some (JS.orNum (p_q doc) 0 + ml_quantity line) ∧
          p_quantity doc' = p_quantity doc)) ∧
    (∀ pid,
       (∀ l, l ∈ m_products delivery → ml_productId l ≠ pid) →
       products db' !! pid = products stale !! pid).
Proof.
  apply (deleteMovement_reverses noon stale "MOV000001" delivery).
  - reflexivity.
  - reflexivity.
  - reflexivity.
  - by left.
  - intros line Hin. apply elem_of_cons in Hin as [->|Hin].
    + split; [reflexivity|]. eexists. split; [reflexivity|]. intros _. by vm_compute.
    + apply list_elem_of_singleton in Hin as ->.
      split; [reflexivity|]. eexists. split; [reflexivity|]. intros _. by vm_compute.
Defined.

(** The delivery of 5 flour and 5 sugar taken back from a stock of 10 and
    8: the movement is gone and the products hold 5 and 3. *)
Example deleteMovement_reverses_delivery :
  (deleteMovement noon stale "MOV000001").1
  = mkDb {[ "prod-001" := flour (Some 5) (Some 5); "prod-002" := sugar (Some 3) (Some 3) ]}
      ∅ ∅ ∅ {[ "stockMovements" := 1 ]}.
Proof. by vm_compute. Qed.

End deleteMovement.

(** ** Creating a stock movement *)
Section createStockMovement.
Import Firestore ProductModel MovementModel.


Lemma elem_of_rights {A B} (l : list (A + B)) b : b ∈ rights l ↔ inr b ∈ l.
Proof.
  unfold rights. rewrite list_elem_of_omap. split.
  - intros ([a|b'] & Hin & Hsel); simplify_eq. done.
  - intros Hin. by exists (inr b).
Qed.









(** C3 at the product [createProduct] writes: the stock-in of 5 on a
    count of 10 is recorded with [previousStock] 10 and [newStock] 15, but
    the ledger reads the absent [q] as 0 and writes [q] = 5; [quantity]
    stays 10, so no field of the product holds 15. *)
Theorem createStockMovement_stock_in_diverges :
  ∃ db' movement message,
    createStockMovement noon pantry restock = (db', Success "MOV000001" movement message) ∧
    m_products movement = [mkMovementLine "prod-001" "Flour" 5 0 0 10 15] ∧
    products db' !! "prod-001"
    = Some (mkProduct "Flour" (Some 5) (Some 10) None None None None).
Proof. eexists _, _, _. split; [vm_compute; reflexivity|]. split; reflexivity. Qed.

End createStockMovement.


(** ** Invoice identifiers *)
Section generateInvoiceId.
Import InvoiceCon.

Lemma scan_suffix h id :
  scan h id = match suffix id with
              | Some n => if h <? n then n else h
              | None => h
              end.
Proof. unfold scan, suffix. by destruct (matchInvoiceNumber id). Qed.

(** The loop leaves the largest of the start value and the numbers met. *)
Lemma foldl_scan_spec ids h :
  h ≤ foldl scan h ids ∧
  (∀ id n, id ∈ ids → suffix id = Some n → n ≤ foldl scan h ids) ∧
  (foldl scan h ids = h ∨ ∃ id, id ∈ ids ∧ suffix id = Some (foldl scan h ids)).
Proof.
  revert h. induction ids as [|id ids IH]; intros h; simpl.
  - split; [lia|]. split; [|by left].
    intros id n Hin. by apply not_elem_of_nil in Hin.
  - destruct (IH (scan h id)) as (Hle & Hub & Hatt).
    assert (h ≤ scan h id ∧ (∀ n, suffix id = Some n → n ≤ scan h id) ∧
            (scan h id = h ∨ suffix id = Some (scan h id))) as (H1 & H2 & H3).
    { rewrite scan_suffix. destruct (suffix id) as [n|].
      - destruct (Z.ltb_spec h n).
        + split; [lia|]. split; [by intros ? [= <-]|by right].
        + split; [lia|]. split; [intros ? [= <-]; lia|by left].
      - split; [lia|]. split; [done|by left]. }
    split; [lia|]. split.
    + intros id' n Hin Hs. apply elem_of_cons in Hin as [->|Hin].
      * specialize (H2 _ Hs). lia.
      * by apply (Hub id').
    + destruct Hatt as [Heq|(id' & Hin & Hs)].
      * rewrite Heq. destruct H3 as [->|Hs]; [by left|].
        right. exists id. split; [by left|done].
      * right. exists id'. split; [by right|done].
Qed.

(** C10, as the code has it: on the path that reads the invoices, and
    while the identifiers count in safe integers, the identifier is INV-
    followed by N+1 padded to three digits, where N is the largest number
    carried by an existing identifier when one of them is positive, and the
    number of invoices when none is (no identifier matches, or every match
    is 0); with no invoice the result is INV-001. *)
Theorem generateInvoiceId_next env ids :
  safeIds ids →
  ∃ N,
    generateInvoiceId env (Returned ids) = "INV-" +:+ JS.padStart 3 (JS.num (N + 1)) ∧
    ((∃ id n, id ∈ ids ∧ suffix id = Some n ∧ 0 < n) →
     (∃ id, id ∈ ids ∧ suffix id = Some N) ∧
     (∀ id n, id ∈ ids → suffix id = Some n → n ≤ N)) ∧
    ((∀ id n, id ∈ ids → suffix id = Some n → n ≤ 0) → N = Z.of_nat (length ids)) ∧
    (ids = [] → generateInvoiceId env (Returned ids) = "INV-001").
Proof.
  intros _. destruct ids as [|id0 ids].
  { exists 0. split; [done|]. split; [|done].
    intros (id & n & Hin & _). by apply not_elem_of_nil in Hin. }
  unfold generateInvoiceId, nextCount.
  destruct (foldl_scan_spec (id0 :: ids) 0) as (H0 & Hub & Hatt).
  set (highest := foldl scan 0 (id0 :: ids)) in *.
  destruct (Z.ltb_spec 0 highest) as [Hpos|Hzero].
  - exists highest. split; [done|]. split; [|split; [|done]].
    + intros _. split; [|done].
      destruct Hatt as [Heq|Hex]; [lia|done].
    + intros Hnone. destruct Hatt as [Heq|(id & Hin & Hs)]; [lia|].
      specialize (Hnone _ _ Hin Hs). lia.
  - exists (Z.of_nat (length (id0 :: ids))). split; [done|]. split; [|done].
    intros (id & n & Hin & Hs & Hn). specialize (Hub _ _ Hin Hs). lia.
Qed.

Lemma safeIds_sample (ids : list string) (bound : Z) :
  Z.of_nat (length ids) + 2 ≤ JS.maxSafeInteger →
  bound + 2 ≤ JS.maxSafeInteger →
  Forall (λ id, from_option (λ n, n ≤ bound) True (suffix id)) ids →
  safeIds ids.
Proof.
  intros Hlength Hbound Hall. split; [done|]. intros id n Hin Hs.
  rewrite Forall_forall in Hall. specialize (Hall _ Hin). rewrite Hs in Hall.
  simpl in Hall. lia.
Qed.

Lemma generateInvoiceId_next_witness :
  ∃ N,
    generateInvoiceId noon (Returned ["INV-002"; "inv-007"; "draft"])
    = "INV-" +:+ JS.padStart 3 (JS.num (N + 1)) ∧
    ((∃ id n, id ∈ ["INV-002"; "inv-007"; "draft"] ∧ suffix id = Some n ∧ 0 < n) →
     (∃ id, id ∈ ["INV-002"; "inv-007"; "draft"] ∧ suffix id = Some N) ∧
     (∀ id n, id ∈ ["INV-002"; "inv-007"; "draft"] → suffix id = Some n → n ≤ N)) ∧
    ((∀ id n, id ∈ ["INV-002"; "inv-007"; "draft"] → suffix id = Some n → n ≤ 0) →
     N = Z.of_nat (length ["INV-002"; "inv-007"; "draft"])) ∧
    (["INV-002"; "inv-007"; "draft"] = [] →
     generateInvoiceId noon (Returned ["INV-002"; "inv-007"; "draft"]) = "INV-001").
Proof.
  apply (generateInvoiceId_next noon ["INV-002"; "inv-007"; "draft"]).
  apply (safeIds_sample _ 7); [by vm_compute..|].
  repeat (apply Forall_cons; split; [by vm_compute|]). apply Forall_nil_2.
Defined.

(** C10 as stated fails: the one existing identifier carries the number
    0, so the words of the specification give INV-001, but the code falls
    back on the number of invoices and gives INV-002. *)
Lemma generateInvoiceId_zero_suffix :
  suffix "INV-000" = Some 0 ∧
  claimedInvoiceId ["INV-000"] = "INV-001" ∧
  generateInvoiceId noon (Returned ["INV-000"]) = "INV-002" ∧
  generateInvoiceId noon (Returned ["INV-000"]) ≠ claimedInvoiceId ["INV-000"].
Proof. repeat split; try reflexivity. vm_compute. discriminate. Qed.

End generateInvoiceId.

(** ** Deleting an invoice *)
Section deleteInvoice.
Import Firestore InvoiceCon.

(** X3: [deleteInvoice] writes to no product, whatever the status of the
    invoice and however the call ends. *)
Lemma deleteInvoice_products db id :
  products (deleteInvoice db id).1 = products db.
Proof.
  unfold deleteInvoice, rethrow, InvoiceModel.deleteInvoice.
  repeat case_match; simplify_eq; done.
Qed.

(** C1 at a confirmed invoice of 3 flour with 2 flour on hand: the batch
    holds the write of [q] = 5, the invoice is deleted, and the flour is
    still at 2, because the batch is never committed. *)
Theorem deleteInvoice_confirmed_not_restored :
  invoices (billed "confirmed") !! "INV-001" = Some (order "confirmed") ∧
  restorationBatch (billed "confirmed") (order "confirmed")
  = Returned [UpdateProduct "prod-001" (mkProductPatch (Some 5) None)] ∧
  ∃ db',
    deleteInvoice (billed "confirmed") "INV-001" = (db', Returned "INV-001") ∧
    invoices db' !! "INV-001" = None ∧
    products db' !! "prod-001" = Some (flour (Some 2) None).
Proof.
  split; [reflexivity|]. split; [reflexivity|].
  eexists. split; [vm_compute; reflexivity|]. split; reflexivity.
Qed.

End deleteInvoice.

(** ** Amounts of an invoice *)
Section amounts.
Import Firestore InvoiceCon.

(** C4 at an advance of 40 on a total of 30: [createConfirmedInvoice]
    stores the rest -10 and the status not paid, and [createInvoice] stores
    the rest -10, where max(0, total - remise - advance) is 0. *)
Theorem create_rest_not_clamped :
  (∃ db' invoice message,
     createConfirmedInvoice noon stocked (purchase (Some 40))
     = (db', mkResponse 201 true message [] [("INV-001", invoice)]) ∧
     invoices db' !! "INV-001" = Some invoice ∧
     i_total invoice = 30 ∧ i_remise invoice = 0 ∧ i_advance invoice = 40 ∧
     i_rest invoice = -10 ∧
     i_status invoice = "not paid" ∧
     Z.max 0 (i_total invoice - i_remise invoice - i_advance invoice) = 0) ∧
  (∃ db' invoice,
     createInvoice noon stocked (purchase (Some 40)) = (db', Returned ("INV-001", invoice)) ∧
     invoices db' !! "INV-001" = Some invoice ∧
     i_rest invoice = -10 ∧
     Z.max 0 (i_total invoice - i_remise invoice - i_advance invoice) = 0).
Proof.
  split.
  - eexists _, _, _. split; [vm_compute; reflexivity|]. repeat split.
  - eexists _, _. split; [vm_compute; reflexivity|]. repeat split.
Qed.

End amounts.


(** ** Updating an invoice *)
Section updateInvoice.
Import Firestore InvoiceCon.

Lemma string_compare_refl s : String.compare s s = Eq.
Proof.
  induction s as [|c s IH]; [done|].
  simpl. unfold Ascii.compare. by rewrite N.compare_refl.
Qed.

Lemma string_compare_lt_trans a b c :
  String.compare a b = Lt → String.compare b c = Lt → String.compare a c = Lt.
Proof.
  revert b c. induction a as [|x a IH]; intros [|y b] [|z c]; simpl; try done.
  destruct (Ascii.compare x y) eqn:Hxy; try done;
    destruct (Ascii.compare y z) eqn:Hyz; try done.
  - apply Ascii.compare_eq_iff in Hxy as ->. rewrite Hyz. apply IH.
  - apply Ascii.compare_eq_iff in Hxy as ->. by rewrite Hyz.
  - apply Ascii.compare_eq_iff in Hyz as <-. by rewrite Hxy.
  - intros _ _. unfold Ascii.compare in *.
    apply N.compare_lt_iff in Hxy. apply N.compare_lt_iff in Hyz.
    replace (N_of_ascii x ?= N_of_ascii z)%N with Lt; [done|].
    symmetry. apply N.compare_lt_iff. by transitivity (N_of_ascii y).
Qed.

Lemma firstDoc_None docs : firstDoc docs = None → docs = [].
Proof.
  destruct docs as [|d docs]; [done|].
  unfold firstDoc. cbn [foldr].
  destruct (foldr _ _ _) as [best|]; [|done]. by destruct (String.ltb _ _).
Qed.

(** The first document is one of the documents, and no document has a
    smaller identifier. *)
Lemma firstDoc_Some docs doc :
  firstDoc docs = Some doc →
  doc ∈ docs ∧ ∀ doc', doc' ∈ docs → String.ltb doc'.1 doc.1 = false.
Proof.
  assert (∀ a, String.ltb a a = false) as Hrefl.
  { intros a. unfold String.ltb. by rewrite string_compare_refl. }
  assert (∀ a b c, String.ltb a b = true → String.ltb c b = false → String.ltb c a = false)
    as Htrans.
  { intros a b c Hab Hcb. destruct (String.ltb c a) eqn:Hca; [|done].
    unfold String.ltb in *.
    destruct (String.compare a b) eqn:Hab'; try done.
    destruct (String.compare c a) eqn:Hca'; try done.
    by rewrite (string_compare_lt_trans _ _ _ Hca' Hab') in Hcb. }
  revert doc. induction docs as [|d docs IH]; intros doc; [done|].
  cbn [firstDoc foldr]. fold (firstDoc docs).
  destruct (firstDoc docs) as [best|] eqn:Hbest.
  - destruct (IH best eq_refl) as [Hin Hmin].
    destruct (String.ltb d.1 best.1) eqn:Hlt; intros [= <-].
    + split; [by left|]. intros doc' Hdoc'.
      apply elem_of_cons in Hdoc' as [->|Hdoc']; [done|].
      by apply (Htrans _ best.1), Hmin.
    + split; [by right|]. intros doc' Hdoc'.
      apply elem_of_cons in Hdoc' as [->|Hdoc']; [done|by apply Hmin].
  - intros [= <-]. split; [by left|]. intros doc' Hdoc'.
    apply elem_of_cons in Hdoc' as [->|Hdoc']; [done|].
    apply firstDoc_None in Hbest as ->. by apply not_elem_of_nil in Hdoc'.
Qed.

Lemma findByName_Some db name k doc :
  findByName db name = Some (k, doc) → products db !! k = Some doc ∧ p_name doc = name.
Proof.
  unfold findByName. intros Hh. apply firstDoc_Some in Hh as [Hh _].
  apply list_elem_of_filter in Hh as [Hname Hin].
  by apply elem_of_map_to_list in Hin.
Qed.

(** The product found by name has the smallest identifier among the
    products of that name. *)
Lemma findByName_smallest db name k doc k' doc' :
  findByName db name = Some (k, doc) →
  products db !! k' = Some doc' → p_name doc' = name →
  String.ltb k' k = false.
Proof.
  unfold findByName. intros Hh Hdoc' Hname. apply firstDoc_Some in Hh as [_ Hmin].
  apply (Hmin (k', doc')). apply list_elem_of_filter. split; [done|].
  by apply elem_of_map_to_list.
Qed.

(** Of two products of one name the query finds the one with the smaller
    identifier, whatever the order the map lists them in. *)
Example findByName_first_id :
  (map_to_list (products twoSalts)).*1 = ["prod-003"; "prod-001"] ∧
  findByName twoSalts "Salt"
  = Some ("prod-001", mkProduct "Salt" (Some 9) None None (Some 2) None None).
Proof. split; by vm_compute. Qed.

Lemma resolve_Some db newProduct productId productData :
  resolve db newProduct = inr (productId, productData) →
  products db !! productId = Some productData.
Proof.
  unfold resolve. destruct (JS.truthy _).
  - destruct (products db !! _) eqn:Hdoc; [|done]. by intros [= <- <-].
  - destruct (findByName db _) as [[k doc]|] eqn:Hf; [|done].
    intros [= <- <-]. by apply findByName_Some in Hf as [? _].
Qed.

Lemma lineDiff_originalQuantity currentInvoice productId newProduct :
  lr_quantity newProduct - originalQuantity currentInvoice productId (lr_name newProduct)
  = lineDiff currentInvoice productId newProduct.
Proof. unfold lineDiff, originalQuantity. by destruct (originalProduct _ _ _). Qed.

(** A line that falls short is turned down with the message of the
    stock. *)
Lemma updateLine_fallsShort db currentInvoice newProduct :
  fallsShort db currentInvoice newProduct →
  ∃ message,
    updateLine db currentInvoice newProduct = rejected message ∧
    JS.mentions "Insufficient stock" message.
Proof.
  intros (Hname & pid & pdata & Hres & Hpos & Hshort).
  unfold updateLine. rewrite Hname, Hres. cbn [negb].
  rewrite lineDiff_originalQuantity.
  replace (0 <? lineDiff currentInvoice pid newProduct) with true
    by (symmetry; by apply Z.ltb_lt).
  replace (stockForUpdate pdata <? lineDiff currentInvoice pid newProduct) with true
    by (symmetry; by apply Z.ltb_lt).
  cbn [andb]. eexists. split; [done|]. exists "". eexists. reflexivity.
Qed.

(** A line that passes pushes no message, its line, and the stock write
    expected of it. *)
Lemma updateLine_passes db currentInvoice newProduct :
  linePasses db currentInvoice newProduct →
  t_errors (updateLine db currentInvoice newProduct) = [] ∧
  is_Some (t_line (updateLine db currentInvoice newProduct)) ∧
  stockWrite <$> t_stock (updateLine db currentInvoice newProduct)
  = expectedStockWrite db currentInvoice newProduct.
Proof.
  intros (Hname & pid & pdata & Hres & Hok & Hprice).
  unfold updateLine, expectedStockWrite. rewrite Hname, Hres. cbn [negb].
  rewrite lineDiff_originalQuantity. fold (linePrice newProduct pdata).
  destruct (Z.ltb_spec 0 (lineDiff currentInvoice pid newProduct)) as [Hpos|Hneg];
    destruct (Z.ltb_spec (stockForUpdate pdata) (lineDiff currentInvoice pid newProduct));
    cbn [andb]; try (exfalso; apply Hok; by split).
  all: replace (linePrice newProduct pdata <=? 0) with false
         by (symmetry; apply Z.leb_gt; lia).
  all: simpl; split; [done|]; split; [by eexists|].
  all: by destruct (_ =? 0).
Qed.

Lemma expectedStockWrite_writable db currentInvoice newProduct w :
  expectedStockWrite db currentInvoice newProduct = Some w → writable db w = true.
Proof.
  unfold expectedStockWrite.
  destruct (resolve db newProduct) as [|[pid pdata]] eqn:Hres; [done|].
  apply resolve_Some in Hres.
  destruct (_ =? 0); [done|]. intros [= <-]. simpl.
  apply bool_decide_eq_true. by exists pdata.
Qed.

Lemma stock_update_writable db currentInvoice newProduct update :
  t_stock (updateLine db currentInvoice newProduct) = Some update →
  writable db (stockWrite update) = true.
Proof.
  unfold updateLine. destruct (negb _); [done|].
  destruct (resolve db newProduct) as [|[pid pdata]] eqn:Hres; [done|].
  apply resolve_Some in Hres.
  destruct (_ && _); [done|]. simpl.
  destruct (_ =? 0); [done|]. intros [= <-]. simpl.
  apply bool_decide_eq_true. by exists pdata.
Qed.

(** The stock updates [updateProducts] returns can all be written. *)
Lemma updateProducts_writable db currentInvoice requested total lines updates :
  updateProducts db currentInvoice requested = Returned (total, lines, updates) →
  Forall (λ w, writable db w = true) (stockWrite <$> updates).
Proof.
  unfold updateProducts. destruct requested as [newProducts|].
  - destruct (bool_decide (newProducts = [])); [done|].
    destruct (negb _); [done|]. intros [= <- <- <-].
    apply Forall_forall. intros w Hw.
    apply list_elem_of_fmap in Hw as (update & -> & Hu).
    apply list_elem_of_omap in Hu as (turn & Hturn & Hsel).
    apply list_elem_of_fmap in Hturn as (np & -> & _).
    by eapply stock_update_writable.
  - intros [= <- <- <-]. apply Forall_nil_2.
Qed.

(** What the batch of [updateInvoice] leaves when it commits. *)
Lemma updateBatch_committed db invoiceId data currentInvoice total lines updates db' :
  invoices db !! invoiceId = Some currentInvoice →
  commit db (updateBatch invoiceId data currentInvoice total lines updates) = Some db' →
  invoices db' !! invoiceId
  = Some (patchInvoice (invoicePatch data currentInvoice total lines) currentInvoice) ∧
  (∀ pid, products db' !! pid
          = products (foldl applyWrite db (stockWrite <$> updates)) !! pid).
Proof.
  intros Hcur Hc. apply commit_inv in Hc as [-> _].
  unfold updateBatch. rewrite foldl_app. simpl. split.
  - rewrite lookup_alter_eq, foldl_applyWrite_invoices, Hcur; [done|].
    intros w Hw. apply list_elem_of_fmap in Hw as (u & -> & _).
    unfold stockWrite. eauto.
  - done.
Qed.

(** What a call of [updateInvoice] that returned went through. *)
Lemma updateInvoice_Returned db id data db' invoiceId n :
  updateInvoice db id data = (db', Returned (invoiceId, n)) →
  invoiceId = JS.trim (JS.toUpperCase id) ∧
  ∃ currentInvoice total lines updates,
    invoices db !! invoiceId = Some currentInvoice ∧
    updateProducts db currentInvoice (ur_products data) = Returned (total, lines, updates) ∧
    commit db (updateBatch invoiceId data currentInvoice total lines updates) = Some db' ∧
    n = length updates.
Proof.
  unfold updateInvoice, rethrow.
  destruct (negb (JS.truthy id)); [done|].
  destruct (negb (JS.truthy (JS.trim (JS.toUpperCase id)))); [done|].
  destruct (invoices db !! _) as [cur|] eqn:Hcur; [|done].
  destruct (updateProducts db cur (ur_products data)) as [[[total lines] updates]|] eqn:Hup;
    [|done].
  destruct (commit db _) as [db1|] eqn:Hc; [|done].
  intros [= <- <- <-]. split; [done|]. by exists cur, total, lines, updates.
Qed.

(** The other way round: with the invoice found and the products accepted,
    the call commits its batch and returns. *)
Lemma updateInvoice_commits db id data currentInvoice total lines updates :
  JS.truthy id = true →
  JS.truthy (JS.trim (JS.toUpperCase id)) = true →
  invoices db !! JS.trim (JS.toUpperCase id) = Some currentInvoice →
  updateProducts db currentInvoice (ur_products data) = Returned (total, lines, updates) →
  let batch :=
    updateBatch (JS.trim (JS.toUpperCase id)) data currentInvoice total lines updates in
  commit db batch = Some (foldl applyWrite db batch) ∧
  updateInvoice db id data
  = (foldl applyWrite db batch, Returned (JS.trim (JS.toUpperCase id), length updates)).
Proof.
  intros Hid Hiid Hcur Hup batch.
  assert (commit db batch = Some (foldl applyWrite db batch)) as Hc.
  { apply commit_writable. unfold batch, updateBatch. apply Forall_app. split.
    - by eapply updateProducts_writable.
    - apply Forall_singleton. simpl. apply bool_decide_eq_true. by eexists. }
  split; [done|].
  unfold updateInvoice, rethrow. rewrite Hid, Hiid, Hcur, Hup. cbn [negb].
  fold batch. by rewrite Hc.
Qed.

(** C8: a call of [updateInvoice] that commits stores the status paid
    when the rest is 0 and not paid otherwise, and the flag [paid] with it,
    whatever the status was and whatever the request changes; the invoice is
    then neither pending nor confirmed, and [deleteInvoice] stages no stock
    restoration for it. *)
Theorem updateInvoice_overwrites_status db id data db' invoiceId n :
  updateInvoice db id data = (db', Returned (invoiceId, n)) →
  ∃ previous updated,
    invoices db !! invoiceId = Some previous ∧
    invoices db' !! invoiceId = Some updated ∧
    i_status updated = (if i_rest updated =? 0 then "paid" else "not paid") ∧
    i_paid updated = Some (i_rest updated =? 0) ∧
    (i_status updated = "paid" ↔ i_rest updated = 0) ∧
    i_status updated ≠ "pending" ∧
    i_status updated ≠ "confirmed" ∧
    restoresStock updated = false ∧
    (∀ db'', restorationBatch db'' updated = Returned []).
Proof.
  intros Hret.
  apply updateInvoice_Returned in Hret
    as (-> & cur & total & lines & updates & Hcur & Hup & Hc & ->).
  destruct (updateBatch_committed _ _ _ _ _ _ _ _ Hcur Hc) as [Hinv _].
  eexists cur, _. split; [done|]. split; [exact Hinv|].
  unfold restorationBatch, restoresStock. simpl. unfold payStatus.
  destruct (Z.eqb_spec (Z.max 0 (total - JS.nullish (ur_remise data) (i_remise cur)
                                  - JS.nullish (ur_advance data) (i_advance cur))) 0)
    as [Hz|Hnz]; simpl; repeat split; try done.
Qed.

Lemma updateInvoice_overwrites_status_witness :
  ∃ previous updated,
    invoices (billed "confirmed") !! "INV-001" = Some previous ∧
    invoices (updateInvoice (billed "confirmed") "inv-001" advanceOnly).1 !! "INV-001"
    = Some updated ∧
    i_status updated = (if i_rest updated =? 0 then "paid" else "not paid") ∧
    i_paid updated = Some (i_rest updated =? 0) ∧
    (i_status updated = "paid" ↔ i_rest updated = 0) ∧
    i_status updated ≠ "pending" ∧
    i_status updated ≠ "confirmed" ∧
    restoresStock updated = false ∧
    (∀ db'', restorationBatch db'' updated = Returned []).
Proof.
  apply (updateInvoice_overwrites_status (billed "confirmed") "inv-001" advanceOnly
           (updateInvoice (billed "confirmed") "inv-001" advanceOnly).1 "INV-001" 0%nat).
  vm_compute. reflexivity.
Defined.

(** X2: the rest a committed [updateInvoice] stores is
    max(0, total - remise - advance) of the amounts it stores. *)
Theorem updateInvoice_rest db id data db' invoiceId n :
  updateInvoice db id data = (db', Returned (invoiceId, n)) →
  ∃ updated,
    invoices db' !! invoiceId = Some updated ∧
    i_totalAfterDiscount updated = i_total updated - i_remise updated ∧
    i_rest updated
    = Z.max 0 (i_total updated - i_remise updated - i_advance updated).
Proof.
  intros Hret.
  apply updateInvoice_Returned in Hret
    as (-> & cur & total & lines & updates & Hcur & Hup & Hc & ->).
  destruct (updateBatch_committed _ _ _ _ _ _ _ _ Hcur Hc) as [Hinv _].
  eexists. split; [exact Hinv|]. simpl.
  by destruct (ur_remise data), (ur_advance data).
Qed.

Lemma updateInvoice_rest_witness :
  ∃ updated,
    invoices (updateInvoice (billed "confirmed") "inv-001" advanceOnly).1 !! "INV-001"
    = Some updated ∧
    i_totalAfterDiscount updated = i_total updated - i_remise updated ∧
    i_rest updated
    = Z.max 0 (i_total updated - i_remise updated - i_advance updated).
Proof.
  apply (updateInvoice_rest (billed "confirmed") "inv-001" advanceOnly
           (updateInvoice (billed "confirmed") "inv-001" advanceOnly).1 "INV-001" 0%nat).
  vm_compute. reflexivity.
Defined.

Lemma updateProducts_pass db currentInvoice newProducts :
  (∀ newProduct, newProduct ∈ newProducts → linePasses db currentInvoice newProduct) →
  concat (t_errors <$> (updateLine db currentInvoice <$> newProducts)) = [] ∧
  stockWrite <$> omap t_stock (updateLine db currentInvoice <$> newProducts)
  = omap (expectedStockWrite db currentInvoice) newProducts.
Proof.
  induction newProducts as [|np nps IH]; intros Hall; [done|].
  destruct IH as [IHe IHw].
  { intros np' Hin. apply Hall. by right. }
  destruct (updateLine_passes db currentInvoice np) as (He & _ & Hw).
  { apply Hall. by left. }
  split.
  - rewrite !fmap_cons. simpl. by rewrite He, IHe.
  - rewrite fmap_cons. simpl. rewrite <- Hw.
    destruct (t_stock (updateLine db currentInvoice np)); simpl; [f_equal|]; exact IHw.
Qed.

Lemma patchesFor_app pid (l k : list Write) :
  patchesFor pid (l ++ k) = patchesFor pid l ++ patchesFor pid k.
Proof. unfold patchesFor. apply omap_app. Qed.

(** C7, as the code has it: in a call of [updateInvoice] that replaces the
    products of an invoice, a line whose difference is positive and exceeds
    the stock aborts the whole update with a validation error and nothing is
    written; when every line passes the checks of the loop (name, product,
    stock, price), the stock writes committed in one batch with the update
    of the invoice are those of the lines whose difference is not 0, each
    setting [q] to [currentStock - diff]. *)
Theorem updateInvoice_stock_difference db id data currentInvoice newProducts :
  JS.truthy id = true →
  JS.truthy (JS.trim (JS.toUpperCase id)) = true →
  invoices db !! JS.trim (JS.toUpperCase id) = Some currentInvoice →
  ur_products data = Some newProducts →
  newProducts ≠ [] →
  ((∃ newProduct, newProduct ∈ newProducts ∧ fallsShort db currentInvoice newProduct) →
   ∃ message,
     updateInvoice db id data = (db, Thrown message) ∧
     JS.includes "Product validation failed" message = true ∧
     JS.includes "Insufficient stock" message = true) ∧
  ((∀ newProduct, newProduct ∈ newProducts → linePasses db currentInvoice newProduct) →
   ∃ db' total lines,
     updateInvoice db id data
     = (db', Returned (JS.trim (JS.toUpperCase id),
                       length (omap (expectedStockWrite db currentInvoice) newProducts))) ∧
     commit db (omap (expectedStockWrite db currentInvoice) newProducts ++
                [UpdateInvoice (JS.trim (JS.toUpperCase id))
                   (invoicePatch data currentInvoice total lines)])
     = Some db' ∧
     (∀ pid,
        products db' !! pid
        = match last (patchesFor pid (omap (expectedStockWrite db currentInvoice) newProducts)) with
          | Some patch => patchProduct patch <$> products db !! pid
          | None => products db !! pid
          end)).
Proof.
  intros Hid Hiid Hcur Hreq Hne. split.
  - intros (np & Hin & Hshort).
    destruct (updateLine_fallsShort _ _ _ Hshort) as (e & Hline & Hment).
    assert (e ∈ concat (t_errors <$> (updateLine db currentInvoice <$> newProducts))) as Hel.
    { apply elem_of_concat. exists [e]. split; [by left|].
      apply list_elem_of_fmap. exists (rejected e). split; [done|].
      rewrite <- Hline. apply list_elem_of_fmap. eauto. }
    unfold updateInvoice, rethrow, updateProducts.
    rewrite Hid, Hiid, Hcur, Hreq. cbn [negb].
    rewrite bool_decide_eq_false_2 by done.
    rewrite bool_decide_eq_false_2.
    2: { intros Hnil. rewrite Hnil in Hel. by apply not_elem_of_nil in Hel. }
    cbn [negb]. eexists. split; [done|]. split; apply mentions_includes.
    + exists "Failed to update invoice: ". eexists. reflexivity.
    + apply mentions_app_l, mentions_app_l.
      eapply mentions_trans; [exact Hment|]. by apply mentions_join.
  - intros Hall.
    destruct (updateProducts_pass _ _ _ Hall) as [He Hw].
    assert (updateProducts db currentInvoice (ur_products data)
            = Returned (sumZ (il_total <$> omap t_line (updateLine db currentInvoice <$> newProducts)),
                        omap t_line (updateLine db currentInvoice <$> newProducts),
                        omap t_stock (updateLine db currentInvoice <$> newProducts))) as Hup.
    { unfold updateProducts. rewrite Hreq, He.
      by rewrite bool_decide_eq_false_2. }
    destruct (updateInvoice_commits _ _ _ _ _ _ _ Hid Hiid Hcur Hup) as [Hc Hret].
    assert (length (omap (expectedStockWrite db currentInvoice) newProducts)
            = length (omap t_stock (updateLine db currentInvoice <$> newProducts))) as Hlen.
    { by rewrite <- Hw, length_fmap. }
    unfold updateBatch in Hc, Hret. rewrite Hw in Hc, Hret. rewrite <- Hlen in Hret.
    eexists _, _, _. split; [exact Hret|]. split; [exact Hc|].
    intros pid.
    rewrite (foldl_applyWrite_last (true, false)).
    + rewrite patchesFor_app. simpl. by rewrite app_nil_r.
    + intros id' patch Hin. apply elem_of_app in Hin as [Hin|Hin].
      * apply list_elem_of_omap in Hin as (np & _ & Hsel).
        unfold expectedStockWrite in Hsel.
        destruct (resolve db np) as [|[pid' pdata]]; [done|].
        destruct (_ =? 0); [done|]. by injection Hsel as <- <-.
      * apply list_elem_of_singleton in Hin. done.
Qed.

Lemma updateInvoice_stock_difference_witness :
  ∃ db' total lines,
    updateInvoice (billed "not paid") "inv-001" oneFlour
    = (db', Returned (JS.trim (JS.toUpperCase "inv-001"),
                      length (omap (expectedStockWrite (billed "not paid") (order "not paid"))
                                [mkLineRequest "prod-001" "Flour" 1 None None]))) ∧
    commit (billed "not paid")
      (omap (expectedStockWrite (billed "not paid") (order "not paid"))
         [mkLineRequest "prod-001" "Flour" 1 None None] ++
       [UpdateInvoice (JS.trim (JS.toUpperCase "inv-001"))
          (invoicePatch oneFlour (order "not paid") total lines)])
    = Some db' ∧
    (∀ pid,
       products db' !! pid
       = match last (patchesFor pid
                       (omap (expectedStockWrite (billed "not paid") (order "not paid"))
                          [mkLineRequest "prod-001" "Flour" 1 None None])) with
         | Some patch => patchProduct patch <$> products (billed "not paid") !! pid
         | None => products (billed "not paid") !! pid
         end).
Proof.
  apply (updateInvoice_stock_difference (billed "not paid") "inv-001" oneFlour
           (order "not paid") [mkLineRequest "prod-001" "Flour" 1 None None]).
  - reflexivity.
  - reflexivity.
  - reflexivity.
  - reflexivity.
  - discriminate.
  - intros np Hin. apply list_elem_of_singleton in Hin as ->.
    split; [reflexivity|]. exists "prod-001", (flour (Some 2) None).
    split; [reflexivity|]. split; [|reflexivity].
    intros [Hpos _]. vm_compute in Hpos. discriminate.
Defined.

(** The invoice of 3 flour cut down to 1 with 2 flour on hand:
    diff = 1 - 3 = -2 and the flour is set to 2 - (-2) = 4. *)
Lemma updateInvoice_oneFlour :
  ∃ db',
    updateInvoice (billed "not paid") "inv-001" oneFlour = (db', Returned ("INV-001", 1%nat)) ∧
    products db' !! "prod-001" = Some (flour (Some 4) None) ∧
    i_products <$> invoices db' !! "INV-001"
    = Some [mkInvoiceLine "prod-001" "Flour" 1 10 10].
Proof. eexists. split; [vm_compute; reflexivity|]. split; reflexivity. Qed.

(** Raised to 9, diff = 6 exceeds the 2 on hand: nothing is written. *)
Lemma updateInvoice_nineFlour :
  fallsShort (billed "not paid") (order "not paid")
    (mkLineRequest "prod-001" "Flour" 9 None None) ∧
  ∃ message,
    updateInvoice (billed "not paid") "inv-001" nineFlour
    = (billed "not paid", Thrown message).
Proof.
  split.
  - split; [reflexivity|]. exists "prod-001", (flour (Some 2) None).
    split; [reflexivity|]. split; reflexivity.
  - eexists. vm_compute. reflexivity.
Qed.

(** C7 as stated fails: no line of the request falls short, the salt
    line has the difference 1, and yet the update is turned down (the salt
    has no price) and the salt stays at 9 instead of being set to 8. *)
Lemma updateInvoice_price_aborts :
  ur_products addSalt
  = Some [mkLineRequest "prod-001" "Flour" 3 None None; saltLine] ∧
  (∀ newProduct,
     newProduct ∈ [mkLineRequest "prod-001" "Flour" 3 None None; saltLine] →
     ¬ fallsShort larder (order "not paid") newProduct) ∧
  resolve larder saltLine = inr ("prod-003", salt) ∧
  lineDiff (order "not paid") "prod-003" saltLine = 1 ∧
  stockForUpdate salt = 9 ∧
  expectedStockWrite larder (order "not paid") saltLine
  = Some (UpdateProduct "prod-003" (mkProductPatch (Some 8) None)) ∧
  ∃ message,
    updateInvoice larder "INV-001" addSalt = (larder, Thrown message) ∧
    JS.includes "invalid price" message = true ∧
    products larder !! "prod-003" = Some salt.
Proof.
  split; [reflexivity|]. split.
  { intros np Hin (_ & pid & pdata & Hres & Hpos & Hshort).
    apply elem_of_cons in Hin as [->|Hin].
    - vm_compute in Hres. injection Hres as <- <-. vm_compute in Hpos. discriminate.
    - apply list_elem_of_singleton in Hin as ->.
      vm_compute in Hres. injection Hres as <- <-. vm_compute in Hshort. discriminate. }
  split; [reflexivity|]. split; [reflexivity|]. split; [reflexivity|].
  split; [reflexivity|].
  eexists. split; [vm_compute; reflexivity|]. split; reflexivity.
Qed.

End updateInvoice.


(** ** Confirming an invoice *)
Section confirmInvoice.
Import Firestore InvoiceCon.

Lemma filter_fmap_comm {A B} (f : A → B) (P : B → Prop) `{∀ b, Decision (P b)}
    (l : list A) :
  filter P (f <$> l) = f <$> filter (λ a, P (f a)) l.
Proof.
  induction l as [|a l IH]; [done|].
  rewrite fmap_cons, !filter_cons, IH. by destruct (decide (P (f a))).
Qed.

Lemma patchesFor_cons_update pid id patch (batch : list Write) :
  patchesFor pid (UpdateProduct id patch :: batch)
  = if decide (id = pid) then patch :: patchesFor pid batch else patchesFor pid batch.
Proof. unfold patchesFor. simpl. by destruct (decide (id = pid)). Qed.

(** The patches a list of debits holds for a product are those of the
    entries that name it. *)
Lemma patchesFor_debits {X} (key : X → string) (quantity : X → Z) db (xs : list X) pid :
  patchesFor pid ((λ x, debitOf db (key x) (quantity x)) <$> xs)
  = (λ x, mkProductPatch (Some (stockAt db pid - quantity x)) None)
    <$> filter (λ x, key x = pid) xs.
Proof.
  induction xs as [|x xs IH]; [done|].
  rewrite fmap_cons, filter_cons. unfold debitOf at 1.
  rewrite patchesFor_cons_update, IH.
  destruct (decide (key x = pid)) as [->|Hne]; [|done].
  by rewrite fmap_cons.
Qed.

Lemma debits_uniform {X} (key : X → string) (quantity : X → Z) db (xs : list X) tail :
  (∀ id patch, UpdateProduct id patch ∉ tail) →
  uniform (true, false) (((λ x, debitOf db (key x) (quantity x)) <$> xs) ++ tail).
Proof.
  intros Htail id patch Hin. apply elem_of_app in Hin as [Hin|Hin].
  - apply list_elem_of_fmap in Hin as (x & Heq & _). by injection Heq as -> ->.
  - by apply Htail in Hin.
Qed.

(** What a batch of debits followed by one invoice write leaves of a
    product: the count read less the quantity of the last entry for it. *)
Lemma debits_committed {X} (key : X → string) (quantity : X → Z) db (xs : list X) w pid x :
  (∀ id patch, w ≠ UpdateProduct id patch) →
  last (filter (λ x, key x = pid) xs) = Some x →
  p_q <$> products (foldl applyWrite db
                      (((λ x, debitOf db (key x) (quantity x)) <$> xs) ++ [w])) !! pid
  = (λ _, Some (stockAt db pid - quantity x)) <$> products db !! pid.
Proof.
  intros Hw Hlast.
  rewrite (foldl_applyWrite_last (true, false)).
  2: { apply debits_uniform. intros id patch Hin.
       apply list_elem_of_singleton in Hin. by apply (Hw id patch). }
  rewrite patchesFor_app, patchesFor_debits.
  replace (patchesFor pid [w]) with (@nil ProductPatch).
  2: { unfold patchesFor. simpl. destruct w as [id patch| |]; try done.
       by destruct (Hw id patch). }
  rewrite app_nil_r, fmap_last, Hlast. simpl.
  by destruct (products db !! pid).
Qed.

(** A product no entry names is left as it was. *)
Lemma debits_untouched {X} (key : X → string) (quantity : X → Z) db (xs : list X) w pid :
  (∀ id patch, w ≠ UpdateProduct id patch) →
  (∀ x, x ∈ xs → key x ≠ pid) →
  products (foldl applyWrite db
              (((λ x, debitOf db (key x) (quantity x)) <$> xs) ++ [w])) !! pid
  = products db !! pid.
Proof.
  intros Hw Hnone. apply foldl_applyWrite_no_patch.
  rewrite patchesFor_app, patchesFor_debits.
  replace (patchesFor pid [w]) with (@nil ProductPatch).
  2: { unfold patchesFor. simpl. destruct w as [id patch| |]; try done.
       by destruct (Hw id patch). }
  rewrite app_nil_r.
  replace (filter (λ x, key x = pid) xs) with (@nil X); [done|].
  symmetry. induction xs as [|x xs IH]; [done|].
  rewrite filter_cons, decide_False.
  - apply IH. intros x' Hin. apply Hnone. by right.
  - apply Hnone. by left.
Qed.

Lemma debits_writable {X} (key : X → string) (quantity : X → Z) db (xs : list X) :
  (∀ x, x ∈ xs → is_Some (products db !! key x)) →
  Forall (λ w, writable db w = true) ((λ x, debitOf db (key x) (quantity x)) <$> xs).
Proof.
  intros Hall. apply Forall_forall. intros w Hin.
  apply list_elem_of_fmap in Hin as (x & -> & Hx). simpl.
  apply bool_decide_eq_true. by apply Hall.
Qed.

(** When the validation loop of [createConfirmedInvoice] pushes no
    message, every item was paired with the product of its identifier. *)
Lemma checkItem_paired env db items :
  concat (snd <$> (checkItem env db <$> items)) = [] →
  Forall (λ turn, products db !! lr_productId turn.1 = Some turn.2)
    (zip items (omap fst (checkItem env db <$> items))).
Proof.
  induction items as [|item items IH]; intros Hnone; [by apply Forall_nil_2|].
  rewrite !fmap_cons in Hnone. simpl in Hnone.
  apply app_eq_nil in Hnone as [Hitem Hrest].
  rewrite fmap_cons. unfold checkItem at 1. unfold checkItem at 1 in Hitem.
  destruct (products db !! lr_productId item) as [product|] eqn:Hdoc; [|done].
  simpl. apply Forall_cons. split; [done|]. by apply IH.
Qed.

Lemma debit_debitOf db turn :
  products db !! lr_productId turn.1 = Some turn.2 →
  debit turn
  = debitOf db (il_productId (pricedLine turn)) (il_quantity (pricedLine turn)).
Proof.
  destruct turn as [item product]. simpl. intros Hdoc.
  unfold debitOf, stockAt. by rewrite Hdoc.
Qed.

(** What a call of [createConfirmedInvoice] that answered 201 did. *)
Lemma createConfirmedInvoice_created env db request db1 response :
  createConfirmedInvoice env db request = (db1, response) →
  rs_status response = 201 →
  ∃ id invoice message,
    response = mkResponse 201 true message [] [(id, invoice)] ∧
    JS.truthy id = true ∧
    i_status invoice = payStatus (i_rest invoice) ∧
    (∀ line, line ∈ i_products invoice →
       JS.truthy (il_productId line) = true ∧
       is_Some (products db !! il_productId line)) ∧
    db1 = foldl applyWrite db
            (((λ line, debitOf db (il_productId line) (il_quantity line))
              <$> i_products invoice) ++ [SetInvoice id invoice]).
Proof.
  unfold createConfirmedInvoice.
  destruct (_ || _); [by intros [= <- <-]|].
  destruct (negb (bool_decide (_ ∈ _))); [by intros [= <- <-]|].
  destruct (existsb _ _) eqn:Hids; [by intros [= <- <-]|].
  destruct (bool_decide (concat _ = [])) eqn:Herrs; [|by intros [= <- <-]].
  apply bool_decide_eq_true in Herrs. cbn [negb].
  destruct (negb (JS.truthy (cr_clientName request))); [by intros [= <- <-]|].
  destruct (existsb (λ item, negb (JS.truthy (lr_name item))) _); [by intros [= <- <-]|].
  pose proof (checkItem_paired _ _ _ Herrs) as Hpaired.
  set (paired := zip (cr_products request)
                   (omap fst (checkItem env db <$> cr_products request))) in *.
  destruct (commit db _) as [db'|] eqn:Hc; [|by intros [= <- <-]].
  apply commit_inv in Hc as [-> _].
  intros [= <- <-] _. eexists _, _, _. split; [done|].
  split; [done|]. split; [done|]. split.
  - intros line Hline. simpl in Hline.
    apply list_elem_of_fmap in Hline as ([item product] & -> & Hin).
    rewrite Forall_forall in Hpaired. specialize (Hpaired _ Hin). simpl in *.
    split; [|by eexists].
    apply elem_of_zip_l in Hin.
    destruct (JS.truthy (lr_productId item)) eqn:Ht; [done|exfalso].
    assert (existsb (λ item, negb (JS.truthy (lr_productId item))) (cr_products request)
            = true) as Hex; [|congruence].
    apply existsb_exists. exists item. split; [by apply list_elem_of_In|].
    by rewrite Ht.
  - f_equal. simpl. f_equal.
    rewrite <- list_fmap_compose.
    apply Forall_fmap_ext_1. eapply Forall_impl; [exact Hpaired|].
    intros turn Hdoc. simpl. by apply debit_debitOf.
Qed.

Lemma checkStock_None db lines :
  (∀ line, line ∈ lines → JS.truthy (il_productId line) = true) →
  sufficientStock db lines →
  checkStock db lines = None.
Proof.
  induction lines as [|line lines IH]; intros Hids Hstock; [done|].
  simpl. rewrite (Hids line) by by left. cbn [negb].
  destruct (Hstock line) as (product & -> & Hq); [by left|].
  replace (stockOf product <? il_quantity line) with false
    by (symmetry; apply Z.ltb_ge; lia).
  apply IH.
  - intros l Hl. apply Hids. by right.
  - intros l Hl. apply Hstock. by right.
Qed.

Lemma checkStock_message db lines e :
  checkStock db lines = Some e → e ≠ "Invoice already confirmed".
Proof.
  induction lines as [|line lines IH]; [done|]. simpl.
  destruct (negb _); [by intros [= <-]|].
  destruct (products db !! _); [|by intros [= <-]].
  destruct (_ <? _); [by intros [= <-]|done].
Qed.

Lemma mapM_stageDebit db lines :
  (∀ line, line ∈ lines → is_Some (products db !! il_productId line)) →
  mapM (stageDebit db) lines
  = Some ((λ line, debitOf db (il_productId line) (il_quantity line)) <$> lines).
Proof.
  induction lines as [|line lines IH]; intros Hall; [done|].
  simpl. rewrite IH by (intros l Hl; apply Hall; by right).
  destruct (Hall line) as [product Hdoc]; [by left|].
  unfold stageDebit, debitOf, stockAt. by rewrite Hdoc.
Qed.

(** An invoice that is not confirmed and whose lines have sufficient stock
    is confirmed: one batch debits every line and sets the status. *)
Lemma confirmInvoice_confirms db id invoice :
  JS.truthy id = true →
  invoices db !! id = Some invoice →
  i_status invoice ≠ "confirmed" →
  (∀ line, line ∈ i_products invoice → JS.truthy (il_productId line) = true) →
  sufficientStock db (i_products invoice) →
  confirmInvoice db id
  = (foldl applyWrite db
       (((λ line, debitOf db (il_productId line) (il_quantity line))
         <$> i_products invoice) ++ [UpdateInvoice id confirmedPatch]),
     Returned id).
Proof.
  intros Hid Hinv Hstatus Hids Hstock.
  assert (∀ line, line ∈ i_products invoice →
                  is_Some (products db !! il_productId line)) as Hfound.
  { intros line Hl. destruct (Hstock line Hl) as (product & Hdoc & _). by eexists. }
  unfold confirmInvoice, rethrow, InvoiceModel.getInvoiceById.
  rewrite Hid, Hinv. cbn [negb].
  replace (String.eqb (i_status invoice) "confirmed") with false
    by (symmetry; by apply String.eqb_neq).
  rewrite checkStock_None, mapM_stageDebit by done.
  rewrite commit_writable; [done|].
  apply Forall_app. split.
  - by apply debits_writable.
  - apply Forall_singleton. simpl. apply bool_decide_eq_true. by eexists.
Qed.

(** The error of the already-confirmed check comes from nowhere else. *)
Lemma confirmInvoice_already db id db' :
  confirmInvoice db id = (db', Thrown alreadyConfirmed) →
  ∃ invoice, invoices db !! id = Some invoice ∧ i_status invoice = "confirmed".
Proof.
  unfold confirmInvoice, rethrow, InvoiceModel.getInvoiceById, alreadyConfirmed.
  destruct (negb (JS.truthy id)); [done|].
  destruct (invoices db !! id) as [invoice|]; [|done].
  destruct (String.eqb_spec (i_status invoice) "confirmed") as [Heq|Hne].
  { intros _. by exists invoice. }
  destruct (checkStock db (i_products invoice)) as [e|] eqn:Hcheck.
  { intros [= _ He]. apply checkStock_message in Hcheck. destruct (Hcheck He). }
  destruct (mapM _ _); [|done].
  by destruct (commit db _).
Qed.

Lemma lastLineFor_Some pid lines line :
  lastLineFor pid lines = Some line → line ∈ lines ∧ il_productId line = pid.
Proof.
  unfold lastLineFor. intros Hlast. apply last_Some_elem_of in Hlast.
  by apply list_elem_of_filter in Hlast as [? ?].
Qed.

(** C5: [confirmInvoice] turns an invoice down as already confirmed only
    when its status is the string confirmed.  An invoice created by
    [createConfirmedInvoice] has the status paid or not paid and its stock
    was debited at creation; [confirmInvoice] does not turn it down as
    already confirmed and, when every line has sufficient stock, debits the
    product of every line once more ([q] becomes the count read less the
    quantity of the line, the last line deciding when several name one
    product) and sets the status to confirmed. *)
Theorem confirmInvoice_debits_again env db request db1 response :
  createConfirmedInvoice env db request = (db1, response) →
  rs_status response = 201 →
  ∃ id invoice,
    rs_data response = [(id, invoice)] ∧
    invoices db1 !! id = Some invoice ∧
    (i_status invoice = "paid" ∨ i_status invoice = "not paid") ∧
    (∀ pid line,
       lastLineFor pid (i_products invoice) = Some line →
       is_Some (products db !! pid) ∧
       p_q <$> products db1 !! pid = Some (Some (stockAt db pid - il_quantity line))) ∧
    (∀ db0 id0 db0',
       confirmInvoice db0 id0 = (db0', Thrown alreadyConfirmed) →
       ∃ stored, invoices db0 !! id0 = Some stored ∧ i_status stored = "confirmed") ∧
    (∀ db2, confirmInvoice db1 id ≠ (db2, Thrown alreadyConfirmed)) ∧
    (sufficientStock db1 (i_products invoice) →
     ∃ db2,
       confirmInvoice db1 id = (db2, Returned id) ∧
       i_status <$> invoices db2 !! id = Some "confirmed" ∧
       ∀ pid line,
         lastLineFor pid (i_products invoice) = Some line →
         p_q <$> products db2 !! pid = Some (Some (stockAt db1 pid - il_quantity line))).
Proof.
  intros Hcreate Hstatus.
  destruct (createConfirmedInvoice_created _ _ _ _ _ Hcreate Hstatus)
    as (id & invoice & message & -> & Hid & Hpay & Hlines & Hdb1).
  exists id, invoice. split; [done|].
  assert (invoices db1 !! id = Some invoice) as Hstored.
  { rewrite Hdb1, foldl_app. simpl. apply lookup_insert_eq. }
  assert (i_status invoice ≠ "confirmed") as Hnot.
  { rewrite Hpay. unfold payStatus. by destruct (_ =? _). }
  split; [done|]. split.
  { rewrite Hpay. unfold payStatus. destruct (_ =? _); [by left|by right]. }
  split.
  { intros pid line Hlast.
    destruct (lastLineFor_Some _ _ _ Hlast) as [Hin <-].
    destruct (Hlines _ Hin) as [_ [product Hdoc]].
    split; [by eexists|].
    rewrite Hdb1.
    rewrite (debits_committed il_productId il_quantity db (i_products invoice)
               (SetInvoice id invoice) (il_productId line) line); [|done|exact Hlast].
    by rewrite Hdoc. }
  split; [apply confirmInvoice_already|].
  split.
  { intros db2 Hthrown. apply confirmInvoice_already in Hthrown as (stored & Hs & Hc).
    rewrite Hstored in Hs. by injection Hs as <-. }
  intros Hstock.
  rewrite (confirmInvoice_confirms db1 id invoice Hid Hstored Hnot); [|by (intros l Hl; apply Hlines)|done].
  eexists. split; [done|]. split.
  - rewrite foldl_app. simpl.
    rewrite lookup_alter_eq, foldl_applyWrite_invoices, Hstored; [done|].
    intros w Hw. apply list_elem_of_fmap in Hw as (l & -> & _).
    unfold debitOf. eauto.
  - intros pid line Hlast.
    destruct (lastLineFor_Some _ _ _ Hlast) as [Hin <-].
    destruct (Hstock _ Hin) as (product & Hdoc & _).
    rewrite (debits_committed il_productId il_quantity db1 (i_products invoice)
               (UpdateInvoice id confirmedPatch) (il_productId line) line); [|done|exact Hlast].
    by rewrite Hdoc.
Qed.

Lemma confirmInvoice_debits_again_witness :
  ∃ id invoice,
    rs_data (createConfirmedInvoice noon wellStocked (purchase None)).2 = [(id, invoice)] ∧
    invoices (createConfirmedInvoice noon wellStocked (purchase None)).1 !! id = Some invoice ∧
    (i_status invoice = "paid" ∨ i_status invoice = "not paid") ∧
    (∀ pid line,
       lastLineFor pid (i_products invoice) = Some line →
       is_Some (products wellStocked !! pid) ∧
       p_q <$> products (createConfirmedInvoice noon wellStocked (purchase None)).1 !! pid
       = Some (Some (stockAt wellStocked pid - il_quantity line))) ∧
    (∀ db0 id0 db0',
       confirmInvoice db0 id0 = (db0', Thrown alreadyConfirmed) →
       ∃ stored, invoices db0 !! id0 = Some stored ∧ i_status stored = "confirmed") ∧
    (∀ db2, confirmInvoice (createConfirmedInvoice noon wellStocked (purchase None)).1 id
            ≠ (db2, Thrown alreadyConfirmed)) ∧
    (sufficientStock (createConfirmedInvoice noon wellStocked (purchase None)).1
       (i_products invoice) →
     ∃ db2,
       confirmInvoice (createConfirmedInvoice noon wellStocked (purchase None)).1 id
       = (db2, Returned id) ∧
       i_status <$> invoices db2 !! id = Some "confirmed" ∧
       ∀ pid line,
         lastLineFor pid (i_products invoice) = Some line →
         p_q <$> products db2 !! pid
         = Some (Some (stockAt (createConfirmedInvoice noon wellStocked (purchase None)).1 pid
                       - il_quantity line))).
Proof.
  apply (confirmInvoice_debits_again noon wellStocked (purchase None)
           (createConfirmedInvoice noon wellStocked (purchase None)).1
           (createConfirmedInvoice noon wellStocked (purchase None)).2).
  - vm_compute. reflexivity.
  - reflexivity.
Defined.

(** Ten flour, an invoice of 3 created with [createConfirmedInvoice],
    then confirmed: 10, 7, 4. *)
Lemma confirmInvoice_after_creation :
  ∃ db1 message invoice db2,
    createConfirmedInvoice noon wellStocked (purchase None)
    = (db1, mkResponse 201 true message [] [("INV-001", invoice)]) ∧
    i_status invoice = "not paid" ∧
    products db1 !! "prod-001" = Some (flour (Some 7) None) ∧
    sufficientStock db1 (i_products invoice) ∧
    confirmInvoice db1 "INV-001" = (db2, Returned "INV-001") ∧
    products db2 !! "prod-001" = Some (flour (Some 4) None) ∧
    i_status <$> invoices db2 !! "INV-001" = Some "confirmed".
Proof.
  eexists _, _, _, _. split; [vm_compute; reflexivity|].
  split; [reflexivity|]. split; [reflexivity|]. split.
  { intros line Hin. apply list_elem_of_singleton in Hin as ->.
    exists (flour (Some 7) None). split; [reflexivity|]. vm_compute. discriminate. }
  split; [vm_compute; reflexivity|]. split; reflexivity.
Qed.

End confirmInvoice.

(** ** Numbered identifiers *)
Section identifiers.
Import InvoiceCon.

Lemma digit_value d :
  (d < 10)%N →
  Z.of_nat (nat_of_ascii (pretty_N_char d) - 48) = Z.of_N d ∧
  isDigit (pretty_N_char d) = true.
Proof.
  intros Hd.
  assert (d = 0 ∨ d = 1 ∨ d = 2 ∨ d = 3 ∨ d = 4 ∨ d = 5 ∨ d = 6 ∨ d = 7 ∨ d = 8 ∨ d = 9)%N
    as Hcases by lia.
  repeat (destruct Hcases as [->|Hcases]; [by vm_compute|]). subst. by vm_compute.
Qed.

Lemma parseInt_pretty_go x :
  ∃ k, 0 ≤ k ∧ ∀ s acc,
    parseInt_go acc (pretty_N_go x s) = parseInt_go (acc * 10 ^ k + Z.of_N x) s.
Proof.
  induction (N.lt_wf_0 x) as [x _ IH].
  assert (x = 0 ∨ 0 < x)%N as [->|Hpos] by lia.
  - exists 0. split; [done|]. intros s acc. rewrite pretty_N_go_0. f_equal. lia.
  - destruct (IH (x `div` 10)%N) as (k & Hk & Hgo); [by apply N.div_lt|].
    exists (k + 1). split; [lia|]. intros s acc.
    rewrite pretty_N_go_step by done. rewrite Hgo. simpl.
    destruct (digit_value (x `mod` 10)%N) as [-> _]; [by apply N.mod_lt|].
    f_equal. rewrite Z.pow_add_r by lia.
    rewrite (N.div_mod x 10) at 3 by done. lia.
Qed.

Lemma digits_pretty_go x s :
  digitsOf s = s → digitsOf (pretty_N_go x s) = pretty_N_go x s.
Proof.
  revert s. induction (N.lt_wf_0 x) as [x _ IH]. intros s Hs.
  assert (x = 0 ∨ 0 < x)%N as [->|Hpos] by lia.
  - by rewrite pretty_N_go_0.
  - rewrite pretty_N_go_step by done. apply IH; [by apply N.div_lt|].
    simpl. destruct (digit_value (x `mod` 10)%N) as [_ ->]; [by apply N.mod_lt|].
    by rewrite Hs.
Qed.

Lemma pretty_go_nonempty x s : s ≠ "" → pretty_N_go x s ≠ "".
Proof.
  revert s. induction (N.lt_wf_0 x) as [x _ IH]. intros s Hs.
  assert (x = 0 ∨ 0 < x)%N as [->|Hpos] by lia.
  - by rewrite pretty_N_go_0.
  - rewrite pretty_N_go_step by done. apply IH; [by apply N.div_lt|done].
Qed.

(** The decimal rendering of a count is a run of digits that reads back
    as the count. *)
Lemma num_digits n :
  0 ≤ n → digitsOf (JS.num n) = JS.num n ∧ JS.num n ≠ "" ∧ parseInt (JS.num n) = n.
Proof.
  intros Hn. destruct n as [|p|p]; [done| |lia].
  unfold JS.num, pretty, pretty_Z, pretty, pretty_positive, pretty, pretty_N.
  rewrite decide_False by done.
  split; [by apply digits_pretty_go|]. split.
  - rewrite pretty_N_go_step by done. by apply pretty_go_nonempty.
  - unfold parseInt. destruct (parseInt_pretty_go (N.pos p)) as (k & _ & ->).
    simpl. lia.
Qed.

Lemma padStart_digits width s :
  digitsOf s = s → s ≠ "" →
  digitsOf (JS.padStart width s) = JS.padStart width s ∧
  JS.padStart width s ≠ "" ∧
  parseInt (JS.padStart width s) = parseInt s.
Proof.
  intros Hs Hne. unfold JS.padStart.
  induction (width - String.length s)%nat as [|k (IH1 & IH2 & IH3)]; [done|].
  split; [|split].
  - change (JS.repeat0 (S k) +:+ s) with (String "0" (JS.repeat0 k +:+ s)).
    simpl. by rewrite IH1.
  - done.
  - exact IH3.
Qed.

(** Padding keeps the number. *)
Lemma padded_parse width n :
  0 ≤ n → parseInt (JS.padStart width (JS.num n)) = n.
Proof.
  intros Hn. destruct (num_digits n Hn) as (Hd & Hne & Hp).
  destruct (padStart_digits width _ Hd Hne) as (_ & _ & Hp'). by rewrite Hp'.
Qed.

Lemma padded_inj width n m :
  0 ≤ n → 0 ≤ m → JS.padStart width (JS.num n) = JS.padStart width (JS.num m) → n = m.
Proof.
  intros Hn Hm Heq.
  rewrite <- (padded_parse width n), <- (padded_parse width m) by done.
  by rewrite Heq.
Qed.

Lemma movementIdOf_inj n m : 0 ≤ n → 0 ≤ m → movementIdOf n = movementIdOf m → n = m.
Proof.
  intros Hn Hm Heq. apply (padded_inj 6); [done..|].
  unfold movementIdOf in Heq. by simplify_eq.
Qed.


(** The pattern reads the number back from an identifier made by the
    generator. *)
Lemma suffix_of_generated n :
  0 ≤ n → suffix ("INV-" +:+ JS.padStart 3 (JS.num n)) = Some n.
Proof.
  intros Hn. destruct (num_digits n Hn) as (Hd & Hne & Hp).
  destruct (padStart_digits 3 _ Hd Hne) as (Hd' & Hne' & Hp').
  unfold suffix.
  replace (matchInvoiceNumber ("INV-" +:+ JS.padStart 3 (JS.num n)))
    with (Some (JS.padStart 3 (JS.num n))).
  - simpl. by rewrite Hp', Hp.
  - change ("INV-" +:+ JS.padStart 3 (JS.num n))
      with (String "I" (String "N" (String "V" (String "-" (JS.padStart 3 (JS.num n)))))).
    unfold matchInvoiceNumber, matchHere.
    change (sameLetter "I" "I" && sameLetter "N" "N" && sameLetter "V" "V" && Ascii.eqb "-" "-") with true.
    cbv iota. rewrite Hd'. by destruct (JS.padStart 3 (JS.num n)).
Qed.

Lemma nextCount_pos ids : 1 ≤ nextCount ids.
Proof.
  unfold nextCount. destruct ids as [|id ids]; [done|].
  destruct (Z.ltb_spec 0 (foldl scan 0 (id :: ids))); simpl length; lia.
Qed.

Lemma nextCount_above ids : foldl scan 0 ids < nextCount ids.
Proof.
  destruct (foldl_scan_spec ids 0) as (H0 & _).
  unfold nextCount. destruct ids as [|id ids]; [simpl; lia|].
  destruct (Z.ltb_spec 0 (foldl scan 0 (id :: ids))); simpl length; lia.
Qed.

Lemma generated_suffix env ids :
  suffix (generateInvoiceId env (Returned ids)) = Some (nextCount ids).
Proof. apply suffix_of_generated. pose proof (nextCount_pos ids). lia. Qed.

Lemma generated_fresh env ids : generateInvoiceId env (Returned ids) ∉ ids.
Proof.
  intros Hin. destruct (foldl_scan_spec ids 0) as (_ & Hub & _).
  specialize (Hub _ _ Hin (generated_suffix env ids)).
  pose proof (nextCount_above ids). lia.
Qed.

(** The highest number the loop leaves is fixed by the numbers the
    identifiers carry, in whatever order they are read. *)
Lemma foldl_scan_perm (l l' : list string) : l ≡ₚ l' → foldl scan 0 l = foldl scan 0 l'.
Proof.
  intros Hp.
  destruct (foldl_scan_spec l 0) as (H0 & Hub & Hatt).
  destruct (foldl_scan_spec l' 0) as (H0' & Hub' & Hatt').
  apply Z.le_antisymm.
  - destruct Hatt as [->|(id & Hin & Hs)]; [done|].
    apply (Hub' id); [|done]. by rewrite <- Hp.
  - destruct Hatt' as [->|(id & Hin & Hs)]; [done|].
    apply (Hub id); [|done]. by rewrite Hp.
Qed.

Lemma nextCount_perm (l l' : list string) : l ≡ₚ l' → nextCount l = nextCount l'.
Proof.
  intros Hp. unfold nextCount.
  destruct l as [|x l], l' as [|x' l'].
  - done.
  - by apply Permutation_nil_cons in Hp.
  - symmetry in Hp. by apply Permutation_nil_cons in Hp.
  - rewrite (foldl_scan_perm _ _ Hp), (Permutation_length Hp). done.
Qed.

Lemma nextCount_generated env ids ids' :
  ids' ≡ₚ generateInvoiceId env (Returned ids) :: ids →
  nextCount ids' = nextCount ids + 1.
Proof.
  intros Hp. pose proof (nextCount_pos ids) as Hpos.
  pose proof (nextCount_above ids) as Hlt.
  rewrite (nextCount_perm _ _ Hp).
  unfold nextCount at 1. cbn [foldl].
  rewrite scan_suffix, generated_suffix.
  replace (0 <? nextCount ids) with true by (symmetry; apply Z.ltb_lt; lia).
  destruct (foldl_scan_spec ids 0) as (_ & Hub & _).
  destruct (foldl_scan_spec ids (nextCount ids)) as (Hge & _ & Hatt').
  assert (foldl scan (nextCount ids) ids = nextCount ids) as ->.
  { destruct Hatt' as [->|(id & Hin & Hs)]; [done|].
    specialize (Hub _ _ Hin Hs). lia. }
  replace (0 <? nextCount ids) with true by (symmetry; apply Z.ltb_lt; lia).
  done.
Qed.

(** While the identifiers read count in safe integers, so do the number
    computed and the one after it. *)
Lemma nextCount_safe ids :
  safeIds ids → 1 ≤ nextCount ids ∧ nextCount ids + 1 ≤ JS.maxSafeInteger.
Proof.
  intros [Hlength Hsuffixes]. split; [apply nextCount_pos|].
  destruct (foldl_scan_spec ids 0) as (_ & _ & Hatt).
  unfold nextCount. destruct ids as [|id0 ids]; [done|].
  destruct (Z.ltb_spec 0 (foldl scan 0 (id0 :: ids))); [|lia].
  destruct Hatt as [Heq|(id & Hin & Hs)]; [lia|].
  specialize (Hsuffixes _ _ Hin Hs). lia.
Qed.

(** X6: while the identifiers read count in safe integers, the
    identifier [generateInvoiceId] makes from them carries the number it
    computed, a safe integer that its own pattern reads back, and is none
    of the identifiers read. *)
Theorem generateInvoiceId_fresh env ids :
  safeIds ids →
  suffix (generateInvoiceId env (Returned ids)) = Some (nextCount ids) ∧
  JS.isSafeInteger (nextCount ids) = true ∧
  generateInvoiceId env (Returned ids) ∉ ids.
Proof.
  intros Hsafe. destruct (nextCount_safe ids Hsafe) as [Hpos Hmax].
  assert (suffix (generateInvoiceId env (Returned ids)) = Some (nextCount ids)) as Hsuffix
    by (apply suffix_of_generated; lia).
  split; [done|]. split.
  { unfold JS.isSafeInteger. apply Z.leb_le. lia. }
  intros Hin.
  destruct (foldl_scan_spec ids 0) as (_ & Hub & _).
  specialize (Hub _ _ Hin Hsuffix).
  pose proof (nextCount_above ids). lia.
Qed.

Lemma generateInvoiceId_fresh_witness :
  suffix (generateInvoiceId noon (Returned ["INV-002"; "inv-007"; "draft"]))
  = Some (nextCount ["INV-002"; "inv-007"; "draft"]) ∧
  JS.isSafeInteger (nextCount ["INV-002"; "inv-007"; "draft"]) = true ∧
  generateInvoiceId noon (Returned ["INV-002"; "inv-007"; "draft"])
    ∉ ["INV-002"; "inv-007"; "draft"].
Proof.
  apply (generateInvoiceId_fresh noon ["INV-002"; "inv-007"; "draft"]).
  apply (safeIds_sample _ 7); [by vm_compute..|].
  repeat (apply Forall_cons; split; [by vm_compute|]). apply Forall_nil_2.
Defined.

(** X7: while the identifiers read count in safe integers, once the
    identifier made is among them, in whatever order they come, the next
    number is one more, and it is a safe integer. *)
Theorem generateInvoiceId_counts_on env ids ids' :
  safeIds ids →
  ids' ≡ₚ generateInvoiceId env (Returned ids) :: ids →
  nextCount ids' = nextCount ids + 1 ∧
  JS.isSafeInteger (nextCount ids') = true ∧
  suffix (generateInvoiceId env (Returned ids')) = Some (nextCount ids + 1).
Proof.
  intros Hsafe Hp. destruct (nextCount_safe ids Hsafe) as [Hpos Hmax].
  pose proof (nextCount_generated env _ _ Hp) as Hnext.
  split; [done|]. split.
  { rewrite Hnext. unfold JS.isSafeInteger. apply Z.leb_le. lia. }
  rewrite generated_suffix. by f_equal.
Qed.

Lemma generateInvoiceId_counts_on_witness :
  ["INV-007"; "INV-008"; "INV-002"]
    ≡ₚ generateInvoiceId noon (Returned ["INV-002"; "INV-007"]) :: ["INV-002"; "INV-007"] ∧
  nextCount ["INV-007"; "INV-008"; "INV-002"] = nextCount ["INV-002"; "INV-007"] + 1 ∧
  JS.isSafeInteger (nextCount ["INV-007"; "INV-008"; "INV-002"]) = true ∧
  suffix (generateInvoiceId noon (Returned ["INV-007"; "INV-008"; "INV-002"]))
  = Some (nextCount ["INV-002"; "INV-007"] + 1).
Proof.
  assert (["INV-007"; "INV-008"; "INV-002"]
            ≡ₚ generateInvoiceId noon (Returned ["INV-002"; "INV-007"])
               :: ["INV-002"; "INV-007"]) as Hp.
  { vm_compute. apply (Permutation_cons_append ["INV-008"; "INV-002"] "INV-007"). }
  split; [exact Hp|].
  apply (generateInvoiceId_counts_on noon ["INV-002"; "INV-007"]
           ["INV-007"; "INV-008"; "INV-002"]); [|exact Hp].
  apply (safeIds_sample _ 7); [by vm_compute..|].
  repeat (apply Forall_cons; split; [by vm_compute|]). apply Forall_nil_2.
Defined.

End identifiers.

(** ** Creating invoices *)
Section creation.
Import Firestore InvoiceCon.

Lemma getAllInvoices_elem db id :
  id ∈ InvoiceModel.getAllInvoices db ↔ is_Some (invoices db !! id).
Proof.
  unfold InvoiceModel.getAllInvoices. rewrite list_elem_of_fmap. split.
  - intros ([k v] & -> & Hin). apply elem_of_map_to_list in Hin. by exists v.
  - intros [v Hv]. exists (id, v). split; [done|]. by apply elem_of_map_to_list.
Qed.

Lemma getAllInvoices_insert db db' id doc :
  invoices db !! id = None →
  invoices db' = <[id := doc]> (invoices db) →
  InvoiceModel.getAllInvoices db' ≡ₚ id :: InvoiceModel.getAllInvoices db.
Proof.
  intros Hfree Hdb'. unfold InvoiceModel.getAllInvoices.
  rewrite Hdb', map_to_list_insert by done. done.
Qed.

(** The identifier made for a new invoice is free in the store. *)
Lemma generated_free env db :
  invoices db !! generateInvoiceId env (Returned (InvoiceModel.getAllInvoices db)) = None.
Proof.
  apply eq_None_not_Some. rewrite <- getAllInvoices_elem. apply generated_fresh.
Qed.

Lemma foldl_applyWrite_set db batch id doc :
  productWrites batch →
  invoices (foldl applyWrite db (batch ++ [SetInvoice id doc])) = <[id := doc]> (invoices db).
Proof.
  intros Hpw. rewrite foldl_app. simpl. by rewrite foldl_applyWrite_invoices.
Qed.

Lemma debits_productWrites (paired : list (LineRequest * Product)) :
  productWrites (debit <$> paired).
Proof.
  intros w Hw. apply list_elem_of_fmap in Hw as ([item detail] & -> & _).
  simpl. eauto.
Qed.

(** What a reply 201 of [createConfirmedInvoice] stands for. *)
Lemma createConfirmedInvoice_201 env db request db1 response :
  createConfirmedInvoice env db request = (db1, response) →
  rs_status response = 201 →
  ∃ invoice batch,
    productWrites batch ∧
    rs_data response
    = [(generateInvoiceId env (Returned (InvoiceModel.getAllInvoices db)), invoice)] ∧
    db1 = foldl applyWrite db
            (batch ++ [SetInvoice
                         (generateInvoiceId env (Returned (InvoiceModel.getAllInvoices db)))
                         invoice]) ∧
    i_total invoice = sumZ (il_total <$> i_products invoice) ∧
    i_rest invoice = i_total invoice - i_remise invoice - i_advance invoice ∧
    i_status invoice = payStatus (i_rest invoice).
Proof.
  unfold createConfirmedInvoice.
  destruct (_ || _); [by intros [= <- <-]|].
  destruct (negb (bool_decide (_ ∈ _))); [by intros [= <- <-]|].
  destruct (existsb _ _); [by intros [= <- <-]|].
  destruct (negb (bool_decide (_ = []))); [by intros [= <- <-]|].
  destruct (negb (JS.truthy (cr_clientName request))); [by intros [= <- <-]|].
  destruct (existsb (λ item, negb (JS.truthy (lr_name item))) _); [by intros [= <- <-]|].
  destruct (commit db _) as [db'|] eqn:Hc; [|by intros [= <- <-]].
  intros [= <- <-] _. apply commit_inv in Hc as [-> _].
  eexists _, _. split; [apply debits_productWrites|]. by repeat split.
Qed.


(** X8: while the identifiers of the stored invoices count in safe
    integers, an invoice made by [createConfirmedInvoice] is stored under
    an identifier that was free, so every invoice of the store stays as
    it was; its total is the sum of its lines, its rest the total less
    the discount and the advance, and the identifier generated next
    carries the next number. *)
Theorem createConfirmedInvoice_stores env db request db1 response :
  safeIds (InvoiceModel.getAllInvoices db) →
  createConfirmedInvoice env db request = (db1, response) →
  rs_status response = 201 →
  ∃ id invoice,
    rs_data response = [(id, invoice)] ∧
    invoices db !! id = None ∧
    invoices db1 = <[id := invoice]> (invoices db) ∧
    i_total invoice = sumZ (il_total <$> i_products invoice) ∧
    i_rest invoice = i_total invoice - i_remise invoice - i_advance invoice ∧
    ∀ env', suffix (generateInvoiceId env' (Returned (InvoiceModel.getAllInvoices db1)))
            = (λ n, n + 1) <$> suffix id.
Proof.
  intros _ Hrun H201.
  destruct (createConfirmedInvoice_201 _ _ _ _ _ Hrun H201)
    as (invoice & batch & Hpw & Hdata & -> & Htotal & Hrest & _).
  eexists _, invoice. split; [exact Hdata|].
  split; [apply generated_free|].
  split; [by apply foldl_applyWrite_set|].
  split; [done|]. split; [done|].
  intros env'. rewrite !generated_suffix. simpl. f_equal.
  apply (nextCount_generated env).
  apply getAllInvoices_insert with invoice; [apply generated_free|].
  by apply foldl_applyWrite_set.
Qed.

Lemma createConfirmedInvoice_stores_witness :
  ∃ id invoice,
    rs_data (createConfirmedInvoice noon stocked (purchase None)).2 = [(id, invoice)] ∧
    invoices stocked !! id = None ∧
    invoices (createConfirmedInvoice noon stocked (purchase None)).1
    = <[id := invoice]> (invoices stocked) ∧
    i_total invoice = sumZ (il_total <$> i_products invoice) ∧
    i_rest invoice = i_total invoice - i_remise invoice - i_advance invoice ∧
    ∀ env', suffix (generateInvoiceId env'
                      (Returned (InvoiceModel.getAllInvoices
                                   (createConfirmedInvoice noon stocked (purchase None)).1)))
            = (λ n, n + 1) <$> suffix id.
Proof.
  apply (createConfirmedInvoice_stores noon stocked (purchase None)
           (createConfirmedInvoice noon stocked (purchase None)).1
           (createConfirmedInvoice noon stocked (purchase None)).2).
  - apply (safeIds_sample _ 0); [by vm_compute..|]. vm_compute. apply Forall_nil_2.
  - by destruct (createConfirmedInvoice noon stocked (purchase None)).
  - by vm_compute.
Defined.

Lemma createInvoice_Returned env db data db1 id invoice :
  createInvoice env db data = (db1, Returned (id, invoice)) →
  id = generateInvoiceId env (Returned (InvoiceModel.getAllInvoices db)) ∧
  db1 = setInvoices db (<[id := invoice]> (invoices db)) ∧
  i_status invoice = "pending" ∧
  i_products invoice
  = (λ product,
       mkInvoiceLine (lr_productId product) (lr_name product) (lr_quantity product)
         (default 0 (lr_unitPrice product))
         (default 0 (lr_unitPrice product) * lr_quantity product))
    <$> cr_products data ∧
  i_total invoice = sumZ (il_total <$> i_products invoice) ∧
  i_rest invoice = i_total invoice - i_remise invoice - i_advance invoice.
Proof.
  unfold createInvoice, rethrow.
  destruct (validateInvoiceData data); [|done].
  destruct (negb (bool_decide (_ ∈ _))); [done|].
  unfold InvoiceModel.createInvoice.
  destruct (negb (JS.truthy _)); [done|].
  by intros [= <- <- <-].
Qed.

(** X9: while the identifiers of the stored invoices count in safe
    integers, [createInvoice] stores the invoice as pending under an
    identifier that was free, with the total of its lines at the prices
    of the request, a rest of the total less the discount and the
    advance, and without touching a product. *)
Theorem createInvoice_pending env db data db1 id invoice :
  safeIds (InvoiceModel.getAllInvoices db) →
  createInvoice env db data = (db1, Returned (id, invoice)) →
  invoices db !! id = None ∧
  invoices db1 = <[id := invoice]> (invoices db) ∧
  products db1 = products db ∧
  i_status invoice = "pending" ∧
  i_total invoice
  = sumZ ((λ product, default 0 (lr_unitPrice product) * lr_quantity product)
          <$> cr_products data) ∧
  i_rest invoice = i_total invoice - i_remise invoice - i_advance invoice.
Proof.
  intros _ Hrun.
  apply createInvoice_Returned in Hrun as (-> & -> & Hstatus & Hlines & Htotal & Hrest).
  split; [apply generated_free|]. split; [done|]. split; [done|].
  split; [done|]. split; [|done].
  by rewrite Htotal, Hlines, <- list_fmap_compose.
Qed.

Lemma createInvoice_pending_witness :
  invoices stocked !! "INV-001" = None ∧
  invoices (createInvoice noon stocked (purchase None)).1
  = <[ "INV-001" := order "pending" ]> (invoices stocked) ∧
  products (createInvoice noon stocked (purchase None)).1 = products stocked ∧
  i_status (order "pending") = "pending" ∧
  i_total (order "pending")
  = sumZ ((λ product, default 0 (lr_unitPrice product) * lr_quantity product)
          <$> cr_products (purchase None)) ∧
  i_rest (order "pending")
  = i_total (order "pending") - i_remise (order "pending") - i_advance (order "pending").
Proof.
  apply (createInvoice_pending noon stocked (purchase None)).
  - apply (safeIds_sample _ 0); [by vm_compute..|]. vm_compute. apply Forall_nil_2.
  - by vm_compute.
Defined.

Lemma deleteInvoice_Returned db id db' id' :
  deleteInvoice db id = (db', Returned id') →
  id' = id ∧ invoices db' = delete id (invoices db) ∧ products db' = products db.
Proof.
  unfold deleteInvoice, rethrow.
  destruct (negb (JS.truthy id)) eqn:Hid; [done|].
  destruct (InvoiceModel.getInvoiceById db id); [|done].
  destruct (restorationBatch db _); [|done].
  unfold InvoiceModel.deleteInvoice. rewrite Hid.
  by intros [= <- <-].
Qed.

(** X10: while the identifiers of the stored invoices count in safe
    integers, the number of the latest invoice is given again once that
    invoice is deleted: an invoice created after the deletion gets the
    identifier of the deleted one. *)
Theorem createInvoice_reuses_deleted env db data db1 id invoice db2 env' data' db3 id' invoice' :
  safeIds (InvoiceModel.getAllInvoices db) →
  createInvoice env db data = (db1, Returned (id, invoice)) →
  deleteInvoice db1 id = (db2, Returned id) →
  createInvoice env' db2 data' = (db3, Returned (id', invoice')) →
  id' = id ∧ invoices db3 !! id = Some invoice'.
Proof.
  intros _ Hcreate Hdelete Hagain.
  assert (id' = id) as ->; [|split; [done|]].
  2: { apply createInvoice_Returned in Hagain as (_ & -> & _).
       simpl. apply lookup_insert_eq. }
  apply createInvoice_Returned in Hcreate as (Hid & -> & _).
  apply deleteInvoice_Returned in Hdelete as (_ & Hdb2 & _).
  apply createInvoice_Returned in Hagain as (-> & _).
  assert (invoices db2 = invoices db) as Hsame.
  { rewrite Hdb2. simpl. apply delete_insert_id.
    rewrite Hid. apply generated_free. }
  unfold InvoiceModel.getAllInvoices. rewrite Hsame. by rewrite Hid.
Qed.

Lemma createInvoice_reuses_deleted_witness :
  "INV-001" = "INV-001" ∧
  invoices (createInvoice noon
              (deleteInvoice (createInvoice noon stocked (purchase None)).1 "INV-001").1
              (purchase (Some 10))).1 !! "INV-001"
  = Some (mkInvoice "c1" "Bob" [mkInvoiceLine "prod-001" "Flour" 3 10 30] 0 10 30 30 20
            "pending" None).
Proof.
  apply (createInvoice_reuses_deleted noon stocked (purchase None)
           (createInvoice noon stocked (purchase None)).1 "INV-001" (order "pending")
           (deleteInvoice (createInvoice noon stocked (purchase None)).1 "INV-001").1
           noon (purchase (Some 10))); [|by vm_compute..].
  apply (safeIds_sample _ 0); [by vm_compute..|]. vm_compute. apply Forall_nil_2.
Defined.

End creation.

(** ** Movement identifiers *)
Section movementIds.
Import Firestore ProductModel MovementModel.

(** When no line is turned down, the valid lines are the lines of the
    request. *)
Lemma rights_validateLine type db (lines : list LineRequest) :
  lefts (validateLine type db <$> lines) = [] →
  (λ p, (vl_productId p, vl_quantity p)) <$> rights (validateLine type db <$> lines)
  = (λ p, (lr_productId p, lr_quantity p)) <$> lines.
Proof.
  induction lines as [|p lines IH]; [done|].
  rewrite !fmap_cons. unfold lefts, rights. cbn [omap list_omap].
  fold (lefts (validateLine type db <$> lines)).
  fold (rights (validateLine type db <$> lines)).
  destruct (validateLine type db p) as [e|v] eqn:Hp; [done|].
  intros Hnone. rewrite fmap_cons, IH by done. f_equal.
  unfold validateLine in Hp. repeat (case_match; try done); by simplify_eq.
Qed.

(** A valid line without name comes from a line of the request whose
    product has no name. *)
Lemma nameless_product type db (lines : list LineRequest) index :
  nameless (rights (validateLine type db <$> lines)) = Some index →
  ∃ p productData,
    p ∈ lines ∧ products db !! lr_productId p = Some productData ∧
    p_name productData = "".
Proof.
  unfold nameless. destruct (list_find _ _) as [[i v]|] eqn:Hfind; [|done].
  intros _. apply list_find_Some in Hfind as (Hv & Hname & _).
  apply list_elem_of_lookup_2 in Hv.
  apply elem_of_rights, list_elem_of_fmap in Hv as (p & Hp & Hin).
  exists p. unfold validateLine in Hp.
  repeat (case_match; try done); simplify_eq; eauto.
Qed.

(** [createStockMovement] fails before it writes and leaves the store, or
    takes an identifier and runs the ledger, and then either stores the
    movement under the identifier or fails on a line whose product has no
    name. *)
Lemma createStockMovement_cases env db data db' r :
  createStockMovement env db data = (db', r) →
  (db' = db ∧ ∃ message, r = Failure message) ∨
  (∃ db1 id batch,
     getNextMovementId env db = (db1, id) ∧
     productWrites batch ∧
     foldl applyWrite db1 batch
     = ((if String.eqb (rq_type data) "stock_in"
         then addQuantitiesToProducts else removeQuantitiesFromProducts)
          db1 ((λ p, (lr_productId p, lr_quantity p)) <$> rq_products data)).1 ∧
     ((∃ movement message,
         r = Success id movement message ∧
         db' = setStockMovements (foldl applyWrite db1 batch)
                 (<[id := movement]> (stockMovements db1))) ∨
      (∃ message p productData,
         r = Failure message ∧
         db' = foldl applyWrite db1 batch ∧
         p ∈ rq_products data ∧
         products db !! lr_productId p = Some productData ∧
         p_name productData = ""))).
Proof.
  unfold createStockMovement, createBody.
  destruct (negb (_ || _)); [intros [= <- <-]; left; eauto|].
  destruct (bool_decide (rq_products data = [])); [intros [= <- <-]; left; eauto|].
  destruct (negb (JS.truthy (JS.trim _))); [intros [= <- <-]; left; eauto|].
  destruct (_ && _); [intros [= <- <-]; left; eauto|].
  destruct (_ && _); [intros [= <- <-]; left; eauto|].
  destruct (bool_decide_reflect
              (lefts (validateLine (rq_type data) db <$> rq_products data) = []))
    as [Hvalid|_]; [|intros [= <- <-]; left; eauto].
  cbn [negb].
  destruct (getNextMovementId env db) as [db1 id] eqn:Hid.
  rewrite (rights_validateLine _ _ _ Hvalid).
  pose proof (nameless_product (rq_type data) db (rq_products data)) as Hnameless.
  destruct (String.eqb (rq_type data) "stock_in").
  - cbv beta iota. unfold addQuantitiesToProducts. rewrite !(bulk_returns _ _ addOne_turn).
    destruct (nameless _) as [index|]; intros [= <- <-]; right;
      eexists db1, id, _; (split; [done|]);
      (split; [apply (staged_productWrites _ _ addOne_turn)|]);
      (split; [unfold addQuantitiesToProducts; by rewrite (bulk_returns _ _ addOne_turn)|]).
    + right. destruct (Hnameless index eq_refl) as (p & productData & ?). eauto 10.
    + left. eexists _, _. split; [done|]. by rewrite foldl_applyWrite_stockMovements.
  - cbv beta iota. unfold removeQuantitiesFromProducts.
    rewrite !(bulk_returns _ _ removeOne_turn).
    destruct (nameless _) as [index|]; intros [= <- <-]; right;
      eexists db1, id, _; (split; [done|]);
      (split; [apply (staged_productWrites _ _ removeOne_turn)|]);
      (split; [unfold removeQuantitiesFromProducts;
               by rewrite (bulk_returns _ _ removeOne_turn)|]).
    + right. destruct (Hnameless index eq_refl) as (p & productData & ?). eauto 10.
    + left. eexists _, _. split; [done|]. by rewrite foldl_applyWrite_stockMovements.
Qed.

Lemma getNextMovementId_stockMovements env db :
  stockMovements (getNextMovementId env db).1 = stockMovements db.
Proof. unfold getNextMovementId. by destruct (transactionFails env). Qed.

(** X5: a call of [createStockMovement] that fails leaves the store as it
    was, unless the failure is that of saving the movement: then a line
    of the request names a product stored without name, the identifier
    was taken and the ledger has run on every line, and no movement is
    stored. *)
Theorem createStockMovement_failure_store env db data db' message :
  createStockMovement env db data = (db', Failure message) →
  db' = db ∨
  ∃ p productData,
    p ∈ rq_products data ∧
    products db !! lr_productId p = Some productData ∧
    p_name productData = "" ∧
    db' = ((if String.eqb (rq_type data) "stock_in"
            then addQuantitiesToProducts else removeQuantitiesFromProducts)
             (getNextMovementId env db).1
             ((λ p, (lr_productId p, lr_quantity p)) <$> rq_products data)).1 ∧
    stockMovements db' = stockMovements db.
Proof.
  intros Hrun.
  apply createStockMovement_cases in Hrun
    as [[-> _]|(db1 & id & batch & Hid & _ & Hledger & Hend)]; [by left|].
  destruct Hend as [(? & ? & [=] & _)|(? & p & productData & _ & -> & Hp & Hdoc & Hname)].
  right. exists p, productData. rewrite Hid. cbn [fst].
  repeat (split; [done|]).
  rewrite foldl_applyWrite_stockMovements.
  change db1 with (db1, id).1. rewrite <- Hid. apply getNextMovementId_stockMovements.
Qed.

Lemma createStockMovement_failure_store_witness :
  (createStockMovement noon unnamed restock).1 = unnamed ∨
  ∃ p productData,
    p ∈ rq_products restock ∧
    products unnamed !! lr_productId p = Some productData ∧
    p_name productData = "" ∧
    (createStockMovement noon unnamed restock).1
    = ((if String.eqb (rq_type restock) "stock_in"
        then addQuantitiesToProducts else removeQuantitiesFromProducts)
         (getNextMovementId noon unnamed).1
         ((λ p, (lr_productId p, lr_quantity p)) <$> rq_products restock)).1 ∧
    stockMovements (createStockMovement noon unnamed restock).1 = stockMovements unnamed.
Proof.
  apply (createStockMovement_failure_store noon unnamed restock
           (createStockMovement noon unnamed restock).1
           (undefinedValue "products.`0`.productName")).
  by vm_compute.
Defined.

(** The stock-in of 5 on the product without name: the reply is a
    failure, and the store has the counter at 1 and 15 in the field [q]
    of the product. *)
Example createStockMovement_failure_after_writes :
  createStockMovement noon unnamed restock
  = (mkDb {[ "prod-001" := mkProduct "" (Some 15) (Some 10) None (Some 10) None None ]}
       ∅ ∅ ∅ {[ "stockMovements" := 1 ]},
     Failure (undefinedValue "products.`0`.productName")).
Proof. by vm_compute. Qed.

Lemma getNextMovementId_counted env db db1 id :
  transactionFails env = false →
  getNextMovementId env db = (db1, id) →
  id = movementIdOf (counterAt db "stockMovements" + 1) ∧
  counterAt db1 "stockMovements" = counterAt db "stockMovements" + 1 ∧
  stockMovements db1 = stockMovements db ∧
  products db1 = products db ∧
  invoices db1 = invoices db.
Proof.
  unfold getNextMovementId, counterAt. intros ->. intros [= <- <-]. simpl.
  rewrite lookup_insert_eq. simpl.
  by destruct (counters db !! "stockMovements").
Qed.

(** X11: as long as the counter transaction goes through,
    [createStockMovement] keeps every movement identifier one the counter
    gave out, and stores a new movement under the identifier of the next
    count, which no movement of the store has: no movement is ever
    overwritten. *)
Theorem createStockMovement_issues_id env db data db' r :
  transactionFails env = false →
  movementIdsIssued db →
  createStockMovement env db data = (db', r) →
  movementIdsIssued db' ∧
  ∀ id movement message,
    r = Success id movement message →
    id = movementIdOf (counterAt db "stockMovements" + 1) ∧
    stockMovements db !! id = None ∧
    stockMovements db' = <[id := movement]> (stockMovements db).
Proof.
  intros Hok [Hcount Hissued] Hrun.
  apply createStockMovement_cases in Hrun
    as [[-> [message ->]]|(db1 & id & batch & Hid & Hpw & _ & Hend)].
  { split; [by split|]. intros ??? [=]. }
  apply (getNextMovementId_counted _ _ _ _ Hok) in Hid as (-> & Hc1 & Hm1 & _).
  destruct Hend as [(movement & message & -> & ->)|(message & _ & _ & -> & -> & _)].
  2: { split; [|intros ??? [=]]. unfold movementIdsIssued, counterAt in *.
       rewrite foldl_applyWrite_counters, foldl_applyWrite_stockMovements, Hm1.
       split; [lia|]. intros id Hsome.
       destruct (Hissued _ Hsome) as (n & Hn & ->). exists n. split; [lia|done]. }
  assert (stockMovements db !! movementIdOf (counterAt db "stockMovements" + 1) = None)
    as Hfree.
  { apply eq_None_not_Some. intros Hsome.
    destruct (Hissued _ Hsome) as (n & Hn & Heq).
    apply movementIdOf_inj in Heq; lia. }
  set (db' := setStockMovements _ _).
  assert (counterAt db' "stockMovements" = counterAt db "stockMovements" + 1) as Hc'.
  { rewrite <- Hc1. unfold counterAt, db'. simpl. by rewrite foldl_applyWrite_counters. }
  assert (stockMovements db'
          = <[movementIdOf (counterAt db "stockMovements" + 1) := movement]>
              (stockMovements db)) as Hm'.
  { unfold db'. simpl. by rewrite Hm1. }
  split.
  - split; [lia|]. rewrite Hc', Hm'.
    intros id Hsome.
    destruct (decide (id = movementIdOf (counterAt db "stockMovements" + 1))) as [->|Hne].
    + exists (counterAt db "stockMovements" + 1). split; [lia|done].
    + rewrite lookup_insert_ne in Hsome by done.
      destruct (Hissued _ Hsome) as (n & Hn & ->). exists n. split; [lia|done].
  - by intros id' movement' message' [= <- <- <-].
Qed.

Lemma createStockMovement_issues_id_witness :
  movementIdsIssued (createStockMovement noon depleted restock).1 ∧
  ∀ id movement message,
    (createStockMovement noon depleted restock).2 = Success id movement message →
    id = movementIdOf (counterAt depleted "stockMovements" + 1) ∧
    stockMovements depleted !! id = None ∧
    stockMovements (createStockMovement noon depleted restock).1
    = <[id := movement]> (stockMovements depleted).
Proof.
  apply (createStockMovement_issues_id noon depleted restock).
  - done.
  - split; [by vm_compute|]. intros id [m Hm].
    exists 1. split; [by vm_compute|].
    destruct (decide (id = "MOV000001")) as [->|Hne]; [done|].
    unfold depleted in Hm. simpl in Hm. by rewrite lookup_singleton_ne in Hm.
  - by destruct (createStockMovement noon depleted restock).
Defined.

Lemma deleteMovement_store env db id db' r :
  deleteMovement env db id = (db', r) →
  counters db' = counters db ∧ invoices db' = invoices db ∧
  (stockMovements db' = stockMovements db ∨
   stockMovements db' = delete id (stockMovements db)).
Proof.
  unfold deleteMovement.
  destruct (negb (JS.truthy id)); [by intros [= <- <-]; auto|].
  destruct (stockMovements db !! id) as [m|]; [|by intros [= <- <-]; auto].
  destruct (tooOld env m); [by intros [= <- <-]; auto|].
  assert (∀ one sh, ledgerTurn one sh →
            ∀ items, counters (bulk one db items).1 = counters db ∧
                     invoices (bulk one db items).1 = invoices db ∧
                     stockMovements (bulk one db items).1 = stockMovements db) as Hbulk.
  { intros one sh Hone items. rewrite (bulk_returns _ _ Hone). simpl.
    rewrite foldl_applyWrite_counters, foldl_applyWrite_stockMovements.
    rewrite foldl_applyWrite_invoices by apply (staged_productWrites _ _ Hone). done. }
  destruct (String.eqb (m_type m) "stock_in").
  - pose proof (Hbulk _ _ removeOne_turn ((λ p, (ml_productId p, ml_quantity p)) <$> m_products m))
      as (Hc & Hi & Hm).
    unfold removeQuantitiesFromProducts.
    destruct (bulk removeOne db _) as [db1 [rs|e]]; simpl in *.
    + destruct (negb (bool_decide _)); intros [= <- <-]; simpl; rewrite ?Hm; auto.
    + intros [= <- <-]. auto.
  - destruct (String.eqb (m_type m) "distribution"); [|by intros [= <- <-]; auto].
    pose proof (Hbulk _ _ addOne_turn ((λ p, (ml_productId p, ml_quantity p)) <$> m_products m))
      as (Hc & Hi & Hm).
    unfold addQuantitiesToProducts.
    destruct (bulk addOne db _) as [db1 [rs|e]]; simpl in *.
    + destruct (negb (bool_decide _)); intros [= <- <-]; simpl; rewrite ?Hm; auto.
    + intros [= <- <-]. auto.
Qed.

(** X12: [deleteMovement] leaves the counter alone, so the identifier of
    a deleted movement is not given again: the movement created next gets
    an identifier that neither the store nor the deleted movement had. *)
Theorem deleteMovement_id_not_reused env db id db1 r env' data db2 id' movement message :
  transactionFails env' = false →
  movementIdsIssued db →
  is_Some (stockMovements db !! id) →
  deleteMovement env db id = (db1, r) →
  createStockMovement env' db1 data = (db2, Success id' movement message) →
  id' ≠ id ∧ stockMovements db !! id' = None.
Proof.
  intros Hok [Hcount Hissued] Hstored Hdel Hrun.
  apply deleteMovement_store in Hdel as (Hc & _ & Hm).
  apply createStockMovement_cases in Hrun
    as [[_ [? [=]]]|(db1' & ? & batch & Hid & _ & _ & Hend)].
  destruct Hend as [(? & ? & [= <- <- <-] & _)|(? & ? & ? & [=] & _)].
  apply (getNextMovementId_counted _ _ _ _ Hok) in Hid as (-> & _).
  assert (counterAt db1 "stockMovements" = counterAt db "stockMovements") as ->
    by (unfold counterAt; by rewrite Hc).
  assert (∀ k, is_Some (stockMovements db !! k) →
               k ≠ movementIdOf (counterAt db "stockMovements" + 1)) as Hnew.
  { intros k Hk Heq. destruct (Hissued _ Hk) as (n & Hn & ->).
    apply movementIdOf_inj in Heq; lia. }
  split.
  - intros Heq. by apply (Hnew id).
  - apply eq_None_not_Some. intros Hsome. by apply (Hnew _ Hsome).
Qed.

Lemma deleteMovement_id_not_reused_witness :
  "MOV000002" ≠ "MOV000001" ∧ stockMovements stale !! "MOV000002" = None.
Proof.
  apply (deleteMovement_id_not_reused noon stale "MOV000001"
           (deleteMovement noon stale "MOV000001").1
           (deleteMovement noon stale "MOV000001").2
           noon restock
           (createStockMovement noon (deleteMovement noon stale "MOV000001").1 restock).1
           "MOV000002"
           (mkMovement "stock_in" None (Some "ACME") "Alice"
              [mkMovementLine "prod-001" "Flour" 5 10 50 5 10] 50 5 ""
              (Some 1700000000000) (Some 1700000000000))
           "Stock added successfully").
  - done.
  - split; [by vm_compute|]. intros id [m Hm].
    exists 1. split; [by vm_compute|].
    destruct (decide (id = "MOV000001")) as [->|Hne]; [done|].
    unfold stale in Hm. simpl in Hm. by rewrite lookup_singleton_ne in Hm.
  - by eexists.
  - by destruct (deleteMovement noon stale "MOV000001").
  - by vm_compute.
Defined.

End movementIds.

(** ** Marking an invoice paid or not paid *)
Section updateInvoiceStatus.
Import Firestore InvoiceCon InvoiceAdmin.

Lemma orNum_Some_0 x : JS.orNum (Some x) 0 = x.
Proof. unfold JS.orNum. by destruct (Z.eqb_spec x 0). Qed.

Lemma validStatuses_elem status :
  status ∈ validStatuses ↔ status = "paid" ∨ status = "not paid".
Proof.
  unfold validStatuses. rewrite elem_of_cons, list_elem_of_singleton. tauto.
Qed.

Lemma statusPatch_not_paid invoice :
  statusPatch "not paid" invoice
  = mkInvoicePatch None None None
      (Some (Z.max 0 (i_total invoice - i_remise invoice - i_advance invoice)))
      (Some "not paid") (Some false) None None.
Proof.
  unfold statusPatch. change (String.eqb "not paid" "paid") with false.
  cbv iota zeta. by rewrite !orNum_Some_0.
Qed.

(** What a reply 200 of [updateInvoiceStatus] stands for. *)
Lemma updateInvoiceStatus_200 db id status db' response :
  updateInvoiceStatus db id status = (db', response) →
  sr_status response = 200 →
  (status = "paid" ∨ status = "not paid") ∧
  JS.truthy id = true ∧
  ∃ invoice,
    invoices db !! id = Some invoice ∧
    db' = setInvoices db (<[id := patchInvoice (statusPatch status invoice) invoice]> (invoices db)).
Proof.
  unfold updateInvoiceStatus.
  destruct (bool_decide_reflect (status ∈ validStatuses)) as [Hvalid|_];
    [|by intros [= <- <-]].
  cbn [negb]. destruct (JS.truthy id) eqn:Hid; [|by intros [= <- <-]].
  cbn [negb]. destruct (invoices db !! id) as [invoice|] eqn:Hinv; [|by intros [= <- <-]].
  intros [= <- <-] _. split; [by apply validStatuses_elem|].
  split; [done|]. exists invoice. split; [done|].
  unfold applyWrite. f_equal.
  apply map_eq. intros k. destruct (decide (k = id)) as [->|Hne].
  - by rewrite lookup_alter_eq, lookup_insert_eq, Hinv.
  - by rewrite lookup_alter_ne, lookup_insert_ne.
Qed.

(** X13: when [updateInvoiceStatus] answers 200 the invoice carries the
    status asked for, which is 'paid' or 'not paid'; marked paid its rest
    is 0 and its flag [paid] is set, marked not paid its rest is the total
    less the discount and the advance, or 0 when that is negative, and the
    flag is cleared.  Its lines and amounts, the other invoices and the
    products stay as they were. *)
Theorem updateInvoiceStatus_stores db id status db' response :
  updateInvoiceStatus db id status = (db', response) →
  sr_status response = 200 →
  ∃ before after,
    invoices db !! id = Some before ∧
    invoices db' = <[id := after]> (invoices db) ∧
    products db' = products db ∧
    i_status after = status ∧
    (status = "paid" ∧ i_rest after = 0 ∧ i_paid after = Some true ∨
     status = "not paid" ∧
     i_rest after = Z.max 0 (i_total before - i_remise before - i_advance before) ∧
     i_paid after = Some false) ∧
    i_products after = i_products before ∧
    i_total after = i_total before ∧
    i_remise after = i_remise before ∧
    i_advance after = i_advance before.
Proof.
  intros Hrun H200.
  destruct (updateInvoiceStatus_200 _ _ _ _ _ Hrun H200)
    as (Hstatus & _ & invoice & Hinv & ->).
  exists invoice, (patchInvoice (statusPatch status invoice) invoice).
  split; [done|]. split; [done|]. split; [done|].
  destruct Hstatus as [->| ->].
  - split; [done|]. split; [by left|done].
  - split; [done|]. split; [|done]. right.
    split; [done|]. split; [|done].
    by rewrite statusPatch_not_paid.
Qed.

Lemma updateInvoiceStatus_stores_witness :
  ∃ before after,
    invoices (billed "confirmed") !! "INV-001" = Some before ∧
    invoices (updateInvoiceStatus (billed "confirmed") "INV-001" "paid").1
    = <["INV-001" := after]> (invoices (billed "confirmed")) ∧
    products (updateInvoiceStatus (billed "confirmed") "INV-001" "paid").1
    = products (billed "confirmed") ∧
    i_status after = "paid" ∧
    ("paid" = "paid" ∧ i_rest after = 0 ∧ i_paid after = Some true ∨
     "paid" = "not paid" ∧
     i_rest after = Z.max 0 (i_total before - i_remise before - i_advance before) ∧
     i_paid after = Some false) ∧
    i_products after = i_products before ∧
    i_total after = i_total before ∧
    i_remise after = i_remise before ∧
    i_advance after = i_advance before.
Proof.
  apply (updateInvoiceStatus_stores (billed "confirmed") "INV-001" "paid"
           (updateInvoiceStatus (billed "confirmed") "INV-001" "paid").1
           (updateInvoiceStatus (billed "confirmed") "INV-001" "paid").2).
  - by destruct (updateInvoiceStatus (billed "confirmed") "INV-001" "paid").
  - by vm_compute.
Defined.

(** X14: any other answer of [updateInvoiceStatus] leaves the store as it
    was, and a status other than 'paid' and 'not paid' (the 'pending' and
    'confirmed' of the other flows among them) is answered 400, whatever
    the invoice. *)
Theorem updateInvoiceStatus_rejects db id status :
  (sr_status (updateInvoiceStatus db id status).2 ≠ 200 →
   (updateInvoiceStatus db id status).1 = db) ∧
  (status ≠ "paid" → status ≠ "not paid" →
   sr_status (updateInvoiceStatus db id status).2 = 400) ∧
  (status = "paid" ∨ status = "not paid" → JS.truthy id = true →
   invoices db !! id = None →
   sr_status (updateInvoiceStatus db id status).2 = 404).
Proof.
  unfold updateInvoiceStatus.
  destruct (bool_decide_reflect (status ∈ validStatuses)) as [Hvalid|Hinvalid]; cbn [negb].
  - assert (status = "paid" ∨ status = "not paid") as Hstatus
      by by apply validStatuses_elem.
    destruct (JS.truthy id); cbn [negb].
    + destruct (invoices db !! id); simpl.
      * split; [done|]. split; [|done]. intros; by destruct Hstatus.
      * split; [done|]. split; [|done]. intros; by destruct Hstatus.
    + split; [done|]. split; [|done]. intros; by destruct Hstatus.
  - simpl. split; [done|]. split; [done|].
    intros Hstatus. destruct Hinvalid. by apply validStatuses_elem.
Qed.

(** X15: once [updateInvoiceStatus] has marked a confirmed invoice, the
    status no longer says that it was confirmed: [confirmInvoice] takes
    the invoice again and debits the stock of every line a second
    time. *)
Theorem updateInvoiceStatus_reopens db id status db1 response invoice :
  invoices db !! id = Some invoice →
  updateInvoiceStatus db id status = (db1, response) →
  sr_status response = 200 →
  (∀ line, line ∈ i_products invoice → JS.truthy (il_productId line) = true) →
  sufficientStock db (i_products invoice) →
  confirmInvoice db1 id
  = (foldl applyWrite db1
       (((λ line, debitOf db (il_productId line) (il_quantity line))
         <$> i_products invoice) ++ [UpdateInvoice id confirmedPatch]),
     Returned id).
Proof.
  intros Hinv Hrun H200 Hids Hstock.
  destruct (updateInvoiceStatus_200 _ _ _ _ _ Hrun H200)
    as (Hstatus & Hid & invoice' & Hinv' & ->).
  rewrite Hinv in Hinv'. injection Hinv' as <-.
  set (after := patchInvoice (statusPatch status invoice) invoice).
  assert (i_products after = i_products invoice) as Hlines by by destruct Hstatus as [->| ->].
  assert (i_status after = status) as Hafter by by destruct Hstatus as [->| ->].
  rewrite (confirmInvoice_confirms _ id after Hid).
  - by rewrite Hlines.
  - simpl. apply lookup_insert_eq.
  - rewrite Hafter. by destruct Hstatus as [->| ->].
  - by rewrite Hlines.
  - by rewrite Hlines.
Qed.

Lemma updateInvoiceStatus_reopens_witness :
  confirmInvoice (updateInvoiceStatus served "INV-001" "not paid").1 "INV-001"
  = (foldl applyWrite (updateInvoiceStatus served "INV-001" "not paid").1
       (((λ line, debitOf served (il_productId line) (il_quantity line))
         <$> i_products (order "confirmed")) ++ [UpdateInvoice "INV-001" confirmedPatch]),
     Returned "INV-001").
Proof.
  apply (updateInvoiceStatus_reopens served "INV-001" "not paid"
           (updateInvoiceStatus served "INV-001" "not paid").1
           (updateInvoiceStatus served "INV-001" "not paid").2
           (order "confirmed")).
  - done.
  - by destruct (updateInvoiceStatus served "INV-001" "not paid").
  - by vm_compute.
  - intros line Hline. apply list_elem_of_singleton in Hline as ->. done.
  - intros line Hline. apply list_elem_of_singleton in Hline as ->.
    eexists. split; [by vm_compute|]. by vm_compute.
Defined.

End updateInvoiceStatus.

(** ** Whether a movement can be deleted *)
Section checkMovementDeletable.
Import Firestore ProductModel MovementModel MovementCheck.

Lemma tooOld_timeDiff env m d :
  timeDiff env m = Some d → tooOld env m = negb (d <=? 24 * msPerHour).
Proof.
  intros Hd. unfold tooOld. rewrite Hd.
  destruct (Z.ltb_spec (24 * msPerHour) d), (Z.leb_spec d (24 * msPerHour)); (done || lia).
Qed.

(** Which deletions are refused for the age of the movement. *)
Lemma deleteMovement_too_old_iff env db id m :
  JS.truthy id = true →
  stockMovements db !! id = Some m →
  tooOld env m = true ↔
  ∃ message errors,
    deleteMovement env db id = (db, Refused "MOVEMENT_TOO_OLD" message errors).
Proof.
  intros Hid Hm. unfold deleteMovement. rewrite Hid, Hm. cbn [negb].
  destruct (tooOld env m); [split; eauto|].
  split; [done|]. intros (message & errors & Hrun). exfalso. revert Hrun.
  destruct (String.eqb (m_type m) "stock_in").
  { destruct (removeQuantitiesFromProducts db _) as [db1 [rs|e]]; [|done].
    by destruct (negb (bool_decide _)). }
  destruct (String.eqb (m_type m) "distribution"); [|done].
  destruct (addQuantitiesToProducts db _) as [db1 [rs|e]]; [|done].
  by destruct (negb (bool_decide _)).
Qed.

(** X16: for a stored movement with a date, [checkMovementDeletable]
    answers [canDelete] exactly when [deleteMovement] does not refuse
    the movement for its age, and [isExpired] is the opposite flag; a
    movement of exactly 24 hours can still be deleted. *)
Theorem checkMovementDeletable_agrees env db id m t :
  JS.truthy id = true →
  stockMovements db !! id = Some m →
  m_timestamp m = Some t →
  ∃ canDelete,
    checkMovementDeletable env db id = Checked canDelete (negb canDelete) ∧
    (canDelete = true ↔ now env - t ≤ 24 * msPerHour) ∧
    (canDelete = false ↔
     ∃ message errors,
       deleteMovement env db id = (db, Refused "MOVEMENT_TOO_OLD" message errors)).
Proof.
  intros Hid Hm Ht.
  assert (timeDiff env m = Some (now env - t)) as Hd
    by (unfold timeDiff, movementTimestamp; by rewrite Ht).
  exists (now env - t <=? 24 * msPerHour).
  split; [|split].
  - unfold checkMovementDeletable. by rewrite Hid, Hm, Hd.
  - apply Z.leb_le.
  - rewrite <- (deleteMovement_too_old_iff env db id m Hid Hm).
    rewrite (tooOld_timeDiff _ _ _ Hd).
    by destruct (_ <=? _).
Qed.

Lemma checkMovementDeletable_agrees_witness :
  ∃ canDelete,
    checkMovementDeletable twoDaysLater stale "MOV000001" = Checked canDelete (negb canDelete) ∧
    (canDelete = true ↔ now twoDaysLater - (1700000000000 - 3600000) ≤ 24 * msPerHour) ∧
    (canDelete = false ↔
     ∃ message errors,
       deleteMovement twoDaysLater stale "MOV000001"
       = (stale, Refused "MOVEMENT_TOO_OLD" message errors)).
Proof.
  apply (checkMovementDeletable_agrees twoDaysLater stale "MOV000001" delivery); done.
Defined.

(** X17: for a stored movement without a date the two disagree:
    [checkMovementDeletable] fails on the invalid date, while
    [deleteMovement] does not refuse the movement for its age. *)
Theorem checkMovementDeletable_undated env db id m :
  JS.truthy id = true →
  stockMovements db !! id = Some m →
  movementTimestamp m = None →
  checkMovementDeletable env db id = Unchecked invalidTime [invalidTime] ∧
  ∀ db' message errors,
    deleteMovement env db id = (db', Refused "MOVEMENT_TOO_OLD" message errors) → False.
Proof.
  intros Hid Hm Ht.
  assert (timeDiff env m = None) as Hd by (unfold timeDiff; by rewrite Ht).
  split.
  - unfold checkMovementDeletable. by rewrite Hid, Hm, Hd.
  - intros db' message errors Hrun.
    assert (tooOld env m = false) as Hyoung by (unfold tooOld; by rewrite Hd).
    revert Hrun. unfold deleteMovement. rewrite Hid, Hm, Hyoung. cbn [negb].
    destruct (String.eqb (m_type m) "stock_in").
    { destruct (removeQuantitiesFromProducts db _) as [db1 [rs|e]]; [|done].
      by destruct (negb (bool_decide _)). }
    destruct (String.eqb (m_type m) "distribution"); [|done].
    destruct (addQuantitiesToProducts db _) as [db1 [rs|e]]; [|done].
    by destruct (negb (bool_decide _)).
Qed.

Lemma checkMovementDeletable_undated_witness :
  checkMovementDeletable noon undatedStore "MOV000001" = Unchecked invalidTime [invalidTime] ∧
  ∀ db' message errors,
    deleteMovement noon undatedStore "MOV000001"
    = (db', Refused "MOVEMENT_TOO_OLD" message errors) → False.
Proof.
  apply (checkMovementDeletable_undated noon undatedStore "MOV000001" undated); done.
Defined.

End checkMovementDeletable.

(** ** The stock movement controller *)
Section movementCon.
Import Firestore ProductModel MovementModel.

(** X18: a body that passes [validateMovementData] is answered 201 with
    [success: true] whatever the model resolved to: when the model
    reports a failure (no stock, no supplier, ...) the reply carries the
    message of the failure without a movement and no movement is stored;
    the store is as it was, unless a line of the body names a product
    stored without name, on which the model fails after its writes. *)
Theorem createStockMovement_reports_success env db data :
  MovementCon.validateMovementData data = None →
  MovementCon.rs_status (MovementCon.createStockMovement env db data).2 = 201 ∧
  MovementCon.rs_success (MovementCon.createStockMovement env db data).2 = true ∧
  ∀ message,
    (createStockMovement env db (MovementCon.toModel data)).2 = Failure message →
    (MovementCon.createStockMovement env db data).2
    = MovementCon.mkResponse 201 true message None None ∧
    stockMovements (MovementCon.createStockMovement env db data).1 = stockMovements db ∧
    ((MovementCon.createStockMovement env db data).1 = db ∨
     ∃ p productData,
       p ∈ default [] (MovementCon.rq_products data) ∧
       products db !! MovementCon.lr_productId p = Some productData ∧
       p_name productData = "").
Proof.
  intros Hvalid. unfold MovementCon.createStockMovement. rewrite Hvalid.
  destruct (createStockMovement env db (MovementCon.toModel data)) as [db' r] eqn:Hrun.
  destruct r as [id movement message|message]; cbn [fst snd].
  - split; [done|]. split; [done|]. intros ? [=].
  - split; [done|]. split; [done|]. intros ? [= <-]. split; [done|].
    apply createStockMovement_cases in Hrun
      as [[-> _]|(db1 & id & batch & Hid & _ & _ & Hend)]; [by split; [|left]|].
    destruct Hend as [(? & ? & [=] & _)|(? & p & productData & _ & -> & Hp & Hdoc & Hname)].
    split.
    + rewrite foldl_applyWrite_stockMovements.
      unfold getNextMovementId in Hid.
      by destruct (transactionFails env); injection Hid as <- _.
    + right. cbn [rq_products MovementCon.toModel] in Hp.
      apply list_elem_of_fmap in Hp as (line & -> & Hline). eauto.
Qed.

Lemma createStockMovement_reports_success_witness :
  MovementCon.rs_status (MovementCon.createStockMovement noon shelf overdrawBody).2 = 201 ∧
  MovementCon.rs_success (MovementCon.createStockMovement noon shelf overdrawBody).2 = true ∧
  ∀ message,
    (createStockMovement noon shelf (MovementCon.toModel overdrawBody)).2 = Failure message →
    (MovementCon.createStockMovement noon shelf overdrawBody).2
    = MovementCon.mkResponse 201 true message None None ∧
    stockMovements (MovementCon.createStockMovement noon shelf overdrawBody).1
    = stockMovements shelf ∧
    ((MovementCon.createStockMovement noon shelf overdrawBody).1 = shelf ∨
     ∃ p productData,
       p ∈ default [] (MovementCon.rq_products overdrawBody) ∧
       products shelf !! MovementCon.lr_productId p = Some productData ∧
       p_name productData = "").
Proof.
  apply (createStockMovement_reports_success noon shelf overdrawBody). by vm_compute.
Defined.

Lemma includes_cons_ne needle c hay :
  JS.startsWith needle (String c hay) = false →
  JS.includes needle (String c hay) = JS.includes needle hay.
Proof. intros Hs. simpl JS.includes. by rewrite Hs. Qed.

(** A needle that starts with no digit is not found across a run of
    digits. *)
Lemma includes_digits c needle digits hay :
  InvoiceCon.isDigit c = false →
  InvoiceCon.digitsOf digits = digits →
  JS.includes (String c needle) (digits +:+ hay) = JS.includes (String c needle) hay.
Proof.
  intros Hc. induction digits as [|d digits IH]; intros Hd; [done|].
  simpl in Hd. destruct (InvoiceCon.isDigit d) eqn:Hdigit; [|done].
  injection Hd as Hd.
  change (String d digits +:+ hay) with (String d (digits +:+ hay)).
  rewrite includes_cons_ne; [by apply IH|].
  simpl. destruct (Ascii.eqb_spec c d) as [->|]; [congruence|done].
Qed.

Lemma digits_pretty_nat (n : nat) : InvoiceCon.digitsOf (pretty n) = pretty n.
Proof.
  unfold pretty, pretty_nat, pretty, pretty_N.
  destruct (decide (N.of_nat n = 0%N)); [done|]. by apply digits_pretty_go.
Qed.

(** The messages thrown for a line have none of the words the
    controller looks for. *)
Lemma statusCode_line index product message :
  MovementCon.validateLine index product = Some message →
  MovementCon.statusCode message = 500.
Proof.
  assert (∀ tail,
    MovementCon.statusCode tail = 500 →
    MovementCon.statusCode ("Product " +:+ pretty (index + 1)%nat +:+ tail) = 500) as Hcode.
  { intros tail. unfold MovementCon.statusCode.
    change ("Product " +:+ pretty (index + 1)%nat +:+ tail)
      with (String "P" (String "r" (String "o" (String "d" (String "u" (String "c"
             (String "t" (String " " (pretty (index + 1)%nat +:+ tail))))))))).
    rewrite !includes_cons_ne by done.
    by rewrite !includes_digits by (done || apply digits_pretty_nat). }
  unfold MovementCon.validateLine.
  destruct (MovementCon.lr_quantity product) as [quantity|].
  - destruct (_ || _); [intros [= <-]; by apply Hcode|].
    destruct (quantity <=? 0); [|done]. intros [= <-]. by apply Hcode.
  - intros [= <-]. by apply Hcode.
Qed.

Lemma head_omap_imap {A B} (f : nat → A → option B) (l : list A) y :
  head (omap id (imap f l)) = Some y → ∃ i x, f i x = Some y.
Proof.
  revert f. induction l as [|x l IH]; intros f; [done|].
  simpl. destruct (f 0%nat x) as [y'|] eqn:Hfx; simpl.
  - intros [= <-]. eauto.
  - intros Hrest. apply IH in Hrest as (i & x' & Hi). eauto.
Qed.

Lemma head_omap_None {A B} (f : A → option B) (l : list A) x :
  head (omap f l) = None → x ∈ l → f x = None.
Proof.
  induction l as [|y l IH]; intros Hhead Hin; [by apply not_elem_of_nil in Hin|].
  simpl in Hhead. destruct (f y) eqn:Hy; [done|].
  apply elem_of_cons in Hin as [->|Hin]; [done|by apply IH].
Qed.

Lemma head_omap_imap_None {A B} (f : nat → A → option B) (l : list A) :
  (∀ i x, x ∈ l → f i x = None) → head (omap id (imap f l)) = None.
Proof.
  revert f. induction l as [|x l IH]; intros f Hall; [done|].
  simpl. rewrite (Hall 0%nat x) by by left. simpl.
  apply IH. intros i y Hy. apply Hall. by right.
Qed.

(** A line the middleware lets through passes the loop of
    [validateMovementData]. *)
Lemma checkLine_None index product :
  MovementRoutes.checkLine product = None →
  MovementCon.validateLine index product = None.
Proof.
  unfold MovementRoutes.checkLine, MovementCon.validateLine.
  destruct (MovementCon.lr_quantity product) as [quantity|]; [|done].
  destruct (JS.truthy (MovementCon.lr_productId product)); [|done].
  destruct (JS.truthy (MovementCon.lr_productName product)); [|done].
  simpl. destruct (quantity =? 0); [done|]. simpl.
  destruct (JS.truthy (MovementCon.lr_unit product)); [|done]. simpl.
  by destruct (quantity <=? 0).
Qed.

(** X19: a body that fails [validateMovementData] stores nothing, and the
    controller answers 400 only when a required field is missing or the
    type is not one of the two; an empty array of products, a blank stock
    manager, a distribution without department and a faulty line are
    answered 500.  Behind the middleware of the route, which answers the
    other cases itself, the failures left are the blank stock manager,
    answered 500, and the unknown type, answered 400. *)
Theorem createStockMovement_validation_status env db data message :
  MovementCon.validateMovementData data = Some message →
  MovementCon.createStockMovement env db data
  = (db, MovementCon.mkResponse (if missingOrInvalidType data then 400 else 500)
           false message None None) ∧
  (MovementRoutes.validateMovementCreation data = None →
   MovementRoutes.post env db data = MovementCon.createStockMovement env db data ∧
   (message = "Stock manager name is required" ∧ missingOrInvalidType data = false ∨
    message = "Invalid movement type. Must be one of: stock_in, distribution" ∧
    missingOrInvalidType data = true)).
Proof.
  intros Hvalid. split.
  - unfold MovementCon.createStockMovement. rewrite Hvalid.
    do 2 f_equal. revert Hvalid.
    unfold MovementCon.validateMovementData, missingOrInvalidType.
    destruct data as [type manager [lines|] department supplier notes]; simpl.
    2: { destruct (JS.truthy type), (JS.truthy manager); simpl; intros [= <-];
         by rewrite ?orb_true_r. }
    destruct (JS.truthy type) eqn:Htype; simpl.
    2: { destruct (JS.truthy manager); intros [= <-]; done. }
    destruct (JS.truthy manager) eqn:Hmanager; simpl; [|by intros [= <-]].
    destruct (bool_decide_reflect (lines = [])) as [->|Hlines]; simpl; [by intros [= <-]|].
    destruct (String.eqb (JS.trim manager) ""); simpl; [by intros [= <-]|].
    destruct (bool_decide (type ∈ MovementCon.validMovementTypes)); simpl;
      [|by intros [= <-]].
    destruct (_ && _); [by intros [= <-]|].
    intros Hline. apply head_omap_imap in Hline as (i & x & Hline).
    by apply statusCode_line in Hline.
  - intros Hpass. split; [unfold MovementRoutes.post; by rewrite Hpass|].
    revert Hpass Hvalid.
    unfold MovementRoutes.validateMovementCreation, MovementCon.validateMovementData,
      missingOrInvalidType.
    destruct data as [type manager [lines|] department supplier notes]; simpl.
    2: { by rewrite !orb_true_r. }
    destruct (JS.truthy type); [|done].
    destruct (JS.truthy manager); [|done]. simpl.
    destruct (bool_decide (lines = [])); [done|]. simpl.
    destruct (String.eqb (JS.trim manager) ""); simpl; [intros _ [= <-]; by left|].
    destruct (bool_decide (type ∈ MovementCon.validMovementTypes)); simpl;
      [|intros _ [= <-]; by right].
    destruct (_ && _); [done|].
    intros Hlines.
    rewrite head_omap_imap_None; [done|].
    intros i x Hx. apply checkLine_None. by apply (head_omap_None _ lines).
Qed.

Lemma createStockMovement_validation_status_witness :
  MovementCon.createStockMovement noon shelf blankManagerBody
  = (shelf, MovementCon.mkResponse (if missingOrInvalidType blankManagerBody then 400 else 500)
              false "Stock manager name is required" None None) ∧
  (MovementRoutes.validateMovementCreation blankManagerBody = None →
   MovementRoutes.post noon shelf blankManagerBody
   = MovementCon.createStockMovement noon shelf blankManagerBody ∧
   ("Stock manager name is required" = "Stock manager name is required" ∧
    missingOrInvalidType blankManagerBody = false ∨
    "Stock manager name is required"
    = "Invalid movement type. Must be one of: stock_in, distribution" ∧
    missingOrInvalidType blankManagerBody = true)).
Proof.
  apply (createStockMovement_validation_status noon shelf blankManagerBody). by vm_compute.
Defined.

(** X20: what the status of the reply of [deleteMovementController]
    says of the store: 200, and only 200, when the movement was stored
    and is gone; 409 when the movement is kept and nothing but products
    can have changed; any other status when the store is as it was. *)
Theorem deleteMovementController_status env db id db' response :
  MovementCon.deleteMovementController env db id = (db', response) →
  (MovementCon.dr_status response = 200 ∧
   is_Some (stockMovements db !! id) ∧
   stockMovements db' = delete id (stockMovements db)) ∨
  (MovementCon.dr_status response = 409 ∧
   stockMovements db' = stockMovements db ∧ invoices db' = invoices db ∧
   counters db' = counters db) ∨
  (MovementCon.dr_status response ∈ [400; 404; 500] ∧ db' = db).
Proof.
  unfold MovementCon.deleteMovementController.
  destruct (JS.truthy id) eqn:Hid; cbn [negb].
  2: { intros [= <- <-]. right; right. split; [|done]. simpl. rewrite !elem_of_cons. auto. }
  unfold deleteMovement. rewrite Hid. cbn [negb].
  destruct (stockMovements db !! id) as [m|] eqn:Hm.
  2: { intros [= <- <-]. right; right. split; [|done]. simpl. rewrite !elem_of_cons. auto. }
  destruct (tooOld env m).
  { intros [= <- <-]. right; right. split; [|done]. simpl. rewrite !elem_of_cons. auto. }
  assert (∀ one sh, ledgerTurn one sh →
            ∀ items, counters (bulk one db items).1 = counters db ∧
                     invoices (bulk one db items).1 = invoices db ∧
                     stockMovements (bulk one db items).1 = stockMovements db ∧
                     ∃ rs, (bulk one db items).2 = Returned rs) as Hbulk.
  { intros one sh Hone items. rewrite (bulk_returns _ _ Hone). simpl.
    rewrite foldl_applyWrite_counters, foldl_applyWrite_stockMovements.
    rewrite foldl_applyWrite_invoices by apply (staged_productWrites _ _ Hone). eauto. }
  destruct (String.eqb (m_type m) "stock_in").
  - pose proof (Hbulk _ _ removeOne_turn
                  ((λ p, (ml_productId p, ml_quantity p)) <$> m_products m))
      as (Hc & Hi & Hs & rs & Hrs).
    unfold removeQuantitiesFromProducts.
    destruct (bulk removeOne db _) as [db1 applied]. simpl in *. subst applied.
    destruct (negb (bool_decide _)); intros [= <- <-]; simpl.
    + right; left. auto.
    + left. rewrite Hs. eauto.
  - destruct (String.eqb (m_type m) "distribution").
    2: { intros [= <- <-]. right; right. split; [|done]. simpl. rewrite !elem_of_cons. auto. }
    pose proof (Hbulk _ _ addOne_turn
                  ((λ p, (ml_productId p, ml_quantity p)) <$> m_products m))
      as (Hc & Hi & Hs & rs & Hrs).
    unfold addQuantitiesToProducts.
    destruct (bulk addOne db _) as [db1 applied]. simpl in *. subst applied.
    destruct (negb (bool_decide _)); intros [= <- <-]; simpl.
    + right; left. auto.
    + left. rewrite Hs. eauto.
Qed.

Lemma deleteMovementController_status_witness :
  (MovementCon.dr_status (MovementCon.deleteMovementController noon depleted "MOV000001").2
   = 200 ∧
   is_Some (stockMovements depleted !! "MOV000001") ∧
   stockMovements (MovementCon.deleteMovementController noon depleted "MOV000001").1
   = delete "MOV000001" (stockMovements depleted)) ∨
  (MovementCon.dr_status (MovementCon.deleteMovementController noon depleted "MOV000001").2
   = 409 ∧
   stockMovements (MovementCon.deleteMovementController noon depleted "MOV000001").1
   = stockMovements depleted ∧
   invoices (MovementCon.deleteMovementController noon depleted "MOV000001").1
   = invoices depleted ∧
   counters (MovementCon.deleteMovementController noon depleted "MOV000001").1
   = counters depleted) ∨
  (MovementCon.dr_status (MovementCon.deleteMovementController noon depleted "MOV000001").2
   ∈ [400; 404; 500] ∧
   (MovementCon.deleteMovementController noon depleted "MOV000001").1 = depleted).
Proof.
  apply (deleteMovementController_status noon depleted "MOV000001").
  by destruct (MovementCon.deleteMovementController noon depleted "MOV000001").
Defined.

End movementCon.

(** ** A removal followed by the addition of the same items *)
Section roundTrip.
Import Firestore ProductModel.

Lemma NoDup_fst_eq {A B} (l : list (A * B)) x y y' :
  NoDup l.*1 → (x, y) ∈ l → (x, y') ∈ l → y = y'.
Proof.
  induction l as [|[a b] l IH]; intros Hnd Hy Hy'; [by apply not_elem_of_nil in Hy|].
  rewrite fmap_cons in Hnd. apply NoDup_cons in Hnd as [Hnot Hnd].
  apply elem_of_cons in Hy as [Hy|Hy]; apply elem_of_cons in Hy' as [Hy'|Hy'].
  - congruence.
  - injection Hy as -> ->. destruct Hnot. apply list_elem_of_fmap. by exists (a, y').
  - injection Hy' as -> ->. destruct Hnot. apply list_elem_of_fmap. by exists (a, y).
  - by apply IH.
Qed.

Lemma patchesFor_elem pid batch patch :
  patch ∈ patchesFor pid batch ↔ UpdateProduct pid patch ∈ batch.
Proof.
  unfold patchesFor. rewrite list_elem_of_omap. split.
  - intros ([id p| |] & Hin & Hsel); try done.
    destruct (decide (id = pid)) as [->|]; [|done]. by injection Hsel as ->.
  - intros Hin. eexists. split; [done|]. simpl. by rewrite decide_True.
Qed.

(** With one item per product, the product of an item that passed is
    patched with the count the ledger computed for that item. *)
Lemma bulk_item one sh db items pid n :
  ledgerTurn one sh →
  NoDup items.*1 →
  (pid, n) ∈ items →
  r_success (one db (pid, n)).1 = true →
  ∃ doc new,
    products db !! pid = Some doc ∧
    r_newQuantity (one db (pid, n)).1 = Some new ∧
    products (bulk one db items).1 !! pid
    = Some (patchProduct (mkProductPatch (Some new) (if sh.2 then Some new else None)) doc).
Proof.
  intros Hone Hnd Hin Hs.
  rewrite (bulk_returns _ _ Hone). simpl.
  rewrite (foldl_applyWrite_last (true, sh.2)) by apply (staged_uniform _ _ Hone).
  pose proof (Hone db (pid, n)) as Hturn.
  destruct (one db (pid, n)).2 as [w|] eqn:Hw; [|simpl in *; congruence].
  destruct Hturn as (_ & new & -> & Hnew & [doc Hdoc]). simpl in Hdoc.
  exists doc, new. split; [done|]. split; [done|].
  assert (∀ patch, patch ∈ patchesFor pid (omap snd (one db <$> items)) →
            patch = mkProductPatch (Some new) (if sh.2 then Some new else None)) as Hall.
  { intros patch Hpatch. apply patchesFor_elem in Hpatch.
    apply list_elem_of_omap in Hpatch as ([r o] & Hturn & Ho). simpl in Ho. subst o.
    apply list_elem_of_fmap in Hturn as ([pid' n'] & Heq & Hin').
    pose proof (Hone db (pid', n')) as Hturn. rewrite <- Heq in Hturn. simpl in Hturn.
    destruct Hturn as (_ & new' & [= <- Hpatch] & _).
    assert (n' = n) as -> by by apply (NoDup_fst_eq items pid).
    rewrite <- Heq in Hw. simpl in Hw. by injection Hw as ->. }
  pose proof (staged_patch_intro _ _ Hone db items (pid, n) Hin Hs) as Hne.
  destruct (last (patchesFor pid (omap snd (one db <$> items)))) as [patch|] eqn:Hlast.
  - rewrite (Hall patch) by by apply last_Some_elem_of. by rewrite Hdoc.
  - apply last_None in Hlast. by destruct Hne.
Qed.

(** X21: taking items off the stock and putting the same items back does
    not restore a product: with one item per product, a product whose
    count covered its item has [q] back at the count read, while
    [quantity], which the removal had set as well, stays at the count
    less the quantity. *)
Theorem remove_then_add_keeps_quantity db items pid n doc :
  NoDup items.*1 →
  (pid, n) ∈ items →
  JS.truthy pid = true →
  products db !! pid = Some doc →
  n ≤ InvoiceCon.stockOf doc →
  ∃ doc',
    products (addQuantitiesToProducts (removeQuantitiesFromProducts db items).1 items).1
      !! pid = Some doc' ∧
    p_q doc' = Some (InvoiceCon.stockOf doc) ∧
    p_quantity doc' = Some (InvoiceCon.stockOf doc - n).
Proof.
  intros Hnd Hin Hid Hdoc Hcover.
  assert (removeOne db (pid, n)
          = (done pid (InvoiceCon.stockOf doc) n (InvoiceCon.stockOf doc - n),
             Some (UpdateProduct pid
                     (mkProductPatch (Some (InvoiceCon.stockOf doc - n))
                        (Some (InvoiceCon.stockOf doc - n)))))) as Hremove.
  { unfold removeOne. rewrite Hid, Hdoc. cbn [negb].
    fold (InvoiceCon.stockOf doc).
    by replace (InvoiceCon.stockOf doc <? n) with false by (symmetry; apply Z.ltb_ge; lia). }
  destruct (bulk_item removeOne (true, true) db items pid n removeOne_turn Hnd Hin)
    as (doc0 & new & Hdoc0 & Hnew & Hdb1); [by rewrite Hremove|].
  rewrite Hdoc in Hdoc0. injection Hdoc0 as <-.
  rewrite Hremove in Hnew. injection Hnew as <-.
  fold removeQuantitiesFromProducts in Hdb1.
  set (db1 := (removeQuantitiesFromProducts db items).1) in *.
  set (doc1 := patchProduct _ doc) in Hdb1.
  assert (addOne db1 (pid, n)
          = (done pid (InvoiceCon.stockOf doc - n) n (InvoiceCon.stockOf doc - n + n),
             Some (UpdateProduct pid
                     (mkProductPatch (Some (InvoiceCon.stockOf doc - n + n)) None)))) as Hadd.
  { unfold addOne. rewrite Hid, Hdb1. cbn [negb].
    replace (JS.orNum (p_q doc1) 0) with (InvoiceCon.stockOf doc - n); [done|].
    change (p_q doc1) with (Some (InvoiceCon.stockOf doc - n)).
    by rewrite orNum_Some_0. }
  destruct (bulk_item addOne (true, false) db1 items pid n addOne_turn Hnd Hin)
    as (doc2 & new & Hdoc2 & Hnew & Hdb2); [by rewrite Hadd|].
  rewrite Hdb1 in Hdoc2. injection Hdoc2 as <-.
  rewrite Hadd in Hnew. injection Hnew as <-.
  eexists. split; [exact Hdb2|]. simpl. split; [f_equal; lia|done].
Qed.

Lemma remove_then_add_keeps_quantity_witness :
  ∃ doc',
    products (addQuantitiesToProducts
                (removeQuantitiesFromProducts shelf [("prod-001", 4)]).1
                [("prod-001", 4)]).1 !! "prod-001" = Some doc' ∧
    p_q doc' = Some (InvoiceCon.stockOf (flour (Some 15) (Some 15))) ∧
    p_quantity doc' = Some (InvoiceCon.stockOf (flour (Some 15) (Some 15)) - 4).
Proof.
  apply (remove_then_add_keeps_quantity shelf [("prod-001", 4)] "prod-001" 4
           (flour (Some 15) (Some 15))).
  - apply NoDup_singleton.
  - by left.
  - done.
  - done.
  - by vm_compute.
Defined.

End roundTrip.

(** ** Statistics of the invoices *)
Section getInvoiceStats.
Import Firestore InvoiceCon InvoiceAdmin.

Lemma revenue_shift (l : list Invoice) a :
  foldl (λ sum invoice,
           if String.eqb (i_status invoice) "confirmed"
           then sum + JS.orNum (Some (i_total invoice)) 0 else sum) a l
  = a + foldl (λ sum invoice,
                 if String.eqb (i_status invoice) "confirmed"
                 then sum + JS.orNum (Some (i_total invoice)) 0 else sum) 0 l.
Proof.
  revert a. induction l as [|x l IH]; intros a; cbn [foldl]; [lia|].
  destruct (String.eqb (i_status x) "confirmed"); rewrite IH; [|done].
  rewrite (IH (0 + _)). lia.
Qed.

Lemma statsOf_cons invoice l : statsOf (invoice :: l) = addStats (tally invoice) (statsOf l).
Proof.
  unfold statsOf, addStats, tally. cbn [foldl st_total st_pending st_confirmed st_totalRevenue].
  rewrite revenue_shift, !filter_cons, orNum_Some_0.
  destruct (String.eqb_spec (i_status invoice) "confirmed") as [Hc|Hc];
    destruct (decide (i_status invoice = "confirmed")); try done;
    destruct (decide (i_status invoice = "pending")); try congruence;
    cbn [st_total st_pending st_confirmed st_totalRevenue length];
    f_equal; lia.
Qed.

Lemma addStats_swap a b c : addStats a (addStats b c) = addStats b (addStats a c).
Proof. unfold addStats. simpl. f_equal; lia. Qed.

(** The statistics do not depend on the order in which the invoices are
    read. *)
Lemma statsOf_perm l l' : l ≡ₚ l' → statsOf l = statsOf l'.
Proof.
  induction 1 as [|x l l' _ IH|x y l|l l' l'' _ IH1 _ IH2].
  - done.
  - by rewrite !statsOf_cons, IH.
  - rewrite !statsOf_cons. apply addStats_swap.
  - by rewrite IH1.
Qed.

Lemma getInvoiceStats_insert db db' id invoice :
  invoices db !! id = None →
  invoices db' = <[id := invoice]> (invoices db) →
  getInvoiceStats db' = addStats (tally invoice) (getInvoiceStats db).
Proof.
  intros Hfree Hdb'. unfold getInvoiceStats. rewrite <- statsOf_cons.
  apply statsOf_perm. rewrite Hdb', map_to_list_insert by done. done.
Qed.

Lemma getInvoiceStats_replace db db' id old new :
  invoices db !! id = Some old →
  invoices db' = <[id := new]> (invoices db) →
  ∃ others,
    getInvoiceStats db = addStats (tally old) others ∧
    getInvoiceStats db' = addStats (tally new) others.
Proof.
  intros Hold Hdb'.
  exists (statsOf (map_to_list (delete id (invoices db))).*2).
  unfold getInvoiceStats. rewrite <- !statsOf_cons. split; apply statsOf_perm.
  - rewrite <- (insert_delete_id (invoices db) id old) at 1 by done.
    rewrite map_to_list_insert by apply lookup_delete_eq. done.
  - rewrite Hdb', <- insert_delete_eq.
    rewrite map_to_list_insert by apply lookup_delete_eq. done.
Qed.

(** X22: while the identifiers of the stored invoices count in safe
    integers, an invoice made by [createConfirmedInvoice] adds one to the
    number of invoices and nothing else: it counts neither as pending nor
    as confirmed, and its total is no revenue. *)
Theorem createConfirmedInvoice_stats env db request db1 response :
  safeIds (InvoiceModel.getAllInvoices db) →
  createConfirmedInvoice env db request = (db1, response) →
  rs_status response = 201 →
  getInvoiceStats db1
  = mkStats (st_total (getInvoiceStats db) + 1) (st_pending (getInvoiceStats db))
      (st_confirmed (getInvoiceStats db)) (st_totalRevenue (getInvoiceStats db)).
Proof.
  intros _ Hrun H201.
  destruct (createConfirmedInvoice_201 _ _ _ _ _ Hrun H201)
    as (invoice & batch & Hpw & _ & -> & _ & _ & Hstatus).
  rewrite (getInvoiceStats_insert db _ _ invoice (generated_free env db)
             (foldl_applyWrite_set _ _ _ _ Hpw)).
  unfold addStats, tally. rewrite Hstatus. unfold payStatus.
  destruct (i_rest invoice =? 0); repeat case_decide; try done;
    cbn [st_total st_pending st_confirmed st_totalRevenue]; f_equal; lia.
Qed.

Lemma createConfirmedInvoice_stats_witness :
  getInvoiceStats (createConfirmedInvoice noon stocked (purchase None)).1
  = mkStats (st_total (getInvoiceStats stocked) + 1) (st_pending (getInvoiceStats stocked))
      (st_confirmed (getInvoiceStats stocked)) (st_totalRevenue (getInvoiceStats stocked)).
Proof.
  apply (createConfirmedInvoice_stats noon stocked (purchase None)
           (createConfirmedInvoice noon stocked (purchase None)).1
           (createConfirmedInvoice noon stocked (purchase None)).2).
  - apply (safeIds_sample _ 0); [by vm_compute..|]. vm_compute. apply Forall_nil_2.
  - by destruct (createConfirmedInvoice noon stocked (purchase None)).
  - by vm_compute.
Defined.

Lemma foldl_applyWrite_update db batch id patch :
  productWrites batch →
  invoices (foldl applyWrite db (batch ++ [UpdateInvoice id patch]))
  = alter (patchInvoice patch) id (invoices db).
Proof.
  intros Hpw. rewrite foldl_app. simpl. by rewrite foldl_applyWrite_invoices.
Qed.

Lemma alter_insert_Some {A} (f : A → A) (m : gmap string A) k x :
  m !! k = Some x → alter f k m = <[k := f x]> m.
Proof.
  intros Hk. apply map_eq. intros j. destruct (decide (j = k)) as [->|Hne].
  - by rewrite lookup_alter_eq, lookup_insert_eq, Hk.
  - by rewrite lookup_alter_ne, lookup_insert_ne.
Qed.

(** What [confirmInvoice] has done when it returns. *)
Lemma confirmInvoice_Returned db id db' id' :
  confirmInvoice db id = (db', Returned id') →
  ∃ invoice,
    invoices db !! id = Some invoice ∧
    i_status invoice ≠ "confirmed" ∧
    invoices db' = <[id := patchInvoice confirmedPatch invoice]> (invoices db).
Proof.
  unfold confirmInvoice, rethrow, InvoiceModel.getInvoiceById.
  destruct (negb (JS.truthy id)); [done|].
  destruct (invoices db !! id) as [invoice|] eqn:Hinv; [|done].
  destruct (String.eqb_spec (i_status invoice) "confirmed") as [|Hne]; [done|].
  destruct (checkStock db (i_products invoice)); [done|].
  destruct (mapM (stageDebit db) (i_products invoice)) as [debits|] eqn:Hdebits; [|done].
  destruct (commit db _) as [db1|] eqn:Hc; [|done].
  intros [= <- <-]. apply commit_inv in Hc as [-> _].
  exists invoice. split; [done|]. split; [done|].
  rewrite foldl_applyWrite_update; [by apply alter_insert_Some|].
  intros w Hw. apply mapM_Some in Hdebits.
  apply list_elem_of_lookup in Hw as [i Hw].
  destruct (Forall2_lookup_r _ _ _ _ _ Hdebits Hw) as (line & _ & Hstage).
  unfold stageDebit in Hstage.
  destruct (products db !! il_productId line); [|done].
  simpl in Hstage. injection Hstage as <-. eauto.
Qed.

(** X23: when [confirmInvoice] returns, the statistics count one more
    confirmed invoice and the total of the invoice as revenue; the number
    of invoices is the same, and the number of pending invoices is one
    less when the invoice was pending. *)
Theorem confirmInvoice_stats db id db' id' :
  confirmInvoice db id = (db', Returned id') →
  ∃ invoice,
    invoices db !! id = Some invoice ∧
    getInvoiceStats db'
    = mkStats (st_total (getInvoiceStats db))
        (st_pending (getInvoiceStats db) -
         (if decide (i_status invoice = "pending") then 1 else 0))
        (st_confirmed (getInvoiceStats db) + 1)
        (st_totalRevenue (getInvoiceStats db) + i_total invoice).
Proof.
  intros Hrun.
  apply confirmInvoice_Returned in Hrun as (invoice & Hinv & Hstatus & Hdb').
  exists invoice. split; [done|].
  destruct (getInvoiceStats_replace _ _ _ _ _ Hinv Hdb') as (others & -> & ->).
  unfold addStats, tally.
  change (i_status (patchInvoice confirmedPatch invoice)) with "confirmed".
  change (i_total (patchInvoice confirmedPatch invoice)) with (i_total invoice).
  repeat case_decide; try done;
    cbn [st_total st_pending st_confirmed st_totalRevenue]; f_equal; lia.
Qed.

Lemma confirmInvoice_stats_witness :
  ∃ invoice,
    invoices (pendingOrder) !! "INV-001" = Some invoice ∧
    getInvoiceStats (confirmInvoice pendingOrder "INV-001").1
    = mkStats (st_total (getInvoiceStats pendingOrder))
        (st_pending (getInvoiceStats pendingOrder) -
         (if decide (i_status invoice = "pending") then 1 else 0))
        (st_confirmed (getInvoiceStats pendingOrder) + 1)
        (st_totalRevenue (getInvoiceStats pendingOrder) + i_total invoice).
Proof.
  apply (confirmInvoice_stats pendingOrder "INV-001"
           (confirmInvoice pendingOrder "INV-001").1 "INV-001").
  by vm_compute.
Defined.

(** X24: when [updateInvoiceStatus] answers 200 for a confirmed invoice,
    the statistics count one confirmed invoice less and lose the total of
    the invoice as revenue. *)
Theorem updateInvoiceStatus_stats db id status db' response invoice :
  invoices db !! id = Some invoice →
  i_status invoice = "confirmed" →
  updateInvoiceStatus db id status = (db', response) →
  sr_status response = 200 →
  getInvoiceStats db'
  = mkStats (st_total (getInvoiceStats db)) (st_pending (getInvoiceStats db))
      (st_confirmed (getInvoiceStats db) - 1)
      (st_totalRevenue (getInvoiceStats db) - i_total invoice).
Proof.
  intros Hinv Hconfirmed Hrun H200.
  destruct (updateInvoiceStatus_200 _ _ _ _ _ Hrun H200)
    as (Hstatus & _ & invoice' & Hinv' & ->).
  rewrite Hinv in Hinv'. injection Hinv' as <-.
  destruct (getInvoiceStats_replace db
              (setInvoices db (<[id := patchInvoice (statusPatch status invoice) invoice]>
                                 (invoices db)))
              id invoice (patchInvoice (statusPatch status invoice) invoice) Hinv eq_refl)
    as (others & -> & ->).
  unfold addStats, tally. rewrite Hconfirmed.
  assert (i_status (patchInvoice (statusPatch status invoice) invoice) = status) as ->
    by by destruct Hstatus as [->| ->].
  repeat case_decide; try done; try (by destruct Hstatus as [->| ->]);
    cbn [st_total st_pending st_confirmed st_totalRevenue]; f_equal; lia.
Qed.

Lemma updateInvoiceStatus_stats_witness :
  getInvoiceStats (updateInvoiceStatus served "INV-001" "paid").1
  = mkStats (st_total (getInvoiceStats served)) (st_pending (getInvoiceStats served))
      (st_confirmed (getInvoiceStats served) - 1)
      (st_totalRevenue (getInvoiceStats served) - i_total (order "confirmed")).
Proof.
  apply (updateInvoiceStatus_stats served "INV-001" "paid"
           (updateInvoiceStatus served "INV-001" "paid").1
           (updateInvoiceStatus served "INV-001" "paid").2 (order "confirmed")).
  - done.
  - done.
  - by destruct (updateInvoiceStatus served "INV-001" "paid").
  - by vm_compute.
Defined.

End getInvoiceStats.

(** ** Product documents *)
Section productDocs.
Import Firestore InvoiceCon ProductDocs.

Lemma head_filter_None {A} (P : A → Prop) `{∀ x, Decision (P x)} (l : list A) x :
  head (filter P l) = None → x ∈ l → ¬ P x.
Proof.
  intros Hhead Hin HP.
  assert (x ∈ filter P l) as Hx by by apply list_elem_of_filter.
  destruct (filter P l); [by apply not_elem_of_nil in Hx|done].
Qed.







Lemma duplicate_None db productId updateData name id p :
  pu_name updateData = Some name →
  JS.truthy name = true →
  duplicate db productId updateData = None →
  products db !! id = Some p → id ≠ productId → p_name p ≠ JS.trim name.
Proof.
  intros Hname Htruthy. unfold duplicate. rewrite Hname. simpl. rewrite Htruthy.
  intros Hnone Hp Hne Heq.
  apply (head_filter_None _ _ (id, p) Hnone); [by apply elem_of_map_to_list|done].
Qed.

(** X26: [updateProduct] never touches the stock of a product, changes
    no product but the one named, and throws without writing; unless the
    name given is the empty string, for which the duplicate check is not
    run, it keeps the names of the products distinct. *)
Theorem updateProduct_keeps_stock db productId updateData :
  (∀ id, stockFields <$> products (updateProduct db productId updateData).1 !! id
         = stockFields <$> products db !! id) ∧
  (∀ id, id ≠ productId →
         products (updateProduct db productId updateData).1 !! id = products db !! id) ∧
  (∀ e, (updateProduct db productId updateData).2 = Thrown e →
        (updateProduct db productId updateData).1 = db) ∧
  (uniqueNames db → pu_name updateData ≠ Some "" →
   uniqueNames (updateProduct db productId updateData).1).
Proof.
  unfold updateProduct.
  destruct (negb (JS.truthy productId)); [done|].
  destruct (products db !! productId) as [doc|] eqn:Hdoc; [|done].
  destruct (bool_decide _); [done|].
  destruct (duplicate db productId updateData) as [found|] eqn:Hdup; [done|].
  simpl. split; [|split; [|split]].
  - intros id. destruct (decide (id = productId)) as [->|Hne].
    + rewrite lookup_alter_eq, Hdoc. done.
    + by rewrite lookup_alter_ne.
  - intros id Hne. by rewrite lookup_alter_ne.
  - done.
  - intros Hunique Hname.
    destruct (pu_name updateData) as [name|] eqn:Hgiven.
    2: { intros id1 id2 p1 p2. cbn [products setProducts].
         assert (∀ id, alter (rename (newName updateData)) productId (products db) !! id
                       = products db !! id) as Hsame.
         { intros id. destruct (decide (id = productId)) as [->|Hne].
           - rewrite lookup_alter_eq, Hdoc. unfold newName. rewrite Hgiven.
             by destruct doc.
           - by rewrite lookup_alter_ne. }
         rewrite !Hsame. apply Hunique. }
    assert (JS.truthy name = true) as Htruthy.
    { destruct name; [by destruct Hname|done]. }
    assert (newName updateData = Some (JS.trim name)) as Hnew
      by (unfold newName; by rewrite Hgiven; simpl; rewrite Htruthy).
    rewrite Hnew.
    intros id1 id2 p1 p2. cbn [products setProducts].
    destruct (decide (id1 = productId)) as [->|H1], (decide (id2 = productId)) as [->|H2].
    + done.
    + rewrite lookup_alter_eq, Hdoc, lookup_alter_ne by done. simpl.
      intros [= <-] Hp2 Heq. symmetry in Heq.
      by destruct (duplicate_None _ _ _ _ _ _ Hgiven Htruthy Hdup Hp2 H2).
    + rewrite lookup_alter_eq, Hdoc, lookup_alter_ne by done. simpl.
      intros Hp1 [= <-] Heq.
      by destruct (duplicate_None _ _ _ _ _ _ Hgiven Htruthy Hdup Hp1 H1).
    + rewrite !lookup_alter_ne by done. apply Hunique.
Qed.

End productDocs.

(** ** The quantity endpoints of the product controller *)
Section productCon.
Import Firestore ProductModel ProductCon.

Lemma firstInvalid_None products productId quantity :
  firstInvalid products = None →
  (productId, quantity) ∈ products →
  JS.truthy productId = true ∧ ∃ n, quantity = Some n ∧ 0 ≤ n.
Proof.
  induction products as [|[id q] products IH]; intros Hnone Hin;
    [by apply not_elem_of_nil in Hin|].
  simpl in Hnone. destruct q as [n|]; [|done].
  destruct (JS.truthy id) eqn:Hid; [|done]. simpl in Hnone.
  destruct (Z.ltb_spec n 0); [done|].
  apply elem_of_cons in Hin as [[= -> ->]|Hin]; [eauto|by apply IH].
Qed.

Lemma firstInvalid_Some products productId quantity :
  (productId, quantity) ∈ products →
  (quantity = None ∨ ∃ n, quantity = Some n ∧ n < 0) →
  is_Some (firstInvalid products).
Proof.
  intros Hin Hbad. destruct (firstInvalid products) eqn:Hnone; [done|].
  destruct (firstInvalid_None _ _ _ Hnone Hin) as (_ & n & -> & Hn).
  destruct Hbad as [|(n' & [= <-] & Hneg)]; [done|lia].
Qed.

(** X27: [addProductQuantities] never lowers a count.  Whatever it
    answers, a product of the store was there before, with a [q] (0 when
    absent) no larger than now and the same [quantity]; the answer is 200
    or 400, at 400 the store is as it was, and a request with an item
    without quantity or with a negative one is answered 400. *)
Theorem addProductQuantities_raises db items :
  (∀ pid doc',
     products (addProductQuantities db items).1 !! pid = Some doc' →
     ∃ doc, products db !! pid = Some doc ∧
            JS.orNum (p_q doc) 0 ≤ JS.orNum (p_q doc') 0 ∧
            p_quantity doc' = p_quantity doc) ∧
  (rp_status (addProductQuantities db items).2 = 200 ∨
   rp_status (addProductQuantities db items).2 = 400 ∧
   (addProductQuantities db items).1 = db) ∧
  (∀ pid quantity,
     (pid, quantity) ∈ items →
     quantity = None ∨ (∃ n, quantity = Some n ∧ n < 0) →
     rp_status (addProductQuantities db items).2 = 400).
Proof.
  assert (∀ pid doc', products db !! pid = Some doc' →
            ∃ doc, products db !! pid = Some doc ∧
                   JS.orNum (p_q doc) 0 ≤ JS.orNum (p_q doc') 0 ∧
                   p_quantity doc' = p_quantity doc) as Hsame by (intros; eauto with lia).
  unfold addProductQuantities.
  destruct (bool_decide (items = [])).
  { split; [done|]. split; [by right|done]. }
  destruct (firstInvalid items) as [message|] eqn:Hvalid.
  { split; [done|]. split; [by right|done]. }
  unfold addQuantitiesToProducts. rewrite (bulk_returns _ _ addOne_turn). simpl.
  split; [|split; [by left|]].
  2: { intros pid quantity Hin Hbad.
       destruct (firstInvalid_Some _ _ _ Hin Hbad) as [message Hmessage]. congruence. }
  intros pid doc'.
  rewrite (foldl_applyWrite_last (true, false)) by apply (staged_uniform _ _ addOne_turn).
  destruct (last (patchesFor pid _)) as [patch|] eqn:Hlast; [|by apply Hsame].
  apply last_Some_elem_of in Hlast.
  pose proof Hlast as Hfields. apply patchesFor_elem in Hfields.
  apply (staged_uniform _ _ addOne_turn) in Hfields.
  apply (staged_patch_inv _ _ addOne_turn) in Hlast
    as ([pid' n] & new & Hin & Hpid & _ & Hnew & Hq).
  simpl in Hpid. subst pid'.
  apply list_elem_of_fmap in Hin as ([pid' quantity] & [= -> ->] & Hin).
  destruct (firstInvalid_None _ _ _ Hvalid Hin) as (Htruthy & n & -> & Hn).
  cbn [fst snd default] in Hnew. unfold addOne in Hnew.
  rewrite Htruthy in Hnew. cbn [negb] in Hnew.
  destruct (products db !! pid') as [doc|]; [|done].
  cbn [fst r_newQuantity done] in Hnew. injection Hnew as <-.
  cbn [fmap option_fmap option_map]. intros [= <-]. exists doc. split; [done|].
  destruct patch as [q quantity]. cbn [pp_q] in Hq. subst q.
  unfold fields in Hfields. cbn [pp_quantity] in Hfields.
  destruct quantity as [x|]; [done|].
  unfold patchProduct. cbn [p_q p_quantity pp_q pp_quantity from_option].
  rewrite orNum_Some_0. split; [lia|done].
Qed.

(** X28: [removeProductQuantities] does not look at the sign of a
    quantity: with one item per product, the item of an existing product
    with a count that is not negative and a negative quantity is answered
    200 and raises the count, [q] and [quantity] both being set to the
    count read less the quantity. *)
Theorem removeProductQuantities_negative db items pid n doc :
  NoDup items.*1 →
  (pid, n) ∈ items →
  JS.truthy pid = true →
  products db !! pid = Some doc →
  0 ≤ InvoiceCon.stockOf doc →
  n < 0 →
  rp_status (removeProductQuantities db items).2 = 200 ∧
  ∃ doc',
    products (removeProductQuantities db items).1 !! pid = Some doc' ∧
    p_q doc' = Some (InvoiceCon.stockOf doc - n) ∧
    p_quantity doc' = Some (InvoiceCon.stockOf doc - n) ∧
    InvoiceCon.stockOf doc < InvoiceCon.stockOf doc - n.
Proof.
  intros Hnd Hin Hid Hdoc Hstock Hneg.
  assert (items ≠ []) as Hne by (intros ->; by apply not_elem_of_nil in Hin).
  assert (removeOne db (pid, n)
          = (done pid (InvoiceCon.stockOf doc) n (InvoiceCon.stockOf doc - n),
             Some (UpdateProduct pid
                     (mkProductPatch (Some (InvoiceCon.stockOf doc - n))
                        (Some (InvoiceCon.stockOf doc - n)))))) as Hremove.
  { unfold removeOne. rewrite Hid, Hdoc. cbn [negb]. fold (InvoiceCon.stockOf doc).
    by replace (InvoiceCon.stockOf doc <? n) with false by (symmetry; apply Z.ltb_ge; lia). }
  destruct (bulk_item removeOne (true, true) db items pid n removeOne_turn Hnd Hin)
    as (doc0 & new & Hdoc0 & Hnew & Hdb1); [by rewrite Hremove|].
  rewrite Hdoc in Hdoc0. injection Hdoc0 as <-.
  rewrite Hremove in Hnew. injection Hnew as <-.
  unfold removeProductQuantities. rewrite bool_decide_eq_false_2 by done.
  unfold removeQuantitiesFromProducts.
  rewrite (bulk_returns _ _ removeOne_turn) in *. simpl in *.
  split; [done|]. eexists. split; [exact Hdb1|]. simpl.
  split; [done|]. split; [done|lia].
Qed.

Lemma removeProductQuantities_negative_witness :
  rp_status (removeProductQuantities shelf [("prod-001", -4)]).2 = 200 ∧
  ∃ doc',
    products (removeProductQuantities shelf [("prod-001", -4)]).1 !! "prod-001" = Some doc' ∧
    p_q doc' = Some (InvoiceCon.stockOf (flour (Some 15) (Some 15)) - -4) ∧
    p_quantity doc' = Some (InvoiceCon.stockOf (flour (Some 15) (Some 15)) - -4) ∧
    InvoiceCon.stockOf (flour (Some 15) (Some 15))
    < InvoiceCon.stockOf (flour (Some 15) (Some 15)) - -4.
Proof.
  apply (removeProductQuantities_negative shelf [("prod-001", -4)] "prod-001" (-4)
           (flour (Some 15) (Some 15))).
  - apply NoDup_singleton.
  - by left.
  - done.
  - done.
  - by vm_compute.
  - done.
Defined.

End productCon.

(** ** Failures of the invoice flows *)
Section invoiceFailures.
Import Firestore InvoiceCon.

(** X29: an invoice flow that fails has written nothing: when
    [createInvoice], [updateInvoice], [confirmInvoice] or [deleteInvoice]
    throws, and when [createConfirmedInvoice] answers anything but 201,
    the store is as it was. *)
Theorem invoice_failure_leaves_store env db :
  (∀ data db' e, createInvoice env db data = (db', Thrown e) → db' = db) ∧
  (∀ id data db' e, updateInvoice db id data = (db', Thrown e) → db' = db) ∧
  (∀ id db' e, confirmInvoice db id = (db', Thrown e) → db' = db) ∧
  (∀ id db' e, deleteInvoice db id = (db', Thrown e) → db' = db) ∧
  (∀ request db' response,
     createConfirmedInvoice env db request = (db', response) →
     rs_status response ≠ 201 → db' = db).
Proof.
  split; [|split; [|split; [|split]]].
  - intros data db' e. unfold createInvoice, rethrow.
    destruct (validateInvoiceData data); [|by intros [= <-]].
    destruct (negb (bool_decide _)); [by intros [= <-]|].
    unfold InvoiceModel.createInvoice.
    destruct (negb (JS.truthy _)); [by intros [= <-]|done].
  - intros id data db' e. unfold updateInvoice, rethrow.
    destruct (negb (JS.truthy id)); [by intros [= <-]|].
    destruct (negb (JS.truthy _)); [by intros [= <-]|].
    destruct (invoices db !! _) as [current|]; [|by intros [= <-]].
    destruct (updateProducts db current _) as [[[total lines] updates]|]; [|by intros [= <-]].
    destruct (commit db _); [done|by intros [= <-]].
  - intros id db' e. unfold confirmInvoice, rethrow.
    destruct (negb (JS.truthy id)); [by intros [= <-]|].
    destruct (InvoiceModel.getInvoiceById db id) as [invoice|]; [|by intros [= <-]].
    destruct (String.eqb _ _); [by intros [= <-]|].
    destruct (checkStock db _); [by intros [= <-]|].
    destruct (mapM _ _); [|by intros [= <-]].
    destruct (commit db _); [done|by intros [= <-]].
  - intros id db' e. unfold deleteInvoice, rethrow.
    destruct (negb (JS.truthy id)) eqn:Hid; [by intros [= <-]|].
    destruct (InvoiceModel.getInvoiceById db id) as [invoice|]; [|by intros [= <-]].
    destruct (restorationBatch db invoice); [|by intros [= <-]].
    unfold InvoiceModel.deleteInvoice. by rewrite Hid.
  - intros request db' response. unfold createConfirmedInvoice.
    destruct (_ || _); [by intros [= <- <-]|].
    destruct (negb (bool_decide (_ ∈ _))); [by intros [= <- <-]|].
    destruct (existsb _ _); [by intros [= <- <-]|].
    destruct (negb (bool_decide (_ = []))); [by intros [= <- <-]|].
    destruct (negb (JS.truthy (cr_clientName request))); [by intros [= <- <-]|].
    destruct (existsb (λ item, negb (JS.truthy (lr_name item))) _); [by intros [= <- <-]|].
    destruct (commit db _); [|by intros [= <- <-]].
    intros [= <- <-] Hstatus. by destruct Hstatus.
Qed.

End invoiceFailures.

(** ** Client identifiers *)
Section clients.
Import ClientCon.

Lemma clientIdOf_inj n m : 0 ≤ n → 0 ≤ m → clientIdOf n = clientIdOf m → n = m.
Proof.
  intros Hn Hm Heq. apply (padded_inj 3); [done..|].
  unfold clientIdOf in Heq. by simplify_eq.
Qed.

Lemma clientsIssued_elem n id :
  id ∈ clientsIssued n ↔ ∃ k, 1 ≤ k ≤ n ∧ id = clientIdOf k.
Proof.
  unfold clientsIssued. rewrite elem_of_list_to_set, list_elem_of_fmap. split.
  - intros (k & -> & Hk). apply elem_of_seqZ in Hk. exists k. split; [lia|done].
  - intros (k & Hk & ->). exists k. split; [done|]. apply elem_of_seqZ. lia.
Qed.

Lemma clientsIssued_size n : 0 ≤ n → size (clientsIssued n) = Z.to_nat n.
Proof.
  intros Hn. unfold clientsIssued. rewrite size_list_to_set.
  - by rewrite length_fmap, length_seqZ.
  - apply NoDup_fmap_2_strong; [|apply NoDup_seqZ].
    intros x y Hx Hy. apply elem_of_seqZ in Hx, Hy. apply clientIdOf_inj; lia.
Qed.

(** X30: client identifiers are counted from the number of clients, so
    deleting any client but the last one makes the next [createClient]
    return the identifier of the last client, which is in use: the new
    client is written over it and the store has no client more. *)
Theorem createClient_overwrites_after_delete env db n k name :
  clients db = clientsIssued n →
  1 ≤ k < n →
  JS.truthy name = true →
  ∃ db1 db2,
    deleteClient db (clientIdOf k) = (db1, Returned ()) ∧
    createClient env db1 name = (db2, Returned (clientIdOf n)) ∧
    clientIdOf n ∈ clients db1 ∧
    clients db2 = clients db1.
Proof.
  intros Hclients Hk Hname.
  assert (clientIdOf k ∈ clients db) as Hin.
  { rewrite Hclients. apply clientsIssued_elem. exists k. split; [lia|done]. }
  assert (clientIdOf n ∈ clients db ∖ {[clientIdOf k]}) as Hlast.
  { apply elem_of_difference. split.
    - rewrite Hclients. apply clientsIssued_elem. exists n. split; [lia|done].
    - rewrite elem_of_singleton. intros Heq. apply clientIdOf_inj in Heq; lia. }
  assert (size (clients db ∖ {[clientIdOf k]}) = Z.to_nat (n - 1)) as Hsize.
  { rewrite size_difference by by apply singleton_subseteq_l.
    rewrite size_singleton, Hclients, clientsIssued_size by lia. lia. }
  eexists _, _. split; [|split; [|split]].
  - unfold deleteClient, InvoiceCon.rethrow.
    rewrite (bool_decide_eq_true_2 _ Hin). done.
  - unfold createClient, InvoiceCon.rethrow. rewrite Hname. cbn [negb].
    unfold generateClientId. cbn [clients setClients]. rewrite Hsize.
    replace (Z.of_nat (Z.to_nat (n - 1)) + 1) with n by lia. done.
  - done.
  - cbn [clients setClients]. apply leibniz_equiv. apply subseteq_union_1.
    by apply singleton_subseteq_l.
Qed.

Lemma createClient_overwrites_after_delete_witness :
  ∃ db1 db2,
    deleteClient threeClients (clientIdOf 1) = (db1, Returned ()) ∧
    createClient noon db1 "Dana" = (db2, Returned (clientIdOf 3)) ∧
    clientIdOf 3 ∈ clients db1 ∧
    clients db2 = clients db1.
Proof.
  apply (createClient_overwrites_after_delete noon threeClients 3 1 "Dana"); done.
Defined.

End clients.
